(** * Book tracker: list manager and recommendation engine

    A shallow embedding of [script/data.js], [script/api.js] and
    [script/recommendations.js], with the properties of the reading lists,
    the recommendation filter, the ranking, the query construction and the
    cover-URL helper; then of what [script/ui.js] puts in the regions of
    the page and of the handlers of [script/app.js], with the properties of
    their interplay with the lists.

    Conventions of the embedding.
    - A JSON value that may be absent ([undefined]/[null]) is an [option].
    - A JS string is its UTF-8 encoding, a well-formed one; strings are
      compared with [===], which on [option string] is equality, [None]
      standing for [undefined].
    - The functions of the language that work on characters beyond ASCII
      ([String.prototype.toLowerCase]) are parameters.
    - A call that throws is an answer of its own: [Throws] for the list
      manager, [None] where a region of the page is filled.
    - The module-level variables [userBooks], [lastSearchResults] and
      [recommendationsCache] are threaded explicitly: a mutating function
      takes the current value and returns its result paired with the new value.
    - [saveUserBooks] and the other writes to local storage do not change
      the in-memory state and are left out, as are the DOM updates; of the
      page, module [Ui] keeps the content of each region. *)

From Stdlib Require Import List String Ascii Bool Arith ZArith QArith Lia.
From Stdlib Require Import Permutation Sorted Lqa.
Import ListNotations.
Close Scope Q_scope.
Open Scope string_scope.
Open Scope list_scope.

Set Implicit Arguments.

(** ** Data model *)

Record ImageLinks := {
  thumbnail : option string;
  smallThumbnail : option string
}.

Record IndustryIdentifier := {
  type : option string;
  identifier : option string
}.

Record VolumeInfo := {
  title : option string;
  description : option string;
  authors : option (list string);
  categories : option (list string);
  industryIdentifiers : option (list IndustryIdentifier);
  imageLinks : option ImageLinks;
  averageRating : option Q;
  ratingsCount : option Z
}.

Record Book := {
  id : option string;
  volumeInfo : option VolumeInfo
}.

(** JS truthiness of a value that is a string when present. *)
Definition truthy (v : option string) : bool :=
  match v with
  | Some s => negb (s =? "")
  | None => false
  end.

(** [a === b] on values that are strings when present. *)
Definition strict_eq (a b : option string) : bool :=
  match a, b with
  | Some x, Some y => x =? y
  | None, None => true
  | _, _ => false
  end.

(** [l.some(b => b.id === i)] *)
Definition has_id (i : option string) (l : list Book) : bool :=
  existsb (fun b => strict_eq (id b) i) l.

(** ** [script/data.js]: the list manager *)

Module Data.

(** The three own properties of the [userBooks] object. *)
Inductive ListKey := CurrentlyReading | WantToRead | ReadBooks.

Record UserBooks := {
  currentlyReading : list Book;
  wantToRead : list Book;
  readBooks : list Book
}.

Definition emptyBooks : UserBooks :=
  {| currentlyReading := []; wantToRead := []; readBooks := [] |}.

(** The own property of [userBooks] that a name designates. *)
Definition key_of_name (listName : string) : option ListKey :=
  if listName =? "currentlyReading" then Some CurrentlyReading
  else if listName =? "wantToRead" then Some WantToRead
  else if listName =? "readBooks" then Some ReadBooks
  else None.

(** [userBooks] is an object literal: besides its three own properties it
    has the properties of [Object.prototype].  Their values are functions
    (the prototype itself for [__proto__]): truthy, and without [push],
    [filter], [findIndex] or [some]. *)
Definition inheritedNames : list string :=
  [ "constructor"; "toString"; "toLocaleString"; "valueOf"; "hasOwnProperty";
    "isPrototypeOf"; "propertyIsEnumerable"; "__proto__";
    "__defineGetter__"; "__defineSetter__"; "__lookupGetter__"; "__lookupSetter__" ].

Definition inherited (name : string) : bool :=
  existsb (String.eqb name) inheritedNames.

(** What [userBooks[listName]] reads. *)
Inductive Property :=
| OwnList (k : ListKey)
| Inherited
| Undefined.

Definition property (listName : string) : Property :=
  match key_of_name listName with
  | Some k => OwnList k
  | None => if inherited listName then Inherited else Undefined
  end.

(** How a call ends: it returns a boolean, or it throws a [TypeError]. *)
Inductive Answer :=
| Returns (value : bool)
| Throws.

Definition name_of_key (k : ListKey) : string :=
  match k with
  | CurrentlyReading => "currentlyReading"
  | WantToRead => "wantToRead"
  | ReadBooks => "readBooks"
  end.

Definition get_list (k : ListKey) (ub : UserBooks) : list Book :=
  match k with
  | CurrentlyReading => currentlyReading ub
  | WantToRead => wantToRead ub
  | ReadBooks => readBooks ub
  end.

Definition set_list (k : ListKey) (l : list Book) (ub : UserBooks) : UserBooks :=
  match k with
  | CurrentlyReading =>
      {| currentlyReading := l; wantToRead := wantToRead ub; readBooks := readBooks ub |}
  | WantToRead =>
      {| currentlyReading := currentlyReading ub; wantToRead := l; readBooks := readBooks ub |}
  | ReadBooks =>
      {| currentlyReading := currentlyReading ub; wantToRead := wantToRead ub; readBooks := l |}
  end.

(** [Object.values(userBooks)], in property order. *)
Definition values (ub : UserBooks) : list (list Book) :=
  [currentlyReading ub; wantToRead ub; readBooks ub].

(** [addBookToList(book, listName)].  With an inherited property the
    guard passes and the call of [push] throws. *)
Definition addBookToList (book : Book) (listName : string) (ub : UserBooks)
  : Answer * UserBooks :=
  if negb (truthy (id book)) then (Returns false, ub)
  else
    match property listName with
    | Undefined => (Returns false, ub)
    | target =>
        let isAlreadyInAnyList := existsb (has_id (id book)) (values ub) in
        if isAlreadyInAnyList then (Returns false, ub)
        else
          match target with
          | OwnList k => (Returns true, set_list k (get_list k ub ++ [book]) ub)
          | _ => (Throws, ub)
          end
    end.

(** [removeBookFromList(bookId, listName)].  With an inherited property
    the guard passes and the call of [filter] throws. *)
Definition removeBookFromList (bookId : string) (listName : string) (ub : UserBooks)
  : Answer * UserBooks :=
  if negb (truthy (Some bookId)) then (Returns false, ub)
  else
    match property listName with
    | Undefined => (Returns false, ub)
    | Inherited => (Throws, ub)
    | OwnList k =>
        let initialLength := List.length (get_list k ub) in
        let ub' :=
          set_list k
            (filter (fun book => negb (strict_eq (id book) (Some bookId))) (get_list k ub))
            ub in
        if (List.length (get_list k ub') <? initialLength)%nat then (Returns true, ub')
        else (Returns false, ub')
    end.

(** [l.findIndex(p)], [None] standing for [-1]. *)
Fixpoint findIndex (p : Book -> bool) (l : list Book) : option nat :=
  match l with
  | [] => None
  | b :: l' => if p b then Some 0 else option_map S (findIndex p l')
  end.

(** [l.splice(index, 1)]: the removed elements and the list that is left. *)
Definition splice1 (index : nat) (l : list Book) : list Book * list Book :=
  (firstn 1 (skipn index l), firstn index l ++ skipn (S index) l).

(** [l.find(p)] is [List.find]. *)

(** What [fromListName && userBooks[fromListName]] tests: the property
    read for a name that is not empty, nothing for [null] or the empty
    string. *)
Definition source_property (fromListName : option string) : Property :=
  match fromListName with
  | Some n => if truthy fromListName then property n else Undefined
  | None => Undefined
  end.

(** [moveBookToList(bookId, fromListName, toListName)].  The pair
    [(bookToMove, ub1)] is the book found and the lists once [splice] has
    taken it out of the source list.  With an inherited property as source
    the call of [findIndex] throws; with one as target the call of [some]
    throws, after the book has been taken out of the source list. *)
Definition moveBookToList (lastSearchResults recommendationsCache : list Book)
    (bookId : string) (fromListName : option string) (toListName : string)
    (ub : UserBooks) : Answer * UserBooks :=
  if negb (truthy (Some bookId)) then (Returns false, ub)
  else
    match property toListName with
    | Undefined => (Returns false, ub)
    | target =>
        let same := fun book : Book => strict_eq (id book) (Some bookId) in
        match
          match source_property fromListName with
          | OwnList from =>
              match findIndex same (get_list from ub) with
              | Some index =>
                  let '(removed, rest) := splice1 index (get_list from ub) in
                  Some (hd_error removed, set_list from rest ub)
              | None => Some (None, ub)
              end
          | Inherited => None
          | Undefined =>
              Some (match find same lastSearchResults with
                    | Some b => Some b
                    | None => find same recommendationsCache
                    end, ub)
          end
        with
        | None => (Throws, ub)
        | Some (None, ub1) => (Returns false, ub1)
        | Some (Some book, ub1) =>
            match target with
            | OwnList to =>
                let isInTargetList := has_id (Some bookId) (get_list to ub1) in
                if isInTargetList then (Returns true, ub1)
                else (Returns true, set_list to (get_list to ub1 ++ [book]) ub1)
            | _ => (Throws, ub1)
            end
        end
    end.

(** [getBookListStatus(bookId)]: [for ... in] visits the properties in order. *)
Definition getBookListStatus (bookId : option string) (ub : UserBooks) : option string :=
  option_map name_of_key
    (List.find (fun k => has_id bookId (get_list k ub))
       [CurrentlyReading; WantToRead; ReadBooks]).

(** Insertion into a JS [Set], kept in insertion order. *)
Definition set_add {A} (eqb : A -> A -> bool) (s : list A) (x : A) : list A :=
  if existsb (eqb x) s then s else s ++ [x].

(** [getAllUserBookIds()] *)
Definition getAllUserBookIds (ub : UserBooks) : list (option string) :=
  fold_left
    (fun allIds l => fold_left (fun s book => set_add strict_eq s (id book)) l allIds)
    (values ub) [].

(** [saveRecommendationsCache(recommendations)]: the new value of
    [recommendationsCache]; the argument is always an array here. *)
Definition saveRecommendationsCache (recommendations recommendationsCache : list Book)
  : list Book :=
  recommendations.

(** The [for (const listName in userBooks)] loop of [getBookById]: the
    first list, in property order, that has an entry with the id gives it. *)
Fixpoint find_in_lists (same : Book -> bool) (keys : list ListKey) (ub : UserBooks)
  : option Book :=
  match keys with
  | [] => None
  | k :: keys' =>
      match find same (get_list k ub) with
      | Some book => Some book
      | None => find_in_lists same keys' ub
      end
  end.

(** [getBookById(bookId)] *)
Definition getBookById (lastSearchResults recommendationsCache : list Book)
    (bookId : string) (ub : UserBooks) : option Book :=
  if negb (truthy (Some bookId)) then None
  else
    let same := fun b : Book => strict_eq (id b) (Some bookId) in
    match find_in_lists same [CurrentlyReading; WantToRead; ReadBooks] ub with
    | Some book => Some book
    | None =>
        match find same lastSearchResults with
        | Some b => Some b
        | None => find same recommendationsCache
        end
    end.

End Data.

(** ** [script/api.js]: the catalog client *)

Module Api.

(** The state of a promise once it has settled. *)
Inductive Settled (A : Type) : Type :=
| Fulfilled (a : A)
| Rejected.
Arguments Rejected {A}.

(** [fetchBooks(query)].  The remote call is the parameter [catalog]: it
    yields the [items] array of the response ([[]] when the response has
    none), or fails. *)
Definition fetchBooks (catalog : string -> Settled (list Book)) (query : string)
  : Settled (list Book) :=
  if negb (truthy (Some query)) then Rejected
  else catalog query.

(** [s.startsWith(p)] *)
Definition startsWith (s p : string) : bool := String.prefix p s.

(** The string without its first [n] characters. *)
Fixpoint drop (n : nat) (s : string) : string :=
  match n, s with
  | O, _ => s
  | S n', String _ s' => drop n' s'
  | S _, EmptyString => EmptyString
  end.

(** [s.replace(pat, "")] for a non-empty string pattern: the first
    occurrence of [pat] is removed. *)
Fixpoint remove_first (pat s : string) : string :=
  if String.prefix pat s then drop (String.length pat) s
  else match s with
       | EmptyString => EmptyString
       | String c s' => String c (remove_first pat s')
       end.

(** The three variables of the loop of [getOpenLibraryCover]. *)
Record CoverVars := {
  isbn13 : option string;
  isbn10 : option string;
  oclc : option string
}.

(** One iteration of [for (const id of volumeInfo.industryIdentifiers)]. *)
Definition cover_step (v : CoverVars) (i : IndustryIdentifier) : CoverVars :=
  if strict_eq (type i) (Some "ISBN_13") then
    {| isbn13 := identifier i; isbn10 := isbn10 v; oclc := oclc v |}
  else if strict_eq (type i) (Some "ISBN_10") then
    {| isbn13 := isbn13 v; isbn10 := identifier i; oclc := oclc v |}
  else
    match identifier i with
    | Some s =>
        if strict_eq (type i) (Some "OTHER") && startsWith s "OCLC" then
          {| isbn13 := isbn13 v; isbn10 := isbn10 v;
             oclc := Some (remove_first "OCLC:" s) |}
        else v
    | None => v
    end.

Definition isbn_url (value size : string) : string :=
  ("https://covers.openlibrary.org/b/isbn/" ++ value ++ "-" ++ size ++ ".jpg")%string.

Definition oclc_url (value size : string) : string :=
  ("https://covers.openlibrary.org/b/oclc/" ++ value ++ "-" ++ size ++ ".jpg")%string.

(** [getOpenLibraryCover(volumeInfo, size = "M")]; an omitted [size] is
    [None]. *)
Definition getOpenLibraryCover (volumeInfo : option VolumeInfo) (size : option string)
  : option string :=
  let size := match size with Some s => s | None => "M" end in
  match volumeInfo with
  | None => None
  | Some info =>
      match industryIdentifiers info with
      | None => None
      | Some ids =>
          let v := fold_left cover_step ids
                     {| isbn13 := None; isbn10 := None; oclc := None |} in
          match (if truthy (isbn13 v) then isbn13 v else None) with
          | Some x => Some (isbn_url x size)
          | None =>
              match (if truthy (isbn10 v) then isbn10 v else None) with
              | Some x => Some (isbn_url x size)
              | None =>
                  match (if truthy (oclc v) then oclc v else None) with
                  | Some x => Some (oclc_url x size)
                  | None => None
                  end
              end
          end
      end
  end.

End Api.

(** ** [script/recommendations.js]: the recommendation engine *)

Module Recommendations.

Import Data Api.

(** *** Signal extraction *)

(** A text is the UTF-8 encoding of the JS string: an ASCII character is
    one byte, and the bytes of any other character are above 127.  So
    every byte outside [[A-Za-z0-9_]] belongs to a non-word character, as
    for [/\W/] without the unicode flag, and the pieces between the runs
    of such bytes are those of the JS string. *)
Definition is_word_char (c : ascii) : bool :=
  let n := nat_of_ascii c in
  ((48 <=? n) && (n <=? 57) || (65 <=? n) && (n <=? 90)
   || (n =? 95) || (97 <=? n) && (n <=? 122))%nat.

(** [s.split(/\W+/)]: [cur] is the piece being read and [in_sep] tells
    that the previous character belonged to a separator. *)
Fixpoint split_from (cur : string) (in_sep : bool) (s : string) : list string :=
  match s with
  | EmptyString => [cur]
  | String c s' =>
      if is_word_char c then split_from (cur ++ String c EmptyString)%string false s'
      else if in_sep then split_from cur true s'
      else cur :: split_from EmptyString true s'
  end.

Definition split_nonword (s : string) : list string := split_from EmptyString false s.

Definition stopWords : list string :=
  [ "the"; "and"; "for"; "with"; "from"; "book"; "story"; "this"; "that";
    "your"; "have"; "been"; "will"; "they"; "their"; "into"; "some"; "each";
    "such"; "many"; "more"; "than"; "then"; "also"; "just"; "about"; "when";
    "what"; "where"; "which"; "why"; "how"; "there"; "them"; "these"; "those";
    "our"; "out"; "you"; "one"; "two"; "three"; "said" ].

(** [l.includes(w)] *)
Definition includes (l : list string) (w : string) : bool := existsb (String.eqb w) l.

Definition add_all (s : list string) (xs : list string) : list string :=
  fold_left (set_add String.eqb) xs s.

Section Engine.

(** [String.prototype.toLowerCase], a function of the language: it maps
    the text of a JS string to the text of its lower-cased string.  The
    engine is modelled for whatever function this is. *)
Variable toLowerCase : string -> string.

(** [processText(text)], on the set [readKeywords]. *)
Definition processText (readKeywords : list string) (text : option string) : list string :=
  match text with
  | Some t =>
      if truthy text then
        add_all readKeywords
          (filter (fun word => (3 <? String.length word)%nat && negb (includes stopWords word))
             (split_nonword (toLowerCase t)))
      else readKeywords
  | None => readKeywords
  end.

Record Signals := {
  readGenres : list string;
  readAuthors : list string;
  readKeywords : list string
}.

(** [book.volumeInfo || {}] *)
Definition emptyInfo : VolumeInfo :=
  {| title := None; description := None; authors := None; categories := None;
     industryIdentifiers := None; imageLinks := None;
     averageRating := None; ratingsCount := None |}.

Definition info_or_empty (book : Book) : VolumeInfo :=
  match volumeInfo book with Some i => i | None => emptyInfo end.

(** The body of [userBooks.readBooks.forEach((book) => ...)]. *)
Definition extract_step (s : Signals) (book : Book) : Signals :=
  let info := info_or_empty book in
  {| readGenres :=
       match categories info with
       | Some cats => add_all (readGenres s) cats
       | None => readGenres s
       end;
     readAuthors :=
       match authors info with
       | Some auths => add_all (readAuthors s) auths
       | None => readAuthors s
       end;
     readKeywords :=
       processText (processText (readKeywords s) (title info)) (description info) |}.

Definition extractSignals (rb : list Book) : Signals :=
  fold_left extract_step rb
    {| readGenres := []; readAuthors := []; readKeywords := [] |}.

(** *** Query construction *)

(** [l.join(" ")] *)
Definition join (l : list string) : string := String.concat " " l.

(** The queries handed to [fetchBooks], in the order of [searchPromises]. *)
Definition buildQueries (s : Signals) : list string :=
  let topGenres := firstn 3 (readGenres s) in
  let topAuthors := firstn 2 (readAuthors s) in
  let topKeywords := firstn 3 (readKeywords s) in
  let q1 := if (0 <? List.length topGenres)%nat
            then map (fun genre => ("subject:" ++ genre)%string) topGenres else [] in
  let q2 := if (0 <? List.length topAuthors)%nat
            then map (fun author => ("inauthor:" ++ author)%string) topAuthors else [] in
  let q3 := if (0 <? List.length topKeywords)%nat then [join topKeywords] else [] in
  let searchPromises := q1 ++ q2 ++ q3 in
  if (List.length searchPromises =? 0)%nat then ["bestsellers fiction"]
  else searchPromises.

Definition queries (ub : UserBooks) : list string :=
  buildQueries (extractSignals (readBooks ub)).

(** *** Fan-out and merge *)

(** [p.catch(() => v)] *)
Definition catch {A} (p : Settled A) (v : A) : Settled A :=
  match p with
  | Fulfilled a => Fulfilled a
  | Rejected => Fulfilled v
  end.

(** [Promise.all(ps)]: the values in the order of [ps], rejected as soon as
    one of them is. *)
Fixpoint promise_all {A} (ps : list (Settled A)) : Settled (list A) :=
  match ps with
  | [] => Fulfilled []
  | p :: ps' =>
      match p, promise_all ps' with
      | Fulfilled a, Fulfilled l => Fulfilled (a :: l)
      | _, _ => Rejected
      end
  end.

Definition searchPromises (catalog : string -> Settled (list Book)) (ub : UserBooks)
  : list (Settled (list Book)) :=
  map (fun q => catch (fetchBooks catalog q) []) (queries ub).

(** *** Filter *)

(** [info.imageLinks?.thumbnail || info.imageLinks?.smallThumbnail] *)
Definition has_cover (info : VolumeInfo) : bool :=
  match imageLinks info with
  | Some links => truthy (thumbnail links) || truthy (smallThumbnail links)
  | None => false
  end.

(** The state of the filtering pass. *)
Record FilterState := {
  uniqueBooks : list Book;
  seenBookIds : list (option string)
}.

(** The body of [recommendedBooks.forEach((book) => ...)]. *)
Definition filter_step (userBookIds : list (option string)) (st : FilterState) (book : Book)
  : FilterState :=
  match volumeInfo book with
  | Some info =>
      if truthy (id book)
         && negb (existsb (strict_eq (id book)) (seenBookIds st))
         && negb (existsb (strict_eq (id book)) userBookIds)
         && has_cover info
      then {| uniqueBooks := uniqueBooks st ++ [book];
              seenBookIds := set_add strict_eq (seenBookIds st) (id book) |}
      else st
  | None => st
  end.

Definition filterBooks (userBookIds : list (option string)) (recommendedBooks : list Book)
  : list Book :=
  uniqueBooks
    (fold_left (filter_step userBookIds) recommendedBooks
       {| uniqueBooks := []; seenBookIds := [] |}).

(** *** Rank *)

(** [x || 0] on an optional number. *)
Definition or0Q (x : option Q) : Q := match x with Some q => q | None => 0%Q end.
Definition or0Z (x : option Z) : Z := match x with Some z => z | None => 0%Z end.

Definition rating (b : Book) : Q := or0Q (averageRating (info_or_empty b)).
Definition count (b : Book) : Z := or0Z (ratingsCount (info_or_empty b)).

(** The comparison function given to [sort].  It is only applied to books
    that passed the filter, which all have a [volumeInfo].  Ratings are
    finite numbers, taken as rationals; the sign of a difference of such
    numbers is the sign of the exact difference. *)
Definition compareFn (a b : Book) : Q :=
  let ratingA := rating a in
  let ratingB := rating b in
  let countA := count a in
  let countB := count b in
  if negb (Qeq_bool ratingB ratingA) then (ratingB - ratingA)%Q
  else inject_Z (countB - countA).

(** [Array.prototype.sort] is a stable sort: an element is placed before
    the elements it was in front of unless the comparison function orders
    them the other way.  Insertion from the right computes that order. *)
Fixpoint insert (x : Book) (l : list Book) : list Book :=
  match l with
  | [] => [x]
  | y :: l' =>
      if Qle_bool (compareFn x y) 0 then x :: l
      else y :: insert x l'
  end.

Fixpoint sort (l : list Book) : list Book :=
  match l with
  | [] => []
  | x :: l' => insert x (sort l')
  end.

(** [uniqueBooks.sort(...).slice(0, 10)] *)
Definition rank (unique : list Book) : list Book := firstn 10 (sort unique).

(** *** The whole run *)

Inductive Outcome := Committed | Failed.

(** The books gathered by the fan-out, if [Promise.all] fulfils. *)
Definition merged (catalog : string -> Settled (list Book)) (ub : UserBooks)
  : Settled (list Book) :=
  match promise_all (searchPromises catalog ub) with
  | Fulfilled resultsArrays => Fulfilled (List.concat resultsArrays)
  | Rejected => Rejected
  end.

(** [generateRecommendations()], from the construction of the queries on:
    the outcome and the new value of [recommendationsCache].  The [catch]
    branch leaves the cache as it was. *)
Definition generateRecommendations (catalog : string -> Settled (list Book))
    (ub : UserBooks) (recommendationsCache : list Book) : Outcome * list Book :=
  match merged catalog ub with
  | Fulfilled recommendedBooks =>
      let userBookIds := getAllUserBookIds ub in
      let unique := filterBooks userBookIds recommendedBooks in
      let finalRecommendations := rank unique in
      (Committed, saveRecommendationsCache finalRecommendations recommendationsCache)
  | Rejected => (Failed, recommendationsCache)
  end.

End Engine.

End Recommendations.

(** ** [script/ui.js]: what the pages show *)

Module Ui.

Import Data Api.

(** [s.replace(pat, rep)] for a non-empty string pattern and a replacement
    without [$]: the first occurrence of [pat] is replaced. *)
Fixpoint replace_first (pat rep s : string) : string :=
  if String.prefix pat s then (rep ++ drop (String.length pat) s)%string
  else match s with
       | EmptyString => EmptyString
       | String c s' => String c (replace_first pat rep s')
       end.

(** [a || b] on values that are strings when present. *)
Definition or_else (a b : option string) : option string :=
  if truthy a then a else b.

Definition upper_char (c : ascii) : ascii :=
  let n := nat_of_ascii c in
  if ((97 <=? n) && (n <=? 122))%nat then ascii_of_nat (n - 32) else c.

(** [s.charAt(0).toUpperCase() + s.slice(1)] *)
Definition capitalize (s : string) : string :=
  match s with
  | EmptyString => EmptyString
  | String c s' => String (upper_char c) s'
  end.

(** What a card shows: the id it carries, its title, author line and
    cover, the badge of the list it is in, and whether it has the face
    with the buttons. *)
Record Card := {
  card_id : option string;
  card_title : string;
  card_author : string;
  card_thumbnail : string;
  card_badge : option string;
  card_buttons : bool
}.

(** [createBookCard(book, inUserList, listName, ...)].  Reading a field of
    a missing [volumeInfo] throws; [None] stands for the exception. *)
Definition createBookCard (book : Book) (inUserList : bool) (listName : option string)
  : option Card :=
  match volumeInfo book with
  | None => None
  | Some info =>
      let title := match or_else (title info) (Some "No Title") with
                   | Some t => t
                   | None => "No Title"
                   end in
      let author := match authors info with
                    | Some auths => String.concat ", " auths
                    | None => "Unknown Author"
                    end in
      let googleThumbnail :=
        match imageLinks info with
        | Some links => or_else (thumbnail links) (smallThumbnail links)
        | None => None
        end in
      let secureThumbnail :=
        match googleThumbnail with
        | Some g => if truthy googleThumbnail
                    then Some (replace_first "http://" "https://" g)
                    else None
        | None => None
        end in
      let openLibraryCover := getOpenLibraryCover (Some info) (Some "M") in
      let thumbnail :=
        match or_else (or_else secureThumbnail openLibraryCover)
                (Some "https://via.placeholder.com/128x192?text=No+Cover") with
        | Some t => t
        | None => "https://via.placeholder.com/128x192?text=No+Cover"
        end in
      Some {| card_id := id book;
              card_title := title;
              card_author := author;
              card_thumbnail := thumbnail;
              card_badge :=
                match listName with
                | Some n => if inUserList && truthy listName
                            then Some (capitalize n) else None
                | None => None
                end;
              card_buttons := negb inUserList |}
  end.

(** The content of a region of the page: cards, or a message. *)
Inductive Region :=
| Cards (cards : list Card)
| Notice (message : string).

(** [book && book.id && !userBookIds.includes(book.id)], for an array
    [userBookIds] that may have been left out of the call; reading
    [includes] of [undefined] throws. *)
Definition is_unowned (userBookIds : option (list (option string))) (book : Book)
  : option bool :=
  if truthy (id book) then
    match userBookIds with
    | Some ids => Some (negb (existsb (strict_eq (id book)) ids))
    | None => None
    end
  else Some false.

(** [books.filter(book => ...)] with that test. *)
Fixpoint filter_unowned (userBookIds : option (list (option string))) (books : list Book)
  : option (list Book) :=
  match books with
  | [] => Some []
  | book :: books' =>
      match is_unowned userBookIds book with
      | None => None
      | Some keep =>
          match filter_unowned userBookIds books' with
          | None => None
          | Some rest => Some (if keep then book :: rest else rest)
          end
      end
  end.

(** [books.forEach(book => region.appendChild(createBookCard(book, ...)))] *)
Fixpoint cards_of (inUserList : bool) (listName : option string) (books : list Book)
  : option (list Card) :=
  match books with
  | [] => Some []
  | book :: books' =>
      match createBookCard book inUserList listName with
      | None => None
      | Some card =>
          match cards_of inUserList listName books' with
          | None => None
          | Some cards => Some (card :: cards)
          end
      end
  end.

(** [displaySearchResults(books, userBookIds, ...)]: the content of the
    search region, [None] when the call throws. *)
Definition displaySearchResults (books : list Book)
    (userBookIds : option (list (option string))) : option Region :=
  match filter_unowned userBookIds books with
  | None => None
  | Some filteredBooks =>
      if (List.length filteredBooks =? 0)%nat then
        Some (Notice (if (List.length books =? 0)%nat
                      then "No books found. Try a different search term."
                      else "All found books are already in your lists!"))
      else option_map Cards (cards_of false None filteredBooks)
  end.

(** [displayRecommendations(recommendedBooks, userBookIds, ...)] *)
Definition displayRecommendations (recommendedBooks : list Book)
    (userBookIds : option (list (option string))) : option Region :=
  match filter_unowned userBookIds recommendedBooks with
  | None => None
  | Some filteredRecommendations =>
      if (List.length filteredRecommendations =? 0)%nat then
        Some (Notice (if (List.length recommendedBooks =? 0)%nat
                      then "No recommendations found. Read more books to get better suggestions!"
                      else "All recommended books are already in your lists!"))
      else option_map Cards (cards_of false None filteredRecommendations)
  end.

(** [renderUserList(listElement, books, listName, ...)] *)
Definition renderUserList (books : list Book) (listName : string) : option Region :=
  if (List.length books =? 0)%nat then Some (Notice "No books here yet. Add some!")
  else option_map Cards (cards_of true (Some listName) books).

(** [updateAllUserListsUI(userBooksData, ...)]: the three list regions. *)
Definition updateAllUserListsUI (ub : UserBooks) : option (Region * Region * Region) :=
  match renderUserList (currentlyReading ub) "currentlyReading" with
  | None => None
  | Some r1 =>
      match renderUserList (wantToRead ub) "wantToRead" with
      | None => None
      | Some r2 =>
          match renderUserList (readBooks ub) "readBooks" with
          | None => None
          | Some r3 => Some (r1, r2, r3)
          end
      end
  end.

(** The [data-action] values of the three add buttons of a card. *)
Definition addActions : list string :=
  ["add-currently-reading"; "add-want-to-read"; "add-read"].

(** The list name a click on an add button hands to [onAddToList]:
    [action.replace("add-", "")]. *)
Definition list_of_action (action : string) : string :=
  replace_first "add-" "" action.

(** One button of the details dialog: the call it makes when clicked. *)
Inductive ModalAction :=
| MoveTo (bookId : option string) (fromListName : option string) (toListName : string)
| RemoveFrom (bookId : option string) (listName : string).

(** The buttons [showBookDetailsModal(book, currentListName, ...)] puts in
    the dialog. *)
Definition modalActions (book : Book) (currentListName : option string)
  : list ModalAction :=
  let lists := ["currentlyReading"; "wantToRead"; "readBooks"] in
  match currentListName with
  | Some current =>
      if truthy currentListName then
        map (fun name => MoveTo (id book) currentListName name)
          (filter (fun name => negb (name =? current)) lists)
        ++ [RemoveFrom (id book) current]
      else map (fun name => MoveTo (id book) None name) lists
  | None => map (fun name => MoveTo (id book) None name) lists
  end.

End Ui.

(** ** [script/app.js]: the handlers

    The handlers are those of the version that returns early on a failure;
    the other version differs by the guard on an empty list name in
    [handleAddToList].  A handler that awaits a request is taken in the
    state in which the request settles. *)

Module App.

Import Data Api Recommendations Ui.

(** The three module variables of [data.js]. *)
Record State := {
  userBooks : UserBooks;
  lastSearchResults : list Book;
  recommendationsCache : list Book
}.

(** What a handler does besides changing the state, in order: an alert,
    the lists or the search region redrawn, a call of
    [generateRecommendations], an exception that ends the handler (thrown
    by the list manager or while a region is redrawn). *)
Inductive Effect :=
| Alert (message : string)
| ListsShown (regions : Region * Region * Region)
| SearchShown (region : Region)
| Regenerate
| Thrown.

Definition with_books (st : State) (ub : UserBooks) : State :=
  {| userBooks := ub;
     lastSearchResults := lastSearchResults st;
     recommendationsCache := recommendationsCache st |}.

(** [ui.updateAllUserListsUI(data.userBooks, ...)] followed by
    [ui.displaySearchResults(data.lastSearchResults,
    data.getAllUserBookIds(), ...)], then the effects [next] if neither
    has thrown. *)
Definition redraw (st : State) (next : list Effect) : list Effect :=
  match updateAllUserListsUI (userBooks st) with
  | None => [Thrown]
  | Some regions =>
      match displaySearchResults (lastSearchResults st)
              (Some (getAllUserBookIds (userBooks st))) with
      | None => [ListsShown regions; Thrown]
      | Some region => [ListsShown regions; SearchShown region] ++ next
      end
  end.

(** [handleAddToList(book, listName)] *)
Definition handleAddToList (book : Book) (listName : string) (st : State)
  : State * list Effect :=
  if negb (truthy (Some listName)) then (st, [])
  else
    let '(answer, ub) := addBookToList book listName (userBooks st) in
    let st' := with_books st ub in
    match answer with
    | Throws => (st', [Thrown])
    | Returns wasAdded =>
        if negb wasAdded then (st', [Alert "This book is already in one of your lists!"])
        else (st', redraw st' (if listName =? "readBooks" then [Regenerate] else []))
    end.

(** [handleMoveToList(bookId, fromListName, toListName)] *)
Definition handleMoveToList (bookId : string) (fromListName : option string)
    (toListName : string) (st : State) : State * list Effect :=
  let '(answer, ub) :=
    moveBookToList (lastSearchResults st) (recommendationsCache st)
      bookId fromListName toListName (userBooks st) in
  let st' := with_books st ub in
  match answer with
  | Throws => (st', [Thrown])
  | Returns moved =>
      if negb moved
      then (st', [Alert "Failed to move book. It might already be in the target list."])
      else (st', redraw st'
                   (if (toListName =? "readBooks")
                       || strict_eq fromListName (Some "readBooks")
                    then [Regenerate] else []))
  end.

(** [handleRemoveFromList(bookId, listName)] *)
Definition handleRemoveFromList (bookId : string) (listName : string) (st : State)
  : State * list Effect :=
  let '(answer, ub) := removeBookFromList bookId listName (userBooks st) in
  let st' := with_books st ub in
  match answer with
  | Throws => (st', [Thrown])
  | Returns removed =>
      if negb removed then (st', [Alert "Failed to remove book."])
      else (st', redraw st' (if listName =? "readBooks" then [Regenerate] else []))
  end.

(** A click on the add button [action] of the card of [book]: the
    listener of the back face calls [onAddToList(book, list)]. *)
Definition clickAddButton (action : string) (book : Book) (st : State)
  : State * list Effect :=
  if truthy (Some action) && startsWith action "add-"
  then handleAddToList book (list_of_action action) st
  else (st, []).

(** A click on a button of the details dialog. *)
Definition clickModalButton (a : ModalAction) (st : State) : State * list Effect :=
  match a with
  | MoveTo (Some bookId) fromListName toListName =>
      handleMoveToList bookId fromListName toListName st
  | MoveTo None fromListName toListName =>
      handleMoveToList "" fromListName toListName st
  | RemoveFrom (Some bookId) listName => handleRemoveFromList bookId listName st
  | RemoveFrom None listName => handleRemoveFromList "" listName st
  end.

(** [handleSearchSubmit(e)], for the trimmed content [query] of the search
    box: the state and the content of the search region. *)
Definition handleSearchSubmit (catalog : string -> Settled (list Book)) (query : string)
    (st : State) : State * Region :=
  if negb (truthy (Some query))
  then (st, Notice "Please enter a book title or author to search.")
  else
    match fetchBooks catalog query with
    | Fulfilled books =>
        let st' := {| userBooks := userBooks st;
                      lastSearchResults := books;
                      recommendationsCache := recommendationsCache st |} in
        match displaySearchResults books (Some (getAllUserBookIds (userBooks st))) with
        | Some region => (st', region)
        | None => (st', Notice "Error searching for books. Please try again later.")
        end
    | Rejected => (st, Notice "Error searching for books. Please try again later.")
    end.

(** The [try] block of [generateRecommendations] with what it leaves in
    the recommendation region: the call [displayRecommendations(
    finalRecommendations)] gives no [userBookIds]. *)
Definition generateAndShow (toLowerCase : string -> string)
    (catalog : string -> Settled (list Book))
    (ub : UserBooks) (recommendationsCache : list Book) : list Book * Region :=
  let failure := Notice "Failed to generate recommendations. Please try again later." in
  match merged toLowerCase catalog ub with
  | Fulfilled recommendedBooks =>
      let userBookIds := getAllUserBookIds ub in
      let unique := filterBooks userBookIds recommendedBooks in
      let finalRecommendations := rank unique in
      let cache := saveRecommendationsCache finalRecommendations recommendationsCache in
      match displayRecommendations finalRecommendations None with
      | Some region =>
          if (List.length finalRecommendations =? 0)%nat
          then (cache,
                Notice "No suitable recommendations found. Try reading more books to improve suggestions!")
          else (cache, region)
      | None => (cache, failure)
      end
  | Rejected => (recommendationsCache, failure)
  end.

End App.

(** ** Notions used in the statements *)

Module Notions.

Import Data Api Recommendations.

(** *** Reading lists *)

(** Number of entries of [l] whose id is [i]. *)
Definition occurrences (i : option string) (l : list Book) : nat :=
  List.length (filter (fun b => strict_eq (id b) i) l).

Definition allKeys : list ListKey := [CurrentlyReading; WantToRead; ReadBooks].

(** The lists in which the id [i] appears. *)
Definition lists_with (i : option string) (ub : UserBooks) : list ListKey :=
  filter (fun k => has_id i (get_list k ub)) allKeys.

(** Every id appears in at most one of the three lists. *)
Definition exclusive (ub : UserBooks) : Prop :=
  forall i, (List.length (lists_with i ub) <= 1)%nat.

(** The id [i] is in one of the three lists. *)
Definition owned (i : option string) (ub : UserBooks) : Prop :=
  exists k, In i (map id (get_list k ub)).

(** The states of the list manager: those obtained from the empty lists by
    calls of the three mutating functions, whatever the two caches hold at
    each call. *)
Inductive reachable : UserBooks -> Prop :=
| reach_empty : reachable emptyBooks
| reach_add ub book listName :
    reachable ub -> reachable (snd (addBookToList book listName ub))
| reach_remove ub bookId listName :
    reachable ub -> reachable (snd (removeBookFromList bookId listName ub))
| reach_move ub lsr rc bookId fromListName toListName :
    reachable ub ->
    reachable (snd (moveBookToList lsr rc bookId fromListName toListName ub)).

(** No entry of a list lacks an id, and no list holds an id twice. *)
Definition ids_truthy (ub : UserBooks) : Prop :=
  forall k b, In b (get_list k ub) -> truthy (id b) = true.

Definition nodup_each (ub : UserBooks) : Prop :=
  forall k i, (occurrences i (get_list k ub) <= 1)%nat.

(** Number of entries with id [i] over the three lists, and the states in
    which no id is entered more than once. *)
Definition copies (i : option string) (ub : UserBooks) : nat :=
  (occurrences i (currentlyReading ub) + occurrences i (wantToRead ub)
   + occurrences i (readBooks ub))%nat.

Definition single (ub : UserBooks) : Prop := forall i, (copies i ub <= 1)%nat.

(** The first half of [moveBookToList]: the book it finds and the lists
    once that book has been taken out of the source list; [None] when the
    source is an inherited property and the search in it throws. *)
Definition locate (lastSearchResults recommendationsCache : list Book)
    (bookId : string) (fromListName : option string) (ub : UserBooks)
  : option (option Book * UserBooks) :=
  let same := fun book : Book => strict_eq (id book) (Some bookId) in
  match source_property fromListName with
  | OwnList from =>
      match findIndex same (get_list from ub) with
      | Some index =>
          let '(removed, rest) := splice1 index (get_list from ub) in
          Some (hd_error removed, set_list from rest ub)
      | None => Some (None, ub)
      end
  | Inherited => None
  | Undefined =>
      Some (match find same lastSearchResults with
            | Some b => Some b
            | None => find same recommendationsCache
            end, ub)
  end.

(** The book to move can be found: in the source list when the caller
    names one of the three lists, in the search results or the
    recommendations when the caller names no property at all. *)
Definition locatable (lsr rc : list Book) (bookId : string)
    (fromListName : option string) (ub : UserBooks) : Prop :=
  match source_property fromListName with
  | OwnList from => In (Some bookId) (map id (get_list from ub))
  | Inherited => False
  | Undefined => In (Some bookId) (map id lsr) \/ In (Some bookId) (map id rc)
  end.

(** *** Cover identifiers *)

(** The last entry of the identifiers that satisfies [p]. *)
Definition last_of (p : IndustryIdentifier -> bool) (ids : list IndustryIdentifier)
  : option IndustryIdentifier :=
  find p (rev ids).

Definition is_type (ty : string) (i : IndustryIdentifier) : bool :=
  strict_eq (type i) (Some ty).

(** The text starts with the four letters OCLC. *)
Definition begins_with_OCLC (s : string) : bool :=
  match s with
  | String "O"%char (String "C"%char (String "L"%char (String "C"%char _))) => true
  | _ => false
  end.

(** An entry of type [OTHER] whose value starts with OCLC. *)
Definition is_oclc (i : IndustryIdentifier) : bool :=
  strict_eq (type i) (Some "OTHER")
  && match identifier i with
     | Some s => begins_with_OCLC s
     | None => false
     end.

(** A value that can be used in a URL: present and not empty. *)
Definition usable (v : option string) : option string :=
  match v with
  | Some s => if s =? "" then None else Some s
  | None => None
  end.

(** The ISBN-13 of a block is the value of its last entry of that type,
    when that value is usable; likewise its ISBN-10. *)
Definition isbn13_of (ids : list IndustryIdentifier) : option string :=
  usable (match last_of (is_type "ISBN_13") ids with
          | Some i => identifier i
          | None => None
          end).

Definition isbn10_of (ids : list IndustryIdentifier) : option string :=
  usable (match last_of (is_type "ISBN_10") ids with
          | Some i => identifier i
          | None => None
          end).

(** [r] is [s] without the first occurrence of [pat]: the occurrence
    that starts the soonest is cut out, and [r] is [s] when there is none. *)
Definition first_removed (pat s r : string) : Prop :=
  (exists pre post,
      s = (pre ++ pat ++ post)%string /\ r = (pre ++ post)%string /\
      forall pre' post',
        s = (pre' ++ pat ++ post')%string -> (String.length pre <= String.length pre')%nat)
  \/ ((forall pre post, s <> (pre ++ pat ++ post)%string) /\ r = s).

(** The address of a cover at Open Library. *)
Definition cover_address (kind value size : string) : string :=
  ("https://covers.openlibrary.org/b/" ++ kind ++ "/" ++ value ++ "-" ++ size ++ ".jpg")%string.

(** The cover expected for a block with the identifiers [ids]: by ISBN-13,
    else by ISBN-10, else by the value of the last OCLC entry without its
    first [OCLC:], when what is left is not empty; else none. *)
Definition expected_cover (ids : list IndustryIdentifier) (size : string)
    (result : option string) : Prop :=
  match isbn13_of ids, isbn10_of ids with
  | Some v, _ => result = Some (cover_address "isbn" v size)
  | None, Some v => result = Some (cover_address "isbn" v size)
  | None, None =>
      match last_of is_oclc ids with
      | Some i =>
          match identifier i with
          | Some s =>
              exists v,
                first_removed "OCLC:" s v /\
                result = if v =? "" then None else Some (cover_address "oclc" v size)
          | None => result = None
          end
      | None => result = None
      end
  end.

(** *** Preference signals and queries *)

(** The distinct elements of [l], in the order of their first occurrence. *)
Fixpoint distinct (l : list string) : list string :=
  match l with
  | [] => []
  | x :: l' => x :: filter (fun y => negb (y =? x)) (distinct l')
  end.

Definition genres_of (b : Book) : list string :=
  match volumeInfo b with
  | Some info => match categories info with Some cats => cats | None => [] end
  | None => []
  end.

Definition authors_of (b : Book) : list string :=
  match volumeInfo b with
  | Some info => match authors info with Some auths => auths | None => [] end
  | None => []
  end.

(** The keywords of a text: its lower-cased words of more than three
    characters that are not stop words. *)
Definition keywords_in (toLowerCase : string -> string) (text : option string)
  : list string :=
  match text with
  | Some t =>
      if t =? "" then []
      else filter (fun w => (3 <? String.length w)%nat && negb (includes stopWords w))
             (split_nonword (toLowerCase t))
  | None => []
  end.

Definition keywords_of (toLowerCase : string -> string) (b : Book) : list string :=
  match volumeInfo b with
  | Some info =>
      keywords_in toLowerCase (title info) ++ keywords_in toLowerCase (description info)
  | None => []
  end.

(** The queries for a reading history: one per genre for the first three
    distinct genres, one per author for the first two distinct authors, one
    for the first three distinct keywords together, and the fallback query
    alone when there is no genre, no author and no keyword. *)
Definition expected_queries (toLowerCase : string -> string) (rb : list Book)
  : list string :=
  let genres := distinct (flat_map genres_of rb) in
  let auths := distinct (flat_map authors_of rb) in
  let keywords := distinct (flat_map (keywords_of toLowerCase) rb) in
  match genres, auths, keywords with
  | [], [], [] => ["bestsellers fiction"]
  | _, _, _ =>
      map (fun g => ("subject:" ++ g)%string) (firstn 3 genres)
      ++ map (fun a => ("inauthor:" ++ a)%string) (firstn 2 auths)
      ++ match keywords with
         | [] => []
         | _ :: _ => [String.concat " " (firstn 3 keywords)]
         end
  end.

(** *** The recommendation filter *)

Definition has_info (b : Book) : bool :=
  match volumeInfo b with Some _ => true | None => false end.

Definition has_thumbnail (b : Book) : bool :=
  match volumeInfo b with Some info => has_cover info | None => false end.

(** The conditions of the filter that concern the entry alone: an id that
    is not empty, a descriptive block, an id that is not owned, a cover. *)
Definition eligible (userBookIds : list (option string)) (b : Book) : bool :=
  truthy (id b) && has_info b
  && negb (existsb (strict_eq (id b)) userBookIds)
  && has_thumbnail b.

(** The entry [b], met after the entries [pre], is kept: it is eligible and
    no entry kept so far has its id. *)
Definition kept_after (userBookIds : list (option string)) (pre : list Book) (b : Book)
  : bool :=
  eligible userBookIds b && negb (has_id (id b) (filterBooks userBookIds pre)).

(** The same with "no entry met so far has its id". *)
Definition kept_if_unseen (userBookIds : list (option string)) (pre : list Book) (b : Book)
  : bool :=
  eligible userBookIds b && negb (has_id (id b) pre).

(** For each id, the first entry of [l] that has it. *)
Fixpoint first_of_each_id (l : list Book) : list Book :=
  match l with
  | [] => []
  | b :: l' => b :: filter (fun x => negb (strict_eq (id x) (id b))) (first_of_each_id l')
  end.

(** *** Ranking *)

(** The rating of a book as its record states it, 0 when the record
    states none; likewise the number of its ratings. *)
Definition stated_rating (b : Book) : Q :=
  match volumeInfo b with
  | Some info => match averageRating info with Some r => r | None => 0%Q end
  | None => 0%Q
  end.

Definition stated_count (b : Book) : Z :=
  match volumeInfo b with
  | Some info => match ratingsCount info with Some n => n | None => 0%Z end
  | None => 0%Z
  end.

(** [a] is not ranked after [b]: it has the higher rating, or the same
    rating and at least as many ratings. *)
Definition ranks_no_later (a b : Book) : Prop :=
  (stated_rating b < stated_rating a)%Q
  \/ ((stated_rating a == stated_rating b)%Q /\ (stated_count b <= stated_count a)%Z).

(** [a] and [b] have the same rating and the same number of ratings. *)
Definition tied (a b : Book) : bool :=
  Qeq_bool (stated_rating a) (stated_rating b) && (stated_count a =? stated_count b)%Z.

(** [l'] holds the entries of [l], those that are tied in the order they
    have in [l]. *)
Definition keeps_ties (l l' : list Book) : Prop :=
  forall b, filter (tied b) l' = filter (tied b) l.

(** *** Fan-out *)

(** What one query contributes to the merge: its result, or nothing when
    it fails. *)
Definition results_of (catalog : string -> Settled (list Book)) (q : string) : list Book :=
  match fetchBooks catalog q with
  | Fulfilled r => r
  | Rejected => []
  end.

(** The catalog that answers with an empty result where [catalog] fails. *)
Definition emptied (catalog : string -> Settled (list Book)) (q : string)
  : Settled (list Book) :=
  Fulfilled (match catalog q with Fulfilled r => r | Rejected => [] end).

(** *** More on the reading lists *)

(** The entries of a list whose id is not [i], in their order. *)
Definition others (i : option string) (l : list Book) : list Book :=
  filter (fun b => negb (strict_eq (id b) i)) l.

(** *** Keywords *)

Fixpoint string_forall (p : ascii -> bool) (s : string) : bool :=
  match s with
  | EmptyString => true
  | String c s' => p c && string_forall p s'
  end.

(** A lower-case letter, a digit or the underscore. *)
Definition is_keyword_char (c : ascii) : bool :=
  let n := nat_of_ascii c in
  ((48 <=? n) && (n <=? 57) || (n =? 95) || (97 <=? n) && (n <=? 122))%nat.

Definition is_upper_char (c : ascii) : bool :=
  let n := nat_of_ascii c in ((65 <=? n) && (n <=? 90))%nat.

(** What the statements about the characters of the keywords need of
    [toLowerCase]: its result has no upper-case ASCII letter. *)
Definition leaves_no_capital (toLowerCase : string -> string) : Prop :=
  forall t, string_forall (fun c => negb (is_upper_char c)) (toLowerCase t) = true.

(** *** Pages and handlers *)

(** The books of [books] that have an id and are in none of the lists. *)
Definition unowned_books (ub : UserBooks) (books : list Book) : list Book :=
  filter (fun b => truthy (id b) && negb (existsb (strict_eq (id b)) (getAllUserBookIds ub)))
    books.

(** The number of calls of [generateRecommendations] among the effects of
    a handler, and whether one of its calls has thrown. *)
Definition regenerations (effects : list App.Effect) : nat :=
  List.length (filter (fun e => match e with App.Regenerate => true | _ => false end) effects).

Definition has_thrown (effects : list App.Effect) : bool :=
  existsb (fun e => match e with App.Thrown => true | _ => false end) effects.

End Notions.

(** ** Sample data *)

Module Samples.

Import Data Api Recommendations.

Definition info0 : VolumeInfo := emptyInfo.

Definition plain (i : string) : Book := {| id := Some i; volumeInfo := Some info0 |}.

Definition B1 : Book := plain "B1".
Definition B2 : Book := plain "B2".

(** A record whose id is the empty string. *)
Definition anonymous : Book := plain "".

(** [B1] filed under [wantToRead]. *)
Definition wants_B1 : UserBooks :=
  {| currentlyReading := []; wantToRead := [B1]; readBooks := [] |}.

(** [B1] filed under [readBooks]. *)
Definition read_B1 : UserBooks :=
  {| currentlyReading := []; wantToRead := []; readBooks := [B1] |}.

(** A list that holds [B1] twice. *)
Definition twice_B1 : UserBooks :=
  {| currentlyReading := []; wantToRead := [B1; B2; B1]; readBooks := [] |}.

Definition ident (t v : string) : IndustryIdentifier :=
  {| type := Some t; identifier := Some v |}.

Definition with_identifiers (ids : list IndustryIdentifier) : VolumeInfo :=
  {| title := None; description := None; authors := None; categories := None;
     industryIdentifiers := Some ids; imageLinks := None;
     averageRating := None; ratingsCount := None |}.

Definition described (i t : string) (auths cats : list string) : Book :=
  {| id := Some i;
     volumeInfo :=
       Some {| title := Some t; description := None;
               authors := Some auths; categories := Some cats;
               industryIdentifiers := None; imageLinks := None;
               averageRating := None; ratingsCount := None |} |}.

(** A reading history with one book. *)
Definition history : UserBooks :=
  {| currentlyReading := []; wantToRead := [];
     readBooks :=
       [described "D1" "Dragons dancing with wolves forever"
          ["A1"; "A2"; "A3"] ["G1"; "G1"; "G2"]] |}.

Definition covered_info : VolumeInfo :=
  {| title := None; description := None; authors := None; categories := None;
     industryIdentifiers := None;
     imageLinks := Some {| thumbnail := Some "http://t/x.jpg"; smallThumbnail := None |};
     averageRating := None; ratingsCount := None |}.

(** Two catalog records with the same id: the first without a cover, the
    second with one. *)
Definition X_bare : Book := {| id := Some "X"; volumeInfo := Some info0 |}.
Definition X_covered : Book := {| id := Some "X"; volumeInfo := Some covered_info |}.
Definition Y_covered : Book := {| id := Some "Y"; volumeInfo := Some covered_info |}.
Definition B1_covered : Book := {| id := Some "B1"; volumeInfo := Some covered_info |}.

Definition rated (i : string) (r : Q) (c : Z) : Book :=
  {| id := Some i;
     volumeInfo :=
       Some {| title := None; description := None; authors := None; categories := None;
               industryIdentifiers := None; imageLinks := None;
               averageRating := Some r; ratingsCount := Some c |} |}.

(** Books rated 4.5 by 100, 4.5 by 50 and 5.0 by 10. *)
Definition R1 : Book := rated "R1" (9 # 2) 100.
Definition R2 : Book := rated "R2" (9 # 2) 50.
Definition R3 : Book := rated "R3" 5 10.

(** A catalog that is down, and one that only answers author queries. *)
Definition down (q : string) : Settled (list Book) := Rejected.

Definition authors_only (q : string) : Settled (list Book) :=
  if String.prefix "inauthor:" q then Fulfilled [Y_covered] else Rejected.

(** [B1] filed under [currentlyReading], with [B2] under [readBooks]. *)
Definition two_lists : UserBooks :=
  {| currentlyReading := [B1]; wantToRead := []; readBooks := [B2] |}.

(** A catalog record whose thumbnail is served over plain HTTP. *)
Definition Z_http : Book :=
  {| id := Some "Z";
     volumeInfo :=
       Some {| title := Some "Zebra"; description := None; authors := Some ["Ann"; "Bob"];
               categories := None; industryIdentifiers := None;
               imageLinks := Some {| thumbnail := Some "http://books.example/z.jpg";
                                     smallThumbnail := None |};
               averageRating := None; ratingsCount := None |} |}.

(** A session with [B1] under [wantToRead] and [Z_http] among the search
    results. *)
Definition session : App.State :=
  {| App.userBooks := wants_B1;
     App.lastSearchResults := [Z_http];
     App.recommendationsCache := [] |}.

(** A catalog that answers every query with [Z_http] and [B1_covered]. *)
Definition two_hits (q : string) : Settled (list Book) := Fulfilled [Z_http; B1_covered].

(** Lower-casing of a text in ASCII: what [toLowerCase] does on the texts
    of the samples. *)
Definition lower_char (c : ascii) : ascii :=
  let n := nat_of_ascii c in
  if ((65 <=? n) && (n <=? 90))%nat then ascii_of_nat (n + 32) else c.

Fixpoint lower_ascii (s : string) : string :=
  match s with
  | EmptyString => EmptyString
  | String c s' => String (lower_char c) (lower_ascii s')
  end.

(** Two books that agree on rating and count, a book with a rating and no
    count, a book without ratings. *)
Definition T1 : Book := rated "T1" 4 7.
Definition T2 : Book := rated "T2" (8 # 2) 7.

Definition no_count : Book :=
  {| id := Some "NC";
     volumeInfo :=
       Some {| title := None; description := None; authors := None; categories := None;
               industryIdentifiers := None; imageLinks := None;
               averageRating := Some (9 # 2)%Q; ratingsCount := None |} |}.

Definition unrated : Book := plain "U".

(** Eleven books with ratings 1 to 11. *)
Definition eleven : list Book :=
  map (fun n => rated (String (ascii_of_nat (64 + n)) EmptyString)
                  (inject_Z (Z.of_nat n)) 1)
    (seq 1 11).


(** Three catalog records with a cover, rated 4.5 by 50, 4.5 by 100 and
    5.0 by 10, and a catalog that answers every query with them, in this
    order. *)
Definition rated_covered (i : string) (r : Q) (c : Z) : Book :=
  {| id := Some i;
     volumeInfo :=
       Some {| title := None; description := None; authors := None; categories := None;
               industryIdentifiers := None;
               imageLinks := Some {| thumbnail := Some "https://t/c.jpg";
                                     smallThumbnail := None |};
               averageRating := Some r; ratingsCount := Some c |} |}.

Definition C1 : Book := rated_covered "C1" (9 # 2) 100.
Definition C2 : Book := rated_covered "C2" (9 # 2) 50.
Definition C3 : Book := rated_covered "C3" 5 10.

Definition rated_hits (q : string) : Settled (list Book) := Fulfilled [C2; C1; C3].


(** A catalog record whose only cover is the small thumbnail. *)
Definition small_only : Book :=
  {| id := Some "S";
     volumeInfo :=
       Some {| title := None; description := None; authors := None; categories := None;
               industryIdentifiers := None;
               imageLinks := Some {| thumbnail := None;
                                     smallThumbnail := Some "https://t/s.jpg" |};
               averageRating := None; ratingsCount := None |} |}.


(** [B1] filed under [wantToRead] and under [readBooks]. *)
Definition both_B1 : UserBooks :=
  {| currentlyReading := []; wantToRead := [B1]; readBooks := [B1] |}.

End Samples.

(** * Properties *)

Import Data Api Recommendations Notions.

Unset Implicit Arguments.

(** ** Values and identifiers *)

Lemma strict_eq_iff a b : strict_eq a b = true <-> a = b.
Proof.
  destruct a as [x|], b as [y|]; simpl; try (split; congruence).
  rewrite String.eqb_eq. split; congruence.
Qed.

Lemma strict_eq_refl a : strict_eq a a = true.
Proof. now apply strict_eq_iff. Qed.

Lemma strict_eq_false_iff a b : strict_eq a b = false <-> a <> b.
Proof.
  rewrite <- strict_eq_iff. destruct (strict_eq a b); split; congruence.
Qed.

Lemma strict_eq_sym a b : strict_eq a b = strict_eq b a.
Proof.
  destruct (strict_eq b a) eqn:E.
  - apply strict_eq_iff in E. subst. apply strict_eq_refl.
  - apply strict_eq_false_iff in E. apply strict_eq_false_iff. congruence.
Qed.

Lemma truthy_Some s : truthy (Some s) = true <-> s <> "".
Proof.
  simpl. rewrite negb_true_iff. split.
  - intros H ->. now rewrite String.eqb_refl in H.
  - intros H. now apply String.eqb_neq.
Qed.

Lemma has_id_In i l : has_id i l = true <-> In i (map id l).
Proof.
  unfold has_id. rewrite existsb_exists, in_map_iff.
  split; intros [b [H1 H2]]; exists b.
  - apply strict_eq_iff in H2. tauto.
  - split; [tauto|]. now apply strict_eq_iff.
Qed.

Lemma has_id_false_In i l : has_id i l = false <-> ~ In i (map id l).
Proof.
  rewrite <- has_id_In. destruct (has_id i l); split; congruence.
Qed.

Lemma has_id_app i l1 l2 : has_id i (l1 ++ l2) = has_id i l1 || has_id i l2.
Proof. apply existsb_app. Qed.

(** ** Counting the entries with a given id *)

Lemma occurrences_app i l1 l2 :
  occurrences i (l1 ++ l2) = (occurrences i l1 + occurrences i l2)%nat.
Proof. unfold occurrences. now rewrite filter_app, length_app. Qed.

Lemma occurrences_cons i b l :
  occurrences i (b :: l) =
  ((if strict_eq (id b) i then 1 else 0) + occurrences i l)%nat.
Proof. unfold occurrences. simpl. now destruct (strict_eq (id b) i). Qed.

Lemma occurrences_snoc i l b :
  occurrences i (l ++ [b]) =
  (occurrences i l + (if strict_eq (id b) i then 1 else 0))%nat.
Proof.
  rewrite occurrences_app, occurrences_cons. unfold occurrences at 2. simpl. lia.
Qed.

Lemma occurrences_zero i l : occurrences i l = 0%nat <-> ~ In i (map id l).
Proof.
  induction l as [|b l IH]; simpl.
  - unfold occurrences. simpl. tauto.
  - rewrite occurrences_cons. destruct (strict_eq (id b) i) eqn:E.
    + apply strict_eq_iff in E. split; [discriminate | tauto].
    + apply strict_eq_false_iff in E. simpl. rewrite IH. tauto.
Qed.

Lemma occurrences_pos i l : (0 < occurrences i l)%nat <-> In i (map id l).
Proof.
  pose proof (occurrences_zero i l) as Z.
  destruct (has_id i l) eqn:E.
  - apply has_id_In in E. split; [tauto|]. intros _.
    destruct (occurrences i l); [tauto | lia].
  - apply has_id_false_In in E. split; [|tauto]. intros H.
    apply Z in E. lia.
Qed.

Lemma occurrences_purge i j l :
  occurrences i (filter (fun b => negb (strict_eq (id b) j)) l) =
  if strict_eq i j then 0%nat else occurrences i l.
Proof.
  induction l as [|b l IH]; simpl.
  - now destruct (strict_eq i j).
  - destruct (strict_eq (id b) j) eqn:E; simpl.
    + rewrite IH, occurrences_cons. destruct (strict_eq i j) eqn:F; [reflexivity|].
      apply strict_eq_iff in E. apply strict_eq_false_iff in F.
      assert (G : strict_eq (id b) i = false)
        by (apply strict_eq_false_iff; congruence).
      now rewrite G.
    + rewrite !occurrences_cons, IH. destruct (strict_eq i j) eqn:F; [|reflexivity].
      apply strict_eq_iff in F. subst j. now rewrite E.
Qed.

(** ** Reading and writing one of the three lists *)

Lemma get_set_same k l ub : get_list k (set_list k l ub) = l.
Proof. now destruct k. Qed.

Lemma get_set_other k k' l ub : k' <> k -> get_list k' (set_list k l ub) = get_list k' ub.
Proof. destruct k, k'; simpl; congruence. Qed.

Lemma set_get_same k ub : set_list k (get_list k ub) ub = ub.
Proof. now destruct k, ub. Qed.

Lemma key_eq_dec (k k' : ListKey) : {k = k'} + {k <> k'}.
Proof. decide equality. Qed.

Lemma key_of_name_of_key k : key_of_name (name_of_key k) = Some k.
Proof. now destruct k. Qed.

Lemma key_of_name_inv n k : key_of_name n = Some k -> n = name_of_key k.
Proof.
  unfold key_of_name.
  destruct (String.eqb_spec n "currentlyReading"); [intros [= <-]; assumption|].
  destruct (String.eqb_spec n "wantToRead"); [intros [= <-]; assumption|].
  destruct (String.eqb_spec n "readBooks"); [intros [= <-]; assumption|].
  discriminate.
Qed.

Lemma in_values l ub : In l (values ub) <-> exists k, l = get_list k ub.
Proof.
  unfold values. simpl. split.
  - intros [H|[H|[H|[]]]]; subst;
      [exists CurrentlyReading | exists WantToRead | exists ReadBooks]; reflexivity.
  - intros [[] ->]; simpl; tauto.
Qed.

Lemma owned_anywhere i ub : existsb (has_id i) (values ub) = true <-> owned i ub.
Proof.
  rewrite existsb_exists. unfold owned. split.
  - intros [l [H1 H2]]. apply in_values in H1 as [k ->]. exists k.
    now apply has_id_In.
  - intros [k H]. exists (get_list k ub). split.
    + apply in_values. now exists k.
    + now apply has_id_In.
Qed.

Lemma not_owned_anywhere i ub : existsb (has_id i) (values ub) = false <-> ~ owned i ub.
Proof.
  rewrite <- owned_anywhere. destruct (existsb (has_id i) (values ub)); split; congruence.
Qed.

Lemma purge_length_lt i l :
  (List.length (filter (fun b : Book => negb (strict_eq (id b) i)) l) <? List.length l)%nat
  = has_id i l.
Proof.
  assert (H : (List.length (filter (fun b : Book => negb (strict_eq (id b) i)) l)
               + occurrences i l = List.length l)%nat).
  { unfold occurrences. induction l as [|b l IH]; simpl; [reflexivity|].
    destruct (strict_eq (id b) i); simpl; lia. }
  destruct (has_id i l) eqn:E.
  - apply has_id_In, occurrences_pos in E. apply Nat.ltb_lt. lia.
  - apply has_id_false_In, occurrences_zero in E. apply Nat.ltb_ge. lia.
Qed.

Lemma purge_absent i l :
  ~ In i (map id l) -> filter (fun b : Book => negb (strict_eq (id b) i)) l = l.
Proof.
  induction l as [|b l IH]; simpl; intros H; [reflexivity|].
  destruct (strict_eq (id b) i) eqn:E.
  - apply strict_eq_iff in E. tauto.
  - simpl. f_equal. tauto.
Qed.

(** ** The three mutating functions, case by case *)

Lemma property_own listName k : key_of_name listName = Some k -> property listName = OwnList k.
Proof. intros H. unfold property. now rewrite H. Qed.

Lemma property_Undefined listName :
  property listName = Undefined <-> key_of_name listName = None /\ inherited listName = false.
Proof.
  unfold property. destruct (key_of_name listName), (inherited listName);
    split; try discriminate; try tauto; intros [? ?]; discriminate.
Qed.

Lemma property_Inherited listName :
  property listName = Inherited <-> key_of_name listName = None /\ inherited listName = true.
Proof.
  unfold property. destruct (key_of_name listName), (inherited listName);
    split; try discriminate; try tauto; intros [? ?]; discriminate.
Qed.

Lemma add_cases book listName ub :
  addBookToList book listName ub =
  match key_of_name listName with
  | Some k =>
      if truthy (id book) && negb (existsb (has_id (id book)) (values ub))
      then (Returns true, set_list k (get_list k ub ++ [book]) ub)
      else (Returns false, ub)
  | None =>
      (if truthy (id book) && inherited listName
          && negb (existsb (has_id (id book)) (values ub))
       then Throws else Returns false, ub)
  end.
Proof.
  unfold addBookToList, property.
  destruct (truthy (id book)), (key_of_name listName), (inherited listName);
    cbn [negb andb]; try reflexivity;
    now destruct (existsb (has_id (id book)) (values ub)).
Qed.

Lemma remove_cases bookId listName ub :
  removeBookFromList bookId listName ub =
  match key_of_name listName with
  | Some k =>
      if truthy (Some bookId) && has_id (Some bookId) (get_list k ub)
      then (Returns true,
            set_list k
              (filter (fun b => negb (strict_eq (id b) (Some bookId))) (get_list k ub)) ub)
      else (Returns false, ub)
  | None => (if truthy (Some bookId) && inherited listName then Throws else Returns false, ub)
  end.
Proof.
  unfold removeBookFromList, property.
  destruct (truthy (Some bookId)), (key_of_name listName) as [k|], (inherited listName);
    cbn [negb andb]; try reflexivity.
  all: rewrite get_set_same, purge_length_lt.
  all: destruct (has_id (Some bookId) (get_list k ub)) eqn:E; [reflexivity|].
  all: apply has_id_false_In in E; now rewrite purge_absent, set_get_same.
Qed.

Lemma findIndex_Some p l index :
  findIndex p l = Some index ->
  exists l1 b l2,
    l = l1 ++ b :: l2 /\ List.length l1 = index /\ p b = true /\
    (forall x, In x l1 -> p x = false).
Proof.
  revert index. induction l as [|a l IH]; simpl; intros index H; [discriminate|].
  destruct (p a) eqn:E.
  - injection H as <-. exists [], a, l. repeat split; auto. intros x [].
  - destruct (findIndex p l) as [j|]; [|discriminate]. injection H as <-.
    destruct (IH j eq_refl) as (l1 & b & l2 & -> & <- & Hb & Hl1).
    exists (a :: l1), b, l2. repeat split; auto.
    intros x [<-|Hx]; auto.
Qed.

Lemma findIndex_None p l :
  findIndex p l = None -> forall x, In x l -> p x = false.
Proof.
  induction l as [|a l IH]; simpl; intros H x; [intros []|].
  destruct (p a) eqn:E; [discriminate|].
  destruct (findIndex p l); [discriminate|].
  intros [<-|Hx]; auto.
Qed.

Lemma skipn_middle (l1 : list Book) b l2 :
  skipn (List.length l1) (l1 ++ b :: l2) = b :: l2.
Proof. induction l1; simpl; auto. Qed.

Lemma firstn_middle (l1 : list Book) l2 :
  firstn (List.length l1) (l1 ++ l2) = l1.
Proof. induction l1; simpl; [now destruct l2 | congruence]. Qed.

Lemma splice1_middle (l1 : list Book) b l2 :
  splice1 (List.length l1) (l1 ++ b :: l2) = ([b], l1 ++ l2).
Proof.
  unfold splice1. rewrite skipn_middle, firstn_middle.
  change (S (List.length l1)) with (1 + List.length l1)%nat.
  rewrite <- skipn_skipn, skipn_middle. reflexivity.
Qed.

Lemma In_id_absent (i : option string) (l : list Book) :
  (forall x, In x l -> strict_eq (id x) i = false) -> ~ In i (map id l).
Proof.
  intros H Hin. apply in_map_iff in Hin as (x & Hx & Hin).
  specialize (H x Hin). apply strict_eq_false_iff in H. congruence.
Qed.

Lemma find_id_Some (i : option string) (l : list Book) b :
  find (fun x => strict_eq (id x) i) l = Some b -> id b = i /\ In b l.
Proof.
  intros H. apply find_some in H as [H1 H2]. apply strict_eq_iff in H2. tauto.
Qed.

Lemma find_id_None (i : option string) (l : list Book) :
  find (fun x => strict_eq (id x) i) l = None <-> ~ In i (map id l).
Proof.
  split.
  - intros H. apply In_id_absent. intros x Hx. exact (find_none _ _ H x Hx).
  - intros H. destruct (find _ l) as [b|] eqn:E; [|reflexivity].
    apply find_id_Some in E as [E1 E2]. exfalso. apply H.
    apply in_map_iff. now exists b.
Qed.

(** What [locate] returns, when the caller names one of the lists. *)
Lemma locate_from lsr rc bookId fromListName from ub :
  source_property fromListName = OwnList from ->
  (exists l1 b l2,
      get_list from ub = l1 ++ b :: l2 /\ id b = Some bookId /\
      ~ In (Some bookId) (map id l1) /\
      locate lsr rc bookId fromListName ub
      = Some (Some b, set_list from (l1 ++ l2) ub))
  \/ (~ In (Some bookId) (map id (get_list from ub)) /\
      locate lsr rc bookId fromListName ub = Some (None, ub)).
Proof.
  intros Hk. unfold locate. rewrite Hk.
  destruct (findIndex _ (get_list from ub)) as [index|] eqn:E.
  - left. apply findIndex_Some in E as (l1 & b & l2 & Hl & <- & Hb & Hl1).
    exists l1, b, l2. rewrite Hl, splice1_middle. simpl.
    apply strict_eq_iff in Hb. repeat split; auto.
    now apply In_id_absent.
  - right. split; [|reflexivity].
    apply In_id_absent. now apply findIndex_None.
Qed.

(** What [locate] returns, when the caller names no property. *)
Lemma locate_cache lsr rc bookId fromListName ub :
  source_property fromListName = Undefined ->
  (exists b, id b = Some bookId /\ (In b lsr \/ In b rc) /\
             locate lsr rc bookId fromListName ub = Some (Some b, ub))
  \/ (~ In (Some bookId) (map id lsr) /\ ~ In (Some bookId) (map id rc) /\
      locate lsr rc bookId fromListName ub = Some (None, ub)).
Proof.
  intros Hk. unfold locate. rewrite Hk.
  destruct (find _ lsr) as [b|] eqn:E1.
  - left. apply find_id_Some in E1 as [? ?]. exists b. tauto.
  - destruct (find _ rc) as [b|] eqn:E2.
    + left. apply find_id_Some in E2 as [? ?]. exists b. tauto.
    + right. apply find_id_None in E1, E2. tauto.
Qed.

Lemma locate_inherited lsr rc bookId fromListName ub :
  source_property fromListName = Inherited ->
  locate lsr rc bookId fromListName ub = None.
Proof. intros H. unfold locate. now rewrite H. Qed.

Lemma move_cases lsr rc bookId fromListName toListName to ub :
  truthy (Some bookId) = true ->
  key_of_name toListName = Some to ->
  moveBookToList lsr rc bookId fromListName toListName ub =
  match locate lsr rc bookId fromListName ub with
  | None => (Throws, ub)
  | Some (None, ub1) => (Returns false, ub1)
  | Some (Some bookToMove, ub1) =>
      if has_id (Some bookId) (get_list to ub1) then (Returns true, ub1)
      else (Returns true, set_list to (get_list to ub1 ++ [bookToMove]) ub1)
  end.
Proof.
  intros Ht Hk. unfold moveBookToList, locate.
  rewrite Ht, (property_own _ _ Hk). cbn [negb].
  destruct (source_property fromListName) as [from| |]; reflexivity.
Qed.

Lemma move_rejected lsr rc bookId fromListName toListName ub :
  truthy (Some bookId) = false \/ property toListName = Undefined ->
  moveBookToList lsr rc bookId fromListName toListName ub = (Returns false, ub).
Proof.
  unfold moveBookToList. intros [H|H]; rewrite H; [reflexivity|].
  now destruct (truthy (Some bookId)).
Qed.

Lemma move_inherited lsr rc bookId fromListName toListName ub :
  truthy (Some bookId) = true ->
  property toListName = Inherited ->
  moveBookToList lsr rc bookId fromListName toListName ub =
  match locate lsr rc bookId fromListName ub with
  | None => (Throws, ub)
  | Some (None, ub1) => (Returns false, ub1)
  | Some (Some _, ub1) => (Throws, ub1)
  end.
Proof.
  intros Ht Hk. unfold moveBookToList, locate. rewrite Ht, Hk. cbn [negb].
  destruct (source_property fromListName) as [from| |]; reflexivity.
Qed.

(** [locate] only ever takes entries out of the lists. *)
Lemma locate_shrinks lsr rc bookId fromListName ub :
  match locate lsr rc bookId fromListName ub with
  | None => source_property fromListName = Inherited
  | Some (found, ub1) =>
      (forall k b, In b (get_list k ub1) -> In b (get_list k ub)) /\
      (forall k i, (occurrences i (get_list k ub1) <= occurrences i (get_list k ub))%nat) /\
      match found with
      | Some b => id b = Some bookId
      | None => ub1 = ub
      end
  end.
Proof.
  destruct (source_property fromListName) as [from| |] eqn:Hk.
  - destruct (locate_from lsr rc bookId fromListName from ub Hk)
      as [(l1 & b & l2 & Hl & Hb & _ & ->)|[_ ->]].
    + repeat split; auto.
      * intros k x. destruct (key_eq_dec k from) as [->|Hne].
        -- rewrite get_set_same, Hl, !in_app_iff. simpl. tauto.
        -- now rewrite get_set_other.
      * intros k i. destruct (key_eq_dec k from) as [->|Hne].
        -- rewrite get_set_same, Hl, !occurrences_app, occurrences_cons. lia.
        -- rewrite get_set_other by assumption. lia.
    + repeat split; auto.
  - now rewrite locate_inherited.
  - destruct (locate_cache lsr rc bookId fromListName ub Hk)
      as [(b & Hb & _ & ->)|(_ & _ & ->)]; repeat split; auto.
Qed.

(** The lists a call of [moveBookToList] leaves, whatever its answer: those
    it found, those from which [locate] has taken the book, or these with
    the book appended to the target list. *)
Lemma move_state lsr rc bookId fromListName toListName ub :
  let r := moveBookToList lsr rc bookId fromListName toListName ub in
  snd r = ub \/
  exists b ub1,
    truthy (Some bookId) = true /\ id b = Some bookId /\
    (forall k x, In x (get_list k ub1) -> In x (get_list k ub)) /\
    (forall k i, (occurrences i (get_list k ub1) <= occurrences i (get_list k ub))%nat) /\
    (snd r = ub1 \/
     exists to, key_of_name toListName = Some to /\
                has_id (Some bookId) (get_list to ub1) = false /\
                snd r = set_list to (get_list to ub1 ++ [b]) ub1).
Proof.
  cbv zeta.
  destruct (truthy (Some bookId)) eqn:Ht; [|left; now rewrite move_rejected by auto].
  pose proof (locate_shrinks lsr rc bookId fromListName ub) as L.
  destruct (property toListName) as [to| |] eqn:Hp.
  - assert (Hk : key_of_name toListName = Some to).
    { unfold property in Hp. destruct (key_of_name toListName);
        [congruence | destruct (inherited toListName); discriminate]. }
    erewrite move_cases by eassumption.
    destruct (locate lsr rc bookId fromListName ub) as [[[b|] ub1]|]; [| |now left].
    + destruct L as (L1 & L2 & L3). right. exists b, ub1. repeat split; auto.
      destruct (has_id _ _) eqn:E; [now left|]. right. exists to. auto.
    + destruct L as (_ & _ & ->). now left.
  - rewrite move_inherited by assumption.
    destruct (locate lsr rc bookId fromListName ub) as [[[b|] ub1]|]; [| |now left].
    + destruct L as (L1 & L2 & L3). right. exists b, ub1. repeat split; auto.
    + destruct L as (_ & _ & ->). now left.
  - left. now rewrite move_rejected by auto.
Qed.

(** ** Two facts that hold in every state of the list manager *)

Lemma reachable_ids_truthy ub : reachable ub -> ids_truthy ub.
Proof.
  induction 1 as [|ub book listName _ IH|ub bookId listName _ IH
                  |ub lsr rc bookId fromListName toListName _ IH].
  - intros [] b [].
  - rewrite add_cases. destruct (key_of_name listName) as [k|]; [|exact IH].
    destruct (truthy (id book)) eqn:Ht; cbn [andb]; [|exact IH].
    destruct (negb _); [|exact IH]. cbn [snd].
    intros k' b. destruct (key_eq_dec k' k) as [->|Hne].
    + rewrite get_set_same, in_app_iff. intros [Hb|[<-|[]]]; eauto.
    + rewrite get_set_other by assumption. apply IH.
  - rewrite remove_cases. destruct (key_of_name listName) as [k|]; [|exact IH].
    destruct (_ && _); [|exact IH]. cbn [snd].
    intros k' b. destruct (key_eq_dec k' k) as [->|Hne].
    + rewrite get_set_same, filter_In. intros [Hb _]. eauto.
    + rewrite get_set_other by assumption. apply IH.
  - destruct (move_state lsr rc bookId fromListName toListName ub)
      as [->|(b & ub1 & Ht & Hb & Hin & _ & [->|(to & _ & _ & ->)])]; [exact IH| |].
    + intros k x Hx. eauto.
    + intros k x. destruct (key_eq_dec k to) as [->|Hne].
      * rewrite get_set_same, in_app_iff. intros [Hx|[<-|[]]]; eauto.
        now rewrite Hb.
      * rewrite get_set_other by assumption. eauto.
Qed.

Lemma reachable_nodup_each ub : reachable ub -> nodup_each ub.
Proof.
  induction 1 as [|ub book listName _ IH|ub bookId listName _ IH
                  |ub lsr rc bookId fromListName toListName _ IH].
  - intros [] i; unfold occurrences; simpl; lia.
  - rewrite add_cases. destruct (key_of_name listName) as [k|]; [|exact IH].
    destruct (truthy (id book)); cbn [andb]; [|exact IH].
    destruct (existsb _ _) eqn:E; cbn [negb snd]; [exact IH|].
    apply not_owned_anywhere in E.
    intros k' i. destruct (key_eq_dec k' k) as [->|Hne].
    + rewrite get_set_same, occurrences_snoc.
      specialize (IH k i). destruct (strict_eq (id book) i) eqn:F; [|lia].
      apply strict_eq_iff in F. subst i.
      assert (occurrences (id book) (get_list k ub) = 0%nat); [|lia].
      apply occurrences_zero. intros Hin. apply E. now exists k.
    + rewrite get_set_other by assumption. apply IH.
  - rewrite remove_cases. destruct (key_of_name listName) as [k|]; [|exact IH].
    destruct (_ && _); [|exact IH]. cbn [snd].
    intros k' i. destruct (key_eq_dec k' k) as [->|Hne].
    + rewrite get_set_same, occurrences_purge. specialize (IH k i).
      destruct (strict_eq i (Some bookId)); lia.
    + rewrite get_set_other by assumption. apply IH.
  - destruct (move_state lsr rc bookId fromListName toListName ub)
      as [->|(b & ub1 & Ht & Hb & _ & Hocc & Hs)]; [exact IH|].
    assert (N1 : nodup_each ub1).
    { intros k i. specialize (Hocc k i). specialize (IH k i). lia. }
    destruct Hs as [->|(to & _ & E & ->)]; [exact N1|].
    apply has_id_false_In, occurrences_zero in E.
    intros k i. destruct (key_eq_dec k to) as [->|Hne].
    + rewrite get_set_same, occurrences_snoc. specialize (N1 to i).
      destruct (strict_eq (id b) i) eqn:F; [|lia].
      apply strict_eq_iff in F. rewrite Hb in F. subst i. lia.
    + rewrite get_set_other by assumption. apply N1.
Qed.

Lemma reachable_wants_B1 : reachable Samples.wants_B1.
Proof. exact (reach_add Samples.B1 "wantToRead" reach_empty). Qed.

Lemma reachable_read_B1 : reachable Samples.read_B1.
Proof. exact (reach_add Samples.B1 "readBooks" reach_empty). Qed.

(** ** Adding a book *)

(** A name that is no property of the lists: nothing is added. *)
Lemma add_unknown_name book listName ub :
  property listName = Undefined ->
  addBookToList book listName ub = (Returns false, ub).
Proof.
  intros H. apply property_Undefined in H as [H1 H2]. rewrite add_cases, H1, H2.
  now rewrite andb_false_r.
Qed.

(** A name that every object inherits passes the guard of [addBookToList];
    for a book that has an id and is in no list the call of [push] then
    throws. *)
Lemma add_to_inherited_name_throws book listName ub :
  property listName = Inherited ->
  truthy (id book) = true -> ~ owned (id book) ub ->
  addBookToList book listName ub = (Throws, ub).
Proof.
  intros H Ht Hn. apply property_Inherited in H as [H1 H2].
  apply not_owned_anywhere in Hn. now rewrite add_cases, H1, H2, Ht, Hn.
Qed.

(** C3, as the code has it.  For every name, [addBookToList] returns
    [false] and leaves the three lists as they are when the id of the book
    is already in one of them, and also when the book has no id or an empty
    one.  Otherwise, and for the name of one of the three lists, it appends
    the book to that list and returns [true].  In particular, once a book
    that was in no list has been added to [wantToRead], [getBookListStatus]
    answers [wantToRead] and adding it to [readBooks] returns [false]. *)
Theorem add_spec book listName ub :
  (owned (id book) ub -> addBookToList book listName ub = (Returns false, ub)) /\
  (truthy (id book) = false -> addBookToList book listName ub = (Returns false, ub)) /\
  (forall k,
      ~ owned (id book) ub -> truthy (id book) = true -> key_of_name listName = Some k ->
      addBookToList book listName ub
      = (Returns true, set_list k (get_list k ub ++ [book]) ub)) /\
  (~ owned (id book) ub -> truthy (id book) = true ->
   let ub1 := snd (addBookToList book "wantToRead" ub) in
   fst (addBookToList book "wantToRead" ub) = Returns true /\
   getBookListStatus (id book) ub1 = Some "wantToRead" /\
   addBookToList book "readBooks" ub1 = (Returns false, ub1)).
Proof.
  split; [|split; [|split]].
  - intros Ho. rewrite add_cases. apply owned_anywhere in Ho. rewrite Ho.
    rewrite !andb_false_r. now destruct (key_of_name listName).
  - intros H. rewrite add_cases, H. now destruct (key_of_name listName).
  - intros k Hn Ht Hk. rewrite add_cases, Hk, Ht.
    apply not_owned_anywhere in Hn. now rewrite Hn.
  - intros Hn Ht. cbv zeta. rewrite (add_cases book "wantToRead").
    change (key_of_name "wantToRead") with (Some WantToRead).
    pose proof Hn as Hn'. apply not_owned_anywhere in Hn'. rewrite Ht, Hn'.
    cbn [andb negb fst snd]. split; [reflexivity|]. split.
    + unfold getBookListStatus. cbn [find get_list set_list Data.currentlyReading
        Data.wantToRead].
      assert (E : has_id (id book) (Data.currentlyReading ub) = false).
      { apply has_id_false_In. intros Hin. apply Hn. now exists CurrentlyReading. }
      rewrite E, has_id_app. unfold has_id at 2. cbn [existsb].
      rewrite strict_eq_refl. now rewrite orb_true_r.
    + rewrite add_cases. change (key_of_name "readBooks") with (Some ReadBooks).
      assert (O : existsb (has_id (id book))
                    (values (set_list WantToRead (get_list WantToRead ub ++ [book]) ub))
                  = true).
      { apply owned_anywhere. exists WantToRead.
        rewrite get_set_same, map_app, in_app_iff. right. simpl. tauto. }
      rewrite O. now rewrite andb_false_r.
Qed.

Lemma add_spec_witness :
  addBookToList Samples.B1 "wantToRead" emptyBooks = (Returns true, Samples.wants_B1) /\
  getBookListStatus (Some "B1") Samples.wants_B1 = Some "wantToRead" /\
  addBookToList Samples.B1 "readBooks" Samples.wants_B1 = (Returns false, Samples.wants_B1) /\
  addBookToList Samples.B1 "currentlyReading" Samples.wants_B1
    = (Returns false, Samples.wants_B1) /\
  addBookToList Samples.anonymous "readBooks" Samples.wants_B1
    = (Returns false, Samples.wants_B1) /\
  addBookToList Samples.B2 "readBooks" Samples.wants_B1
    = (Returns true, set_list ReadBooks [Samples.B2] Samples.wants_B1).
Proof.
  assert (N : ~ owned (id Samples.B1) emptyBooks).
  { intros [[] H]; exact H. }
  assert (T : truthy (id Samples.B1) = true) by reflexivity.
  assert (O : owned (id Samples.B1) Samples.wants_B1).
  { exists WantToRead. left. reflexivity. }
  assert (N2 : ~ owned (id Samples.B2) Samples.wants_B1).
  { intros [[] H]; simpl in H; intuition discriminate. }
  destruct (add_spec Samples.B1 "wantToRead" emptyBooks) as (_ & _ & A & S).
  split; [exact (A WantToRead N T eq_refl)|].
  destruct (S N T) as (_ & S2 & S3). split; [exact S2|]. split; [exact S3|].
  split; [exact (proj1 (add_spec Samples.B1 "currentlyReading" Samples.wants_B1) O)|].
  split;
    [exact (proj1 (proj2 (add_spec Samples.anonymous "readBooks" Samples.wants_B1)) eq_refl)|].
  exact (proj1 (proj2 (proj2 (add_spec Samples.B2 "readBooks" Samples.wants_B1)))
           ReadBooks N2 eq_refl eq_refl).
Defined.

(** C3 as it is worded fails on a book whose id is the empty string: the
    id is in none of the lists, and yet nothing is appended to
    [wantToRead] and the call returns [false]. *)
Lemma add_refuses_unlisted_book_without_id :
  ~ owned (id Samples.anonymous) emptyBooks /\
  addBookToList Samples.anonymous "wantToRead" emptyBooks = (Returns false, emptyBooks).
Proof.
  split; [|reflexivity]. intros [[] H]; exact H.
Qed.

(** ** Removing a book *)

(** C4.  In every state of the list manager: when the named list holds a
    book with the given id, [removeBookFromList] returns [true], the list
    is left without any entry of that id and the other two lists are
    untouched; when it does not, and also when the name is no property of
    the lists, it returns [false] and the three lists are unchanged.  When
    the name is one that every object inherits, such as [constructor], no
    book is present under it and yet the call does not return [false]: the
    guard lets it through and it throws. *)
Theorem remove_spec ub bookId listName :
  reachable ub ->
  (forall k,
      key_of_name listName = Some k ->
      In (Some bookId) (map id (get_list k ub)) ->
      let r := removeBookFromList bookId listName ub in
      fst r = Returns true /\
      get_list k (snd r) =
        filter (fun b => negb (strict_eq (id b) (Some bookId))) (get_list k ub) /\
      ~ In (Some bookId) (map id (get_list k (snd r))) /\
      (forall k', k' <> k -> get_list k' (snd r) = get_list k' ub)) /\
  (forall k,
      key_of_name listName = Some k ->
      ~ In (Some bookId) (map id (get_list k ub)) ->
      removeBookFromList bookId listName ub = (Returns false, ub)) /\
  (property listName = Undefined ->
   removeBookFromList bookId listName ub = (Returns false, ub)) /\
  (property listName = Inherited -> truthy (Some bookId) = true ->
   removeBookFromList bookId listName ub = (Throws, ub)).
Proof.
  intros R. split; [|split; [|split]].
  - intros k Hk Hin. cbv zeta. rewrite remove_cases, Hk.
    assert (Ht : truthy (Some bookId) = true).
    { apply in_map_iff in Hin as (b & Hb & Hin). rewrite <- Hb.
      exact (reachable_ids_truthy ub R k b Hin). }
    rewrite Ht. apply has_id_In in Hin. rewrite Hin. cbn [andb fst snd].
    rewrite get_set_same. repeat split.
    + apply occurrences_zero. rewrite occurrences_purge. now rewrite strict_eq_refl.
    + intros k' Hne. now apply get_set_other.
  - intros k Hk Habs. rewrite remove_cases, Hk.
    apply has_id_false_In in Habs. rewrite Habs. now rewrite andb_false_r.
  - intros H. apply property_Undefined in H as [H1 H2].
    rewrite remove_cases, H1, H2. now rewrite andb_false_r.
  - intros H Ht. apply property_Inherited in H as [H1 H2].
    now rewrite remove_cases, H1, H2, Ht.
Qed.

Lemma remove_spec_witness :
  reachable Samples.wants_B1 /\
  removeBookFromList "B1" "wantToRead" Samples.wants_B1 = (Returns true, emptyBooks) /\
  removeBookFromList "B1" "readBooks" Samples.wants_B1 = (Returns false, Samples.wants_B1) /\
  removeBookFromList "B1" "favourites" Samples.wants_B1 = (Returns false, Samples.wants_B1) /\
  removeBookFromList "B1" "constructor" Samples.wants_B1 = (Throws, Samples.wants_B1).
Proof.
  assert (R : reachable Samples.wants_B1)
    by exact (reach_add Samples.B1 "wantToRead" reach_empty).
  split; [exact R|]. split; [|split; [|split]].
  - destruct (remove_spec Samples.wants_B1 "B1" "wantToRead" R) as [H _].
    destruct (H WantToRead eq_refl (or_introl eq_refl)) as (H1 & _).
    reflexivity.
  - destruct (remove_spec Samples.wants_B1 "B1" "readBooks" R) as (_ & H & _).
    apply (H ReadBooks eq_refl). simpl. tauto.
  - destruct (remove_spec Samples.wants_B1 "B1" "favourites" R) as (_ & _ & H & _).
    exact (H eq_refl).
  - destruct (remove_spec Samples.wants_B1 "B1" "constructor" R) as (_ & _ & _ & H).
    exact (H eq_refl eq_refl).
Defined.

(** C10.  A call of [removeBookFromList] that returns [true] has filtered
    the whole named list: every entry with the given id is gone, however
    many there were. *)
Theorem remove_success_purges_all bookId listName ub ub' :
  removeBookFromList bookId listName ub = (Returns true, ub') ->
  exists k,
    key_of_name listName = Some k /\
    get_list k ub' =
      filter (fun b => negb (strict_eq (id b) (Some bookId))) (get_list k ub) /\
    (0 < occurrences (Some bookId) (get_list k ub))%nat /\
    occurrences (Some bookId) (get_list k ub') = 0%nat.
Proof.
  rewrite remove_cases. destruct (key_of_name listName) as [k|];
    [|destruct (_ && _); discriminate].
  destruct (truthy (Some bookId)); cbn [andb]; [|discriminate].
  destruct (has_id _ _) eqn:E; [|discriminate].
  intros [= <-]. exists k. rewrite get_set_same. repeat split.
  - now apply occurrences_pos, has_id_In.
  - rewrite occurrences_purge. now rewrite strict_eq_refl.
Qed.

Lemma remove_success_purges_all_witness :
  occurrences (Some "B1") (Data.wantToRead Samples.twice_B1) = 2%nat /\
  exists k,
    key_of_name "wantToRead" = Some k /\
    get_list k (set_list WantToRead [Samples.B2] Samples.twice_B1) =
      filter (fun b => negb (strict_eq (id b) (Some "B1"))) (get_list k Samples.twice_B1) /\
    (0 < occurrences (Some "B1") (get_list k Samples.twice_B1))%nat /\
    occurrences (Some "B1")
      (get_list k (set_list WantToRead [Samples.B2] Samples.twice_B1)) = 0%nat.
Proof.
  split; [reflexivity|].
  apply (remove_success_purges_all "B1" "wantToRead" Samples.twice_B1).
  reflexivity.
Defined.

(** ** Moving a book *)

(** A source name that every object inherits passes the test of
    [moveBookToList], and the search in it throws. *)
Lemma move_from_inherited_name_throws lsr rc bookId fromListName toListName ub :
  truthy (Some bookId) = true ->
  property toListName <> Undefined ->
  source_property fromListName = Inherited ->
  moveBookToList lsr rc bookId fromListName toListName ub = (Throws, ub).
Proof.
  intros Ht Hp Hs. unfold moveBookToList. rewrite Ht, Hs. cbn [negb].
  destruct (property toListName); congruence.
Qed.

(** C2, as the code has it.  In every state of the list manager in which
    the target list already holds the id, and for a source that is absent
    or the name of one of the lists (any source but a name that every
    object inherits): if the book can be found (in the source list when one
    is named, in the search results or the recommendations otherwise),
    [moveBookToList] returns [true], the target list still holds the id
    once and has the length it had; if the book cannot be found, it returns
    [false] and leaves the three lists as they are. *)
Theorem move_into_holding_list lsr rc bookId fromListName toListName to ub :
  reachable ub ->
  key_of_name toListName = Some to ->
  In (Some bookId) (map id (get_list to ub)) ->
  source_property fromListName <> Inherited ->
  let r := moveBookToList lsr rc bookId fromListName toListName ub in
  (locatable lsr rc bookId fromListName ub ->
   fst r = Returns true /\
   occurrences (Some bookId) (get_list to (snd r)) = 1%nat /\
   List.length (get_list to (snd r)) = List.length (get_list to ub)) /\
  (~ locatable lsr rc bookId fromListName ub -> r = (Returns false, ub)).
Proof.
  intros R Hk Hin Hsrc. cbv zeta.
  assert (Ht : truthy (Some bookId) = true).
  { apply in_map_iff in Hin as (b & Hb & Hin). rewrite <- Hb.
    exact (reachable_ids_truthy ub R to b Hin). }
  assert (Hone : occurrences (Some bookId) (get_list to ub) = 1%nat).
  { pose proof (reachable_nodup_each ub R to (Some bookId)).
    apply occurrences_pos in Hin. lia. }
  erewrite move_cases by eassumption.
  unfold locatable.
  destruct (source_property fromListName) as [from| |] eqn:Hs; [| congruence |].
  - destruct (locate_from lsr rc bookId fromListName from ub Hs)
      as [(l1 & b & l2 & Hl & Hb & _ & ->)|[Habs ->]]; [|tauto].
    split; [intros _|intros Habs; exfalso; apply Habs; rewrite Hl, map_app, in_app_iff;
                     right; left; exact Hb].
    destruct (key_eq_dec from to) as [->|Hne].
    + rewrite get_set_same.
      rewrite Hl, occurrences_app, occurrences_cons, Hb, strict_eq_refl in Hone.
      assert (Z : occurrences (Some bookId) (l1 ++ l2) = 0%nat)
        by (rewrite occurrences_app; lia).
      pose proof Z as Z'. apply occurrences_zero, has_id_false_In in Z'. rewrite Z'.
      cbn [fst snd]. rewrite get_set_same, occurrences_app, occurrences_cons, Hb,
        strict_eq_refl, Z, Hl, !length_app.
      repeat split. simpl. lia.
    + rewrite get_set_other by congruence.
      apply has_id_In in Hin. rewrite Hin. cbn [fst snd].
      rewrite get_set_other by congruence. auto.
  - destruct (locate_cache lsr rc bookId fromListName ub Hs)
      as [(b & Hb & Hc & ->)|(N1 & N2 & ->)]; [|tauto].
    split.
    + intros _. apply has_id_In in Hin. rewrite Hin. cbn [fst snd]. auto.
    + intros Habs. exfalso. apply Habs.
      destruct Hc as [Hc|Hc]; [left|right]; apply in_map_iff; now exists b.
Qed.

Lemma move_into_holding_list_witness :
  reachable Samples.read_B1 /\
  moveBookToList [] [] "B1" (Some "readBooks") "readBooks" Samples.read_B1
    = (Returns true, Samples.read_B1) /\
  moveBookToList [Samples.B1] [] "B1" None "readBooks" Samples.read_B1
    = (Returns true, Samples.read_B1) /\
  moveBookToList [] [Samples.B1] "B1" None "readBooks" Samples.read_B1
    = (Returns true, Samples.read_B1) /\
  moveBookToList [] [] "B1" None "readBooks" Samples.read_B1
    = (Returns false, Samples.read_B1) /\
  moveBookToList [Samples.B1] [] "B1" (Some "wantToRead") "readBooks" Samples.read_B1
    = (Returns false, Samples.read_B1) /\
  reachable Samples.both_B1 /\
  moveBookToList [] [] "B1" (Some "wantToRead") "readBooks" Samples.both_B1
    = (Returns true, Samples.read_B1).
Proof.
  assert (R : reachable Samples.read_B1)
    by exact (reach_add Samples.B1 "readBooks" reach_empty).
  assert (R2 : reachable Samples.both_B1)
    by exact (reach_move [Samples.B1] [] "B1" None "readBooks" reachable_wants_B1).
  assert (I : In (Some "B1") (map id (get_list ReadBooks Samples.read_B1)))
    by (left; reflexivity).
  assert (M : forall lsr rc fromListName,
             source_property fromListName <> Inherited ->
             let r := moveBookToList lsr rc "B1" fromListName "readBooks" Samples.read_B1 in
             (locatable lsr rc "B1" fromListName Samples.read_B1 ->
              fst r = Returns true /\
              occurrences (Some "B1") (get_list ReadBooks (snd r)) = 1%nat /\
              List.length (get_list ReadBooks (snd r))
              = List.length (get_list ReadBooks Samples.read_B1)) /\
             (~ locatable lsr rc "B1" fromListName Samples.read_B1 ->
              r = (Returns false, Samples.read_B1))).
  { intros lsr rc fromListName S.
    exact (move_into_holding_list lsr rc "B1" fromListName "readBooks" ReadBooks
             Samples.read_B1 R eq_refl I S). }
  split; [exact R|]. split; [|split; [|split; [|split; [|split; [|split; [exact R2|]]]]]].
  6:{ destruct (move_into_holding_list [] [] "B1" (Some "wantToRead") "readBooks"
                  ReadBooks Samples.both_B1 R2 eq_refl (or_introl eq_refl))
        as [[H _] _]; [discriminate | left; reflexivity |].
      reflexivity. }
  - destruct (M [] [] (Some "readBooks")) as [[H _] _]; [discriminate | exact I |].
    reflexivity.
  - destruct (M [Samples.B1] [] None) as [[H _] _];
      [discriminate | left; left; reflexivity |]. reflexivity.
  - destruct (M [] [Samples.B1] None) as [[H _] _];
      [discriminate | right; left; reflexivity |]. reflexivity.
  - destruct (M [] [] None) as [_ H]; [discriminate|].
    apply H. intros [[]|[]].
  - destruct (M [Samples.B1] [] (Some "wantToRead")) as [_ H]; [discriminate|].
    apply H. intros [].
Defined.

(** C2 as it is worded fails when the book cannot be found: with [B1] in
    [readBooks] and both caches empty, moving [B1] to [readBooks] returns
    [false], whether no source list is named or the named one does not hold
    the book. *)
Lemma move_into_holding_list_unlocated :
  reachable Samples.read_B1 /\
  In (Some "B1") (map id (get_list ReadBooks Samples.read_B1)) /\
  moveBookToList [] [] "B1" None "readBooks" Samples.read_B1
    = (Returns false, Samples.read_B1) /\
  moveBookToList [] [] "B1" (Some "wantToRead") "readBooks" Samples.read_B1
    = (Returns false, Samples.read_B1).
Proof.
  split; [exact (reach_add Samples.B1 "readBooks" reach_empty)|].
  split; [left; reflexivity|]. split; reflexivity.
Qed.

(** ** At most one list per book *)

Lemma copies_set i k l ub :
  (copies i (set_list k l ub) + occurrences i (get_list k ub)
   = copies i ub + occurrences i l)%nat.
Proof. unfold copies. destruct k; simpl; lia. Qed.

Lemma copies_ge i k ub : (occurrences i (get_list k ub) <= copies i ub)%nat.
Proof. unfold copies. destruct k; simpl; lia. Qed.

Lemma copies_zero i ub : copies i ub = 0%nat <-> ~ owned i ub.
Proof.
  split.
  - intros H [k Hk]. apply occurrences_pos in Hk.
    pose proof (copies_ge i k ub). lia.
  - intros H. unfold copies.
    assert (Z : forall k, occurrences i (get_list k ub) = 0%nat).
    { intros k. apply occurrences_zero. intros Hin. apply H. now exists k. }
    pose proof (Z CurrentlyReading). pose proof (Z WantToRead).
    pose proof (Z ReadBooks). simpl in *. lia.
Qed.

Lemma has_id_le i l : ((if has_id i l then 1 else 0) <= occurrences i l)%nat.
Proof.
  destruct (has_id i l) eqn:E; [|lia].
  apply has_id_In, occurrences_pos in E. lia.
Qed.

Lemma lists_with_le i ub : (List.length (lists_with i ub) <= copies i ub)%nat.
Proof.
  unfold lists_with, copies, allKeys. cbn [filter get_list].
  pose proof (has_id_le i (Data.currentlyReading ub)).
  pose proof (has_id_le i (Data.wantToRead ub)).
  pose proof (has_id_le i (Data.readBooks ub)).
  destruct (has_id i (Data.currentlyReading ub)), (has_id i (Data.wantToRead ub)),
    (has_id i (Data.readBooks ub)); simpl; lia.
Qed.

Lemma single_exclusive ub : single ub -> exclusive ub.
Proof.
  intros H i. pose proof (lists_with_le i ub). specialize (H i). lia.
Qed.

Lemma single_empty : single emptyBooks.
Proof. intros i. unfold copies, occurrences. simpl. lia. Qed.

(** [addBookToList] keeps every id in at most one list. *)
Lemma add_keeps_single book listName ub :
  single ub -> single (snd (addBookToList book listName ub)).
Proof.
  intros H. rewrite add_cases. destruct (key_of_name listName) as [k|]; [|exact H].
  destruct (truthy (id book)); cbn [andb]; [|exact H].
  destruct (existsb _ _) eqn:E; cbn [negb snd]; [exact H|].
  apply not_owned_anywhere, copies_zero in E.
  intros i. pose proof (copies_set i k (get_list k ub ++ [book]) ub) as C.
  rewrite occurrences_snoc in C. specialize (H i).
  destruct (strict_eq (id book) i) eqn:F; [|lia].
  apply strict_eq_iff in F. subst i. lia.
Qed.

(** [removeBookFromList] keeps every id in at most one list. *)
Lemma remove_keeps_single bookId listName ub :
  single ub -> single (snd (removeBookFromList bookId listName ub)).
Proof.
  intros H. rewrite remove_cases. destruct (key_of_name listName) as [k|]; [|exact H].
  destruct (_ && _); [|exact H]. cbn [snd].
  intros i.
  pose proof (copies_set i k
    (filter (fun b => negb (strict_eq (id b) (Some bookId))) (get_list k ub)) ub) as C.
  rewrite occurrences_purge in C. specialize (H i).
  destruct (strict_eq i (Some bookId)); lia.
Qed.

Lemma copies_le ub1 ub i :
  (forall k j, (occurrences j (get_list k ub1) <= occurrences j (get_list k ub))%nat) ->
  (copies i ub1 <= copies i ub)%nat.
Proof.
  intros H. unfold copies.
  pose proof (H CurrentlyReading i). pose proof (H WantToRead i).
  pose proof (H ReadBooks i). simpl in *. lia.
Qed.

(** [moveBookToList] keeps every id in at most one list when the caller
    names a source, or when the book is in none of the lists. *)
Lemma move_keeps_single lsr rc bookId fromListName toListName ub :
  single ub ->
  source_property fromListName <> Undefined \/ ~ owned (Some bookId) ub ->
  single (snd (moveBookToList lsr rc bookId fromListName toListName ub)).
Proof.
  intros H Hcall.
  destruct (truthy (Some bookId)) eqn:Ht;
    [|rewrite move_rejected by auto; exact H].
  destruct (property toListName) as [to| |] eqn:Hp;
    [| |rewrite move_rejected by auto; exact H].
  2:{ rewrite move_inherited by assumption.
      pose proof (locate_shrinks lsr rc bookId fromListName ub) as L.
      destruct (locate lsr rc bookId fromListName ub) as [[[b|] ub1]|]; [| |exact H].
      - destruct L as (_ & L & _). intros i. specialize (H i).
        pose proof (copies_le ub1 ub i L). cbn [snd]. lia.
      - destruct L as (_ & _ & ->). exact H. }
  assert (Hk : key_of_name toListName = Some to).
  { unfold property in Hp. destruct (key_of_name toListName);
      [congruence | destruct (inherited toListName); discriminate]. }
  erewrite move_cases by eassumption.
  destruct (source_property fromListName) as [from| |] eqn:Hs.
  - destruct (locate_from lsr rc bookId fromListName from ub Hs)
      as [(l1 & b & l2 & Hl & Hb & _ & ->)|[_ ->]]; [|exact H].
    assert (C1 : forall i, (copies i (set_list from (l1 ++ l2) ub)
                            + (if strict_eq (id b) i then 1 else 0) = copies i ub)%nat).
    { intros i. pose proof (copies_set i from (l1 ++ l2) ub) as C.
      rewrite Hl, !occurrences_app, occurrences_cons in C. lia. }
    destruct (has_id _ _) eqn:E; cbn [snd].
    + intros i. specialize (C1 i). specialize (H i). lia.
    + intros i.
      pose proof (copies_set i to
        (get_list to (set_list from (l1 ++ l2) ub) ++ [b])
        (set_list from (l1 ++ l2) ub)) as C.
      rewrite occurrences_snoc in C. specialize (C1 i). specialize (H i).
      destruct (strict_eq (id b) i) eqn:F; [|lia].
      apply strict_eq_iff in F. rewrite Hb in F. subst i.
      apply has_id_false_In, occurrences_zero in E. lia.
  - rewrite locate_inherited by assumption. exact H.
  - destruct Hcall as [Hcall|Hcall]; [congruence|].
    destruct (locate_cache lsr rc bookId fromListName ub Hs)
      as [(b & Hb & _ & ->)|(_ & _ & ->)]; [|exact H].
    destruct (has_id _ _) eqn:E; cbn [snd]; [exact H|].
    apply copies_zero in Hcall.
    intros i. pose proof (copies_set i to (get_list to ub ++ [b]) ub) as C.
    rewrite occurrences_snoc in C. specialize (H i).
    destruct (strict_eq (id b) i) eqn:F; [|lia].
    apply strict_eq_iff in F. rewrite Hb in F. subst i. lia.
Qed.

(** C1 at the input on which it fails.  With [B1] in [wantToRead] and in
    the search results, moving [B1] to [readBooks] without naming a source
    list returns [true] and leaves [B1] in both lists: a state of the list
    manager in which an id appears in two lists. *)
Theorem move_without_source_enters_second_list :
  let r := moveBookToList [Samples.B1] [] "B1" None "readBooks" Samples.wants_B1 in
  reachable Samples.wants_B1 /\
  exclusive Samples.wants_B1 /\
  reachable (snd r) /\
  fst r = Returns true /\
  lists_with (Some "B1") (snd r) = [WantToRead; ReadBooks] /\
  ~ exclusive (snd r).
Proof.
  cbv zeta. split; [exact reachable_wants_B1|]. split.
  { apply single_exclusive.
    exact (add_keeps_single Samples.B1 "wantToRead" emptyBooks single_empty). }
  split.
  { exact (reach_move [Samples.B1] [] "B1" None "readBooks" reachable_wants_B1). }
  split; [reflexivity|]. split; [reflexivity|].
  intros H. specialize (H (Some "B1")).
  change (2 <= 1)%nat in H. lia.
Qed.

(** ** Cover URLs *)

Lemma last_of_snoc p ids i :
  last_of p (ids ++ [i]) = if p i then Some i else last_of p ids.
Proof. unfold last_of. now rewrite rev_app_distr. Qed.

Lemma startsWith_OCLC s : startsWith s "OCLC" = begins_with_OCLC s.
Proof.
  unfold startsWith.
  destruct s as [|c1 s]; [reflexivity|]. cbn [String.prefix].
  destruct (ascii_dec "O" c1) as [<-|N1];
    [|destruct c1 as [[] [] [] [] [] [] [] []]; try reflexivity; congruence].
  destruct s as [|c2 s]; [reflexivity|]. cbn [String.prefix].
  destruct (ascii_dec "C" c2) as [<-|N2];
    [|destruct c2 as [[] [] [] [] [] [] [] []]; try reflexivity; congruence].
  destruct s as [|c3 s]; [reflexivity|]. cbn [String.prefix].
  destruct (ascii_dec "L" c3) as [<-|N3];
    [|destruct c3 as [[] [] [] [] [] [] [] []]; try reflexivity; congruence].
  destruct s as [|c4 s]; [reflexivity|]. cbn [String.prefix].
  destruct (ascii_dec "C" c4) as [<-|N4];
    [|destruct c4 as [[] [] [] [] [] [] [] []]; try reflexivity; congruence].
  now destruct s.
Qed.

Lemma usable_truthy v : (if truthy v then v else None) = usable v.
Proof. destruct v as [s|]; [|reflexivity]. simpl. now destruct (s =? ""). Qed.

Lemma cover_loop ids :
  fold_left cover_step ids {| isbn13 := None; isbn10 := None; oclc := None |} =
  {| isbn13 := match last_of (is_type "ISBN_13") ids with
               | Some i => identifier i
               | None => None
               end;
     isbn10 := match last_of (is_type "ISBN_10") ids with
               | Some i => identifier i
               | None => None
               end;
     oclc := match last_of is_oclc ids with
             | Some i => option_map (remove_first "OCLC:") (identifier i)
             | None => None
             end |}.
Proof.
  induction ids as [|i ids IH] using rev_ind; [reflexivity|].
  rewrite fold_left_app, IH, !last_of_snoc. cbn [fold_left].
  unfold cover_step, is_type, is_oclc. cbn [isbn13 isbn10 oclc].
  destruct (strict_eq (type i) (Some "ISBN_13")) eqn:E13.
  - apply strict_eq_iff in E13. rewrite E13. reflexivity.
  - destruct (strict_eq (type i) (Some "ISBN_10")) eqn:E10.
    + apply strict_eq_iff in E10. rewrite E10. reflexivity.
    + destruct (identifier i) as [s|] eqn:Ei; [|now rewrite andb_false_r].
      rewrite startsWith_OCLC.
      destruct (strict_eq (type i) (Some "OTHER") && begins_with_OCLC s);
        [|reflexivity].
      cbn [option_map]. now rewrite Ei.
Qed.

Lemma prefix_nil s : String.prefix "" s = true.
Proof. now destruct s. Qed.

Lemma prefix_app p s : String.prefix p (p ++ s)%string = true.
Proof.
  induction p as [|c p IH]; [apply prefix_nil|]. simpl.
  destruct (ascii_dec c c); [apply IH | congruence].
Qed.

Lemma prefix_split p : forall s,
  String.prefix p s = true -> s = (p ++ Api.drop (String.length p) s)%string.
Proof.
  induction p as [|c p IH]; intros s H; [reflexivity|].
  destruct s as [|d s]; [discriminate|]. simpl in H.
  destruct (ascii_dec c d) as [<-|]; [|discriminate].
  simpl. f_equal. now apply IH.
Qed.

(** [remove_first] does cut out the first occurrence of the pattern. *)
Lemma remove_first_spec pat s :
  pat <> "" -> first_removed pat s (Api.remove_first pat s).
Proof.
  intros Hp. induction s as [|c s IH].
  - right. destruct pat as [|d pat]; [congruence|]. split; [|reflexivity].
    intros pre post H. destruct pre; discriminate.
  - cbn [Api.remove_first].
    destruct (String.prefix pat (String c s)) eqn:E.
    + left. exists ""%string, (Api.drop (String.length pat) (String c s)).
      split; [exact (prefix_split _ _ E)|]. split; [reflexivity|].
      intros pre' post' _. simpl. lia.
    + assert (N : forall pre post,
                 String c s = (pre ++ pat ++ post)%string ->
                 exists pre', pre = String c pre' /\ s = (pre' ++ pat ++ post)%string).
      { intros pre post H. destruct pre as [|d pre].
        - simpl in H. rewrite H, prefix_app in E. discriminate.
        - injection H as <- H. now exists pre. }
      destruct IH as [(pre & post & Hs & Hr & Hmin)|[Hno Hr]].
      * left. exists (String c pre), post. rewrite Hr, Hs at 1. repeat split.
        intros pre' post' H. destruct (N pre' post' H) as (p & -> & H').
        specialize (Hmin p post' H'). simpl. lia.
      * right. rewrite Hr. split; [|reflexivity].
        intros pre post H. destruct (N pre post H) as (p & _ & H').
        exact (Hno p post H').
Qed.

Lemma append_same_length (a b c d : string) :
  (a ++ b)%string = (c ++ d)%string -> String.length a = String.length c ->
  a = c /\ b = d.
Proof.
  revert c. induction a as [|x a IH]; intros [|y c] H L; try discriminate.
  - now split.
  - simpl in H, L. injection H as <- H. injection L as L.
    destruct (IH c H L) as [-> ->]. now split.
Qed.

Lemma append_cancel (p a b : string) : (p ++ a)%string = (p ++ b)%string -> a = b.
Proof. induction p as [|c p IH]; simpl; [auto|]. intros [= H]. auto. Qed.

(** There is one string only that is [s] without the first occurrence of
    the pattern. *)
Lemma first_removed_unique pat s r1 r2 :
  first_removed pat s r1 -> first_removed pat s r2 -> r1 = r2.
Proof.
  intros [(p1 & q1 & S1 & R1 & M1)|[N1 R1]] [(p2 & q2 & S2 & R2 & M2)|[N2 R2]].
  - pose proof (M1 p2 q2 S2). pose proof (M2 p1 q1 S1).
    rewrite S1 in S2. destruct (append_same_length _ _ _ _ S2) as [<- H']; [lia|].
    apply append_cancel in H'. now subst.
  - exfalso. exact (N2 p1 q1 S1).
  - exfalso. exact (N1 p2 q2 S2).
  - congruence.
Qed.

Lemma expected_cover_unique ids size r1 r2 :
  expected_cover ids size r1 -> expected_cover ids size r2 -> r1 = r2.
Proof.
  unfold expected_cover.
  destruct (isbn13_of ids); [congruence|].
  destruct (isbn10_of ids); [congruence|].
  destruct (last_of is_oclc ids) as [i|]; [|congruence].
  destruct (identifier i) as [s|]; [|congruence].
  intros (v1 & F1 & ->) (v2 & F2 & ->).
  now rewrite (first_removed_unique _ _ _ _ F1 F2).
Qed.

(** C9, as the code has it.  [getOpenLibraryCover] returns nothing when
    the descriptive block is missing or has no array of identifiers; an
    omitted size is [M]; and otherwise the result is the one expected of
    the identifiers, which they determine: the address by the ISBN-13 of
    the block, else by its ISBN-10, else by its OCLC number, else nothing.
    The ISBN of a kind is the value of the last entry of that kind, and
    counts when it is not empty; the OCLC number is the value of the last
    entry of type [OTHER] that starts with [OCLC], without the first
    [OCLC:] in it, and counts when it is not empty. *)
Theorem cover_spec :
  (forall size, getOpenLibraryCover None size = None) /\
  (forall info size,
      industryIdentifiers info = None -> getOpenLibraryCover (Some info) size = None) /\
  (forall volumeInfo,
      getOpenLibraryCover volumeInfo None = getOpenLibraryCover volumeInfo (Some "M")) /\
  (forall info ids size,
      industryIdentifiers info = Some ids ->
      expected_cover ids size (getOpenLibraryCover (Some info) (Some size))) /\
  (forall ids size r1 r2,
      expected_cover ids size r1 -> expected_cover ids size r2 -> r1 = r2).
Proof.
  split; [reflexivity|]. split; [|split; [reflexivity|split]].
  - intros info size H. unfold getOpenLibraryCover. now rewrite H.
  - intros info ids size H. unfold getOpenLibraryCover. rewrite H, cover_loop.
    cbn [isbn13 isbn10 oclc]. rewrite !usable_truthy.
    unfold expected_cover, isbn13_of, isbn10_of.
    destruct (usable (match last_of (is_type "ISBN_13") ids with
                      | Some i => identifier i | None => None end)); [reflexivity|].
    destruct (usable (match last_of (is_type "ISBN_10") ids with
                      | Some i => identifier i | None => None end)); [reflexivity|].
    destruct (last_of is_oclc ids) as [i|]; [|reflexivity].
    destruct (identifier i) as [s|]; [|reflexivity].
    exists (Api.remove_first "OCLC:" s). split.
    + apply remove_first_spec. discriminate.
    + cbn [option_map usable]. now destruct (Api.remove_first "OCLC:" s =? "").
  - exact expected_cover_unique.
Qed.

Lemma length_append (a b : string) :
  String.length (a ++ b)%string = (String.length a + String.length b)%nat.
Proof. induction a as [|c a IH]; simpl; [reflexivity | now rewrite IH]. Qed.

Lemma first_removed_here pat post :
  first_removed pat (pat ++ post)%string post.
Proof.
  left. exists ""%string, post. repeat split. intros pre' post' _. simpl. lia.
Qed.

Lemma cover_spec_witness :
  getOpenLibraryCover
    (Some (Samples.with_identifiers
             [Samples.ident "ISBN_10" "0306406152"; Samples.ident "OTHER" "OCLC:777";
              Samples.ident "ISBN_13" "9780306406157"]))
    (Some "L")
  = Some "https://covers.openlibrary.org/b/isbn/9780306406157-L.jpg" /\
  getOpenLibraryCover
    (Some (Samples.with_identifiers
             [Samples.ident "OTHER" "OCLC:777"; Samples.ident "ISBN_10" "0306406152"]))
    (Some "S")
  = Some "https://covers.openlibrary.org/b/isbn/0306406152-S.jpg" /\
  getOpenLibraryCover
    (Some (Samples.with_identifiers
             [Samples.ident "OTHER" "OCLC:111"; Samples.ident "OTHER" "OCLC:777"])) None
  = Some "https://covers.openlibrary.org/b/oclc/777-M.jpg" /\
  getOpenLibraryCover
    (Some (Samples.with_identifiers [Samples.ident "OTHER" "OCLC12345"])) None
  = Some "https://covers.openlibrary.org/b/oclc/OCLC12345-M.jpg" /\
  getOpenLibraryCover
    (Some (Samples.with_identifiers [Samples.ident "OTHER" "UOM:39015"])) None = None /\
  getOpenLibraryCover
    (Some (Samples.with_identifiers [Samples.ident "OTHER" "OCLC:"])) None = None /\
  getOpenLibraryCover (Some (Samples.with_identifiers [])) None = None.
Proof.
  destruct cover_spec as (_ & _ & M & U & D).
  assert (E : forall ids size r,
             expected_cover ids size r ->
             getOpenLibraryCover (Some (Samples.with_identifiers ids)) (Some size) = r).
  { intros ids size r H.
    exact (D ids size _ _ (U (Samples.with_identifiers ids) ids size eq_refl) H). }
  split; [|split; [|split; [|split; [|split; [|split]]]]]; rewrite ?M; apply E.
  - reflexivity.
  - reflexivity.
  - exists "777"%string. split; [exact (first_removed_here "OCLC:" "777")|reflexivity].
  - exists "OCLC12345"%string. split; [|reflexivity].
    right. split; [|reflexivity]. intros pre post H.
    assert (L : String.length "OCLC12345" = String.length (pre ++ "OCLC:" ++ post)%string)
      by now rewrite <- H.
    do 5 (destruct pre as [|? pre]; [discriminate|]).
    rewrite !length_append in L. simpl in L. lia.
  - reflexivity.
  - exists ""%string. split; [exact (first_removed_here "OCLC:" "")|reflexivity].
  - reflexivity.
Defined.

(** C9 as it is worded fails on a block whose ISBN-13 is followed by an
    ISBN-13 entry without value: the block has a usable ISBN-13, and yet
    the address is made of the ISBN-10. *)
Lemma cover_by_isbn10_despite_isbn13 :
  let ids := [Samples.ident "ISBN_13" "9780306406157"; Samples.ident "ISBN_13" "";
              Samples.ident "ISBN_10" "0306406152"] in
  In (Samples.ident "ISBN_13" "9780306406157") ids /\
  getOpenLibraryCover (Some (Samples.with_identifiers ids)) None
  = Some "https://covers.openlibrary.org/b/isbn/0306406152-M.jpg".
Proof. split; [left; reflexivity | reflexivity]. Qed.

(** ** Preference signals and queries *)

Lemma filter_filter {A} (f g : A -> bool) l :
  filter f (filter g l) = filter (fun y => g y && f y) l.
Proof.
  induction l as [|x l IH]; simpl; [reflexivity|].
  destruct (g x); simpl; [destruct (f x)|]; now rewrite IH.
Qed.

Lemma includes_snoc s x y : includes (s ++ [x]) y = includes s y || (y =? x).
Proof. unfold includes. rewrite existsb_app. simpl. now rewrite orb_false_r. Qed.

(** Adding the elements of [l] to an insertion-ordered set appends the
    new ones, each at its first occurrence. *)
Lemma add_all_distinct l : forall s,
  add_all s l = s ++ filter (fun y => negb (includes s y)) (distinct l).
Proof.
  induction l as [|x l IH]; intros s.
  - simpl. now rewrite app_nil_r.
  - unfold add_all in *. cbn [fold_left distinct filter]. rewrite IH.
    unfold set_add. fold (includes s x).
    destruct (includes s x) eqn:E; cbn [negb].
    + f_equal. rewrite filter_filter. apply filter_ext. intros y.
      destruct (String.eqb_spec y x) as [->|_]; simpl; [now rewrite E | reflexivity].
    + rewrite <- app_assoc. cbn [app]. do 2 f_equal.
      rewrite filter_filter. apply filter_ext. intros y.
      rewrite includes_snoc. now destruct (includes s y), (y =? x).
Qed.

Lemma add_all_nil l : add_all [] l = distinct l.
Proof.
  rewrite add_all_distinct. cbn [app].
  induction (distinct l) as [|y d IH]; [reflexivity|].
  cbn [filter]. change (includes [] y) with false. cbn [negb]. now f_equal.
Qed.

Lemma add_all_app s l1 l2 : add_all (add_all s l1) l2 = add_all s (l1 ++ l2).
Proof. unfold add_all. now rewrite fold_left_app. Qed.

Lemma processText_keywords toLowerCase kw text :
  processText toLowerCase kw text = add_all kw (keywords_in toLowerCase text).
Proof.
  unfold processText, keywords_in. destruct text as [t|]; [|reflexivity].
  simpl. now destruct (t =? "").
Qed.

Lemma extract_loop toLowerCase rb : forall s,
  let r := fold_left (extract_step toLowerCase) rb s in
  readGenres r = add_all (readGenres s) (flat_map genres_of rb) /\
  readAuthors r = add_all (readAuthors s) (flat_map authors_of rb) /\
  readKeywords r = add_all (readKeywords s) (flat_map (keywords_of toLowerCase) rb).
Proof.
  induction rb as [|b rb IH]; intros s; [now simpl|].
  cbn [fold_left flat_map]. cbv zeta in *.
  destruct (IH (extract_step toLowerCase s b)) as (G & A & K). rewrite G, A, K.
  unfold extract_step. cbn [readGenres readAuthors readKeywords].
  rewrite !processText_keywords.
  unfold genres_of at 2, authors_of at 2, keywords_of at 2, info_or_empty.
  destruct (volumeInfo b) as [info|]; cbn [categories authors title description emptyInfo].
  - destruct (categories info), (authors info); cbn [app];
      repeat split; rewrite <- ?add_all_app; reflexivity.
  - repeat split.
Qed.

Lemma extractSignals_distinct toLowerCase rb :
  readGenres (extractSignals toLowerCase rb) = distinct (flat_map genres_of rb) /\
  readAuthors (extractSignals toLowerCase rb) = distinct (flat_map authors_of rb) /\
  readKeywords (extractSignals toLowerCase rb)
  = distinct (flat_map (keywords_of toLowerCase) rb).
Proof.
  unfold extractSignals.
  destruct (extract_loop toLowerCase rb
              {| readGenres := []; readAuthors := []; readKeywords := [] |})
    as (G & A & K).
  rewrite G, A, K. cbn [readGenres readAuthors readKeywords].
  now rewrite !add_all_nil.
Qed.

(** C7.  Whatever function of the language lower-cases a text, for every
    reading history the queries handed to the catalog are:
    [subject:<genre>] for each of the first three distinct genres,
    [inauthor:<author>] for each of the first two distinct authors, and one
    query made of the first three distinct keywords separated by spaces;
    when the history yields no genre, no author and no keyword, as the
    empty history does, the only query is [bestsellers fiction]. *)
Theorem queries_spec toLowerCase ub :
  queries toLowerCase ub = expected_queries toLowerCase (Data.readBooks ub) /\
  (Data.readBooks ub = [] -> queries toLowerCase ub = ["bestsellers fiction"]).
Proof.
  assert (Q : queries toLowerCase ub = expected_queries toLowerCase (Data.readBooks ub)).
  { unfold queries, buildQueries, expected_queries, join.
    destruct (extractSignals_distinct toLowerCase (Data.readBooks ub)) as (G & A & K).
    rewrite G, A, K.
    destruct (distinct (flat_map genres_of (Data.readBooks ub))) as [|g1 [|g2 [|g3 gs]]];
    destruct (distinct (flat_map authors_of (Data.readBooks ub))) as [|a1 [|a2 au]];
    destruct (distinct (flat_map (keywords_of toLowerCase) (Data.readBooks ub))) as [|k1 ks];
    reflexivity. }
  split; [exact Q|]. intros E. rewrite Q, E. reflexivity.
Qed.

Lemma queries_spec_witness :
  queries Samples.lower_ascii emptyBooks = ["bestsellers fiction"] /\
  queries Samples.lower_ascii Samples.history =
    ["subject:G1"; "subject:G2"; "inauthor:A1"; "inauthor:A2"; "dragons dancing wolves"].
Proof.
  split.
  - exact (proj2 (queries_spec Samples.lower_ascii emptyBooks) eq_refl).
  - rewrite (proj1 (queries_spec Samples.lower_ascii Samples.history)). reflexivity.
Defined.

(** ** The ids of the owned books *)

Lemma in_set_add_fold (l : list (option string)) : forall s x,
  In x (fold_left (set_add strict_eq) l s) <-> In x s \/ In x l.
Proof.
  induction l as [|y l IH]; intros s x; cbn [fold_left].
  - simpl. tauto.
  - rewrite IH. unfold set_add. destruct (existsb (strict_eq y) s) eqn:E.
    + apply existsb_exists in E as (z & Hz & E). apply strict_eq_iff in E. subst z.
      simpl. split; [tauto|]. intros [H|[<-|H]]; tauto.
    + rewrite in_app_iff. simpl. tauto.
Qed.

Lemma fold_ids (l : list Book) : forall s,
  fold_left (fun s book => set_add strict_eq s (id book)) l s
  = fold_left (set_add strict_eq) (map id l) s.
Proof. induction l as [|b l IH]; intros s; simpl; auto. Qed.

Lemma in_getAllUserBookIds i ub : In i (getAllUserBookIds ub) <-> owned i ub.
Proof.
  unfold getAllUserBookIds, values. cbn [fold_left].
  rewrite !fold_ids, !in_set_add_fold. unfold owned. split.
  - intros [[[[]|H]|H]|H];
      [exists CurrentlyReading | exists WantToRead | exists ReadBooks]; exact H.
  - intros [[] H]; simpl in H; tauto.
Qed.

(** ** The recommendation filter *)

Lemma seen_has_id i (l : list Book) : existsb (strict_eq i) (map id l) = has_id i l.
Proof.
  unfold has_id. induction l as [|b l IH]; simpl; [reflexivity|].
  now rewrite IH, (strict_eq_sym i (id b)).
Qed.

Lemma filter_step_cases userBookIds st b :
  seenBookIds st = map id (uniqueBooks st) ->
  filter_step userBookIds st b =
  if eligible userBookIds b && negb (has_id (id b) (uniqueBooks st))
  then {| uniqueBooks := uniqueBooks st ++ [b];
          seenBookIds := map id (uniqueBooks st ++ [b]) |}
  else st.
Proof.
  intros Hs. unfold filter_step, eligible, has_info, has_thumbnail.
  rewrite Hs, seen_has_id.
  destruct (volumeInfo b) as [info|]; [|now rewrite andb_false_r].
  destruct (truthy (id b)); cbn [andb]; [|reflexivity].
  destruct (has_id (id b) (uniqueBooks st)) eqn:E; cbn [andb negb].
  - now rewrite andb_false_r.
  - destruct (existsb (strict_eq (id b)) userBookIds); cbn [andb negb]; [reflexivity|].
    destruct (has_cover info); [|reflexivity].
    unfold set_add. rewrite seen_has_id, E, map_app. reflexivity.
Qed.

Lemma filter_step_seen userBookIds st b :
  seenBookIds st = map id (uniqueBooks st) ->
  seenBookIds (filter_step userBookIds st b)
  = map id (uniqueBooks (filter_step userBookIds st b)).
Proof.
  intros Hs. rewrite (filter_step_cases userBookIds st b Hs).
  now destruct (_ && _).
Qed.

Lemma filter_loop_seen userBookIds l : forall st,
  seenBookIds st = map id (uniqueBooks st) ->
  seenBookIds (fold_left (filter_step userBookIds) l st)
  = map id (uniqueBooks (fold_left (filter_step userBookIds) l st)).
Proof.
  induction l as [|b l IH]; intros st Hs; [exact Hs|].
  cbn [fold_left]. apply IH. now apply filter_step_seen.
Qed.

Lemma filter_loop_first userBookIds l : forall st,
  seenBookIds st = map id (uniqueBooks st) ->
  uniqueBooks (fold_left (filter_step userBookIds) l st)
  = uniqueBooks st
    ++ filter (fun x => negb (has_id (id x) (uniqueBooks st)))
         (first_of_each_id (filter (eligible userBookIds) l)).
Proof.
  induction l as [|b l IH]; intros st Hs.
  - simpl. now rewrite app_nil_r.
  - cbn [fold_left]. rewrite IH by now apply filter_step_seen.
    rewrite (filter_step_cases userBookIds st b Hs). cbn [filter].
    destruct (eligible userBookIds b) eqn:El; cbn [andb]; [|reflexivity].
    cbn [first_of_each_id filter].
    destruct (has_id (id b) (uniqueBooks st)) eqn:E; cbn [negb uniqueBooks].
    + f_equal. rewrite filter_filter. apply filter_ext. intros x.
      destruct (strict_eq (id x) (id b)) eqn:F; cbn [negb andb]; [|reflexivity].
      apply strict_eq_iff in F. now rewrite F, E.
    + rewrite <- app_assoc. cbn [app]. do 2 f_equal.
      rewrite filter_filter. apply filter_ext. intros x.
      rewrite has_id_app. unfold has_id at 2. cbn [existsb].
      rewrite orb_false_r, (strict_eq_sym (id b) (id x)).
      now destruct (has_id (id x) (uniqueBooks st)), (strict_eq (id x) (id b)).
Qed.

Lemma filterBooks_first userBookIds l :
  filterBooks userBookIds l = first_of_each_id (filter (eligible userBookIds) l).
Proof.
  unfold filterBooks. rewrite filter_loop_first by reflexivity. cbn [uniqueBooks app].
  induction (first_of_each_id _) as [|x d IH]; [reflexivity|].
  cbn [filter has_id existsb negb]. now f_equal.
Qed.

Lemma filterBooks_snoc userBookIds pre b :
  filterBooks userBookIds (pre ++ [b])
  = filterBooks userBookIds pre ++ (if kept_after userBookIds pre b then [b] else []).
Proof.
  unfold kept_after, filterBooks. rewrite fold_left_app. cbn [fold_left].
  rewrite filter_step_cases by now apply filter_loop_seen.
  destruct (_ && _); cbn [uniqueBooks]; [reflexivity | now rewrite app_nil_r].
Qed.

Lemma first_of_each_id_incl l x : In x (first_of_each_id l) -> In x l.
Proof.
  induction l as [|b l IH]; simpl; [tauto|].
  rewrite filter_In. tauto.
Qed.

Lemma NoDup_ids_filter (p : Book -> bool) l :
  NoDup (map id l) -> NoDup (map id (filter p l)).
Proof.
  induction l as [|b l IH]; simpl; intros H; [constructor|].
  inversion H as [|? ? Hn Hd]; subst.
  destruct (p b); simpl; [|auto].
  constructor; [|auto]. intros Hin. apply Hn.
  apply in_map_iff in Hin as (x & Hx & Hin). apply filter_In in Hin as [Hin _].
  apply in_map_iff. now exists x.
Qed.

Lemma first_of_each_id_NoDup l : NoDup (map id (first_of_each_id l)).
Proof.
  induction l as [|b l IH]; simpl; constructor.
  - intros Hin. apply in_map_iff in Hin as (x & Hx & Hin).
    apply filter_In in Hin as [_ Hne]. apply negb_true_iff, strict_eq_false_iff in Hne.
    congruence.
  - now apply NoDup_ids_filter.
Qed.

(** C5, as the code has it.  In the filtering pass an entry is kept if and
    only if it has an id that is not empty, a descriptive block, an id that
    no entry kept earlier in the pass has, an id that is not among the
    owned ids, and a thumbnail, full-size or small.  So the pass keeps, for
    each id, the first of the entries with that id that meet the other
    conditions, no id is kept twice, and no book that is in one of the
    lists is kept. *)
Theorem filter_spec userBookIds :
  (forall pre b,
      filterBooks userBookIds (pre ++ [b])
      = filterBooks userBookIds pre ++ (if kept_after userBookIds pre b then [b] else [])) /\
  (forall pre b,
      kept_after userBookIds pre b = true <->
      truthy (id b) = true /\ has_info b = true /\
      ~ In (id b) (map id (filterBooks userBookIds pre)) /\
      ~ In (id b) userBookIds /\
      has_thumbnail b = true) /\
  (forall l,
      filterBooks userBookIds l = first_of_each_id (filter (eligible userBookIds) l)) /\
  (forall l, NoDup (map id (filterBooks userBookIds l))) /\
  (forall ub l b,
      userBookIds = getAllUserBookIds ub ->
      In b (filterBooks userBookIds l) -> ~ owned (id b) ub).
Proof.
  assert (O : forall b, existsb (strict_eq (id b)) userBookIds = false
                        <-> ~ In (id b) userBookIds).
  { intros b. rewrite <- not_true_iff_false, existsb_exists. split.
    - intros H Hin. apply H. exists (id b). split; [exact Hin | apply strict_eq_refl].
    - intros H (x & Hx & E). apply strict_eq_iff in E. congruence. }
  split; [exact (filterBooks_snoc userBookIds)|]. split.
  { intros pre b. unfold kept_after, eligible.
    rewrite !andb_true_iff, !negb_true_iff, has_id_false_In, O. tauto. }
  split; [exact (filterBooks_first userBookIds)|]. split.
  { intros l. rewrite filterBooks_first. apply first_of_each_id_NoDup. }
  intros ub l b -> Hin Ho. rewrite filterBooks_first in Hin.
  apply first_of_each_id_incl, filter_In in Hin as [_ El].
  unfold eligible in El. rewrite !andb_true_iff, negb_true_iff in El.
  destruct El as [[[_ _] El] _]. apply O in El. apply El.
  now apply in_getAllUserBookIds.
Qed.

Lemma filter_spec_witness :
  filterBooks (getAllUserBookIds Samples.wants_B1)
    [Samples.X_bare; Samples.X_covered; Samples.B1_covered; Samples.Y_covered;
     Samples.X_covered]
  = [Samples.X_covered; Samples.Y_covered] /\
  ~ owned (id Samples.Y_covered) Samples.wants_B1 /\
  filterBooks (getAllUserBookIds Samples.wants_B1)
    [Samples.small_only; Samples.anonymous; Samples.X_bare]
  = [Samples.small_only].
Proof.
  destruct (filter_spec (getAllUserBookIds Samples.wants_B1)) as (_ & _ & F & _ & E).
  split; [|split].
  - rewrite F. reflexivity.
  - apply (E Samples.wants_B1 [Samples.Y_covered] Samples.Y_covered eq_refl).
    left. reflexivity.
  - rewrite F. reflexivity.
Defined.

(** C5 as it is worded fails on two catalog records with the same id of
    which only the second has a cover: the id of the second has been met
    earlier in the pass, and the second is the one that is kept. *)
Lemma filter_keeps_later_entry_of_seen_id :
  has_id (id Samples.X_covered) [Samples.X_bare] = true /\
  kept_if_unseen [] [Samples.X_bare] Samples.X_covered = false /\
  filterBooks [] ([Samples.X_bare] ++ [Samples.X_covered]) = [Samples.X_covered].
Proof. repeat split. Qed.


(** ** Ranking *)

Lemma rating_stated b : rating b = stated_rating b.
Proof. unfold rating, stated_rating, info_or_empty. now destruct (volumeInfo b). Qed.

Lemma count_stated b : count b = stated_count b.
Proof. unfold count, stated_count, info_or_empty. now destruct (volumeInfo b). Qed.

Lemma compareFn_le a b :
  Qle_bool (compareFn a b) 0 = true <-> ranks_no_later a b.
Proof.
  unfold compareFn, ranks_no_later. rewrite !rating_stated, !count_stated, Qle_bool_iff.
  destruct (Qeq_bool (stated_rating b) (stated_rating a)) eqn:E; cbn [negb].
  - apply Qeq_bool_iff in E.
    assert (Hz : (inject_Z (stated_count b - stated_count a) <= 0)%Q
                 <-> (stated_count b - stated_count a <= 0)%Z)
      by (change 0%Q with (inject_Z 0); rewrite <- Zle_Qle; tauto).
    rewrite Hz. split.
    + intros H. right. split; [now symmetry | lia].
    + intros [H|[_ H]]; [lra | lia].
  - apply Qeq_bool_neq in E. split.
    + intros H. left. lra.
    + intros [H|[H _]]; [lra|]. exfalso. apply E. now symmetry.
Qed.

Lemma ranks_total a b : ranks_no_later a b \/ ranks_no_later b a.
Proof.
  unfold ranks_no_later.
  destruct (Q_dec (stated_rating a) (stated_rating b)) as [[H|H]|H]; [tauto | tauto |].
  destruct (Z_le_gt_dec (stated_count a) (stated_count b)).
  - right. right. split; [now symmetry | assumption].
  - left. right. split; [assumption | lia].
Qed.

Lemma ranks_trans a b c :
  ranks_no_later a b -> ranks_no_later b c -> ranks_no_later a c.
Proof.
  unfold ranks_no_later. intros [H1|[H1 H1']] [H2|[H2 H2']].
  - left. lra.
  - left. lra.
  - left. lra.
  - right. split; [lra | lia].
Qed.

Lemma tied_iff a b : tied a b = true <-> ranks_no_later a b /\ ranks_no_later b a.
Proof.
  unfold tied, ranks_no_later. rewrite andb_true_iff, Qeq_bool_iff, Z.eqb_eq. split.
  - intros [H1 H2]. split; right; split; try lra; lia.
  - intros [[H1|[H1 H1']] [H2|[H2 H2']]]; try lra. split; [assumption | lia].
Qed.

Lemma tied_trans3 b x y : tied b x = true -> tied b y = true -> tied x y = true.
Proof.
  unfold tied. rewrite !andb_true_iff, !Qeq_bool_iff, !Z.eqb_eq.
  intros [H1 H2] [H3 H4]. split; [lra | lia].
Qed.

Lemma insert_perm x l : Permutation (insert x l) (x :: l).
Proof.
  induction l as [|y l IH]; simpl; [reflexivity|].
  destruct (Qle_bool (compareFn x y) 0); [reflexivity|].
  rewrite IH. apply perm_swap.
Qed.

Lemma sort_perm l : Permutation (sort l) l.
Proof.
  induction l as [|x l IH]; simpl; [constructor|].
  rewrite insert_perm. now constructor.
Qed.

Lemma insert_sorted x l :
  StronglySorted ranks_no_later l -> StronglySorted ranks_no_later (insert x l).
Proof.
  induction 1 as [|y l Hs IH Hy]; simpl.
  - constructor; constructor.
  - destruct (Qle_bool (compareFn x y) 0) eqn:E.
    + apply compareFn_le in E. constructor; [now constructor|].
      constructor; [assumption|].
      apply Forall_impl with (2 := Hy). intros z. now apply ranks_trans.
    + assert (R : ranks_no_later y x).
      { destruct (ranks_total x y) as [H|H]; [|assumption].
        apply compareFn_le in H. congruence. }
      constructor; [assumption|].
      apply Forall_forall. intros z Hz.
      apply (Permutation_in _ (insert_perm x l)) in Hz.
      destruct Hz as [<-|Hz]; [assumption|].
      rewrite Forall_forall in Hy. now apply Hy.
Qed.

Lemma sort_sorted l : StronglySorted ranks_no_later (sort l).
Proof.
  induction l as [|x l IH]; simpl; [constructor | now apply insert_sorted].
Qed.

Lemma insert_keeps_ties b x l :
  filter (tied b) (insert x l) = filter (tied b) (x :: l).
Proof.
  induction l as [|y l IH]; [reflexivity|]. cbn [insert].
  destruct (Qle_bool (compareFn x y) 0) eqn:E; [reflexivity|].
  cbn [filter] in *. rewrite IH.
  destruct (tied b y) eqn:Ty; [|reflexivity].
  destruct (tied b x) eqn:Tx; [|reflexivity].
  pose proof (tied_trans3 b x y Tx Ty) as T. apply tied_iff in T as [T _].
  apply compareFn_le in T. congruence.
Qed.

Lemma sort_keeps_ties l : keeps_ties l (sort l).
Proof.
  intros b. induction l as [|x l IH]; [reflexivity|].
  cbn [sort]. rewrite insert_keeps_ties. cbn [filter]. now rewrite IH.
Qed.

(** The order computed by [sort] is the only one that is ranked and keeps
    the ties in their order. *)
Lemma ranked_unique l1 : forall l2,
  StronglySorted ranks_no_later l1 -> StronglySorted ranks_no_later l2 ->
  (forall b, filter (tied b) l1 = filter (tied b) l2) ->
  l1 = l2.
Proof.
  assert (Trefl : forall a, tied a a = true).
  { intros a. apply tied_iff. destruct (ranks_total a a); tauto. }
  induction l1 as [|a l1 IH]; intros l2 S1 S2 F.
  - destruct l2 as [|b l2]; [reflexivity|].
    specialize (F b). cbn [filter] in F. now rewrite Trefl in F.
  - destruct l2 as [|b l2].
    { specialize (F a). cbn [filter] in F. now rewrite Trefl in F. }
    inversion S1 as [|? ? S1' Ha]; subst. inversion S2 as [|? ? S2' Hb]; subst.
    rewrite Forall_forall in Ha, Hb.
    assert (Tab : tied a b = true).
    { destruct (tied a b) eqn:Tab; [reflexivity|]. exfalso.
      assert (In a l2).
      { pose proof (F a) as Fa. cbn [filter] in Fa. rewrite Trefl, Tab in Fa.
        assert (Hin : In a (filter (tied a) l2)) by (rewrite <- Fa; now left).
        now apply filter_In in Hin. }
      assert (In b l1).
      { pose proof (F b) as Fb. cbn [filter] in Fb. rewrite Trefl in Fb.
        destruct (tied b a) eqn:Tba.
        - apply tied_iff in Tba. assert (tied a b = true) by (apply tied_iff; tauto).
          congruence.
        - assert (Hin : In b (filter (tied b) l1)) by (rewrite Fb; now left).
          now apply filter_In in Hin. }
      assert (tied a b = true) by (apply tied_iff; auto). congruence. }
    assert (a = b).
    { pose proof (F a) as Fa. cbn [filter] in Fa. rewrite Trefl, Tab in Fa. congruence. }
    subst b. f_equal. apply IH; auto.
    intros c. specialize (F c). cbn [filter] in F. destruct (tied c a); congruence.
Qed.

Lemma sort_unique l l' :
  StronglySorted ranks_no_later l' -> keeps_ties l l' -> l' = sort l.
Proof.
  intros S K. apply ranked_unique; [assumption | apply sort_sorted |].
  intros b. rewrite K. symmetry. apply sort_keeps_ties.
Qed.

(** Every book that passes the filter has a descriptive block, so the
    comparison function never reads a field of a missing block. *)
Lemma filtered_have_info userBookIds l b :
  In b (filterBooks userBookIds l) -> has_info b = true.
Proof.
  rewrite filterBooks_first. intros Hin.
  apply first_of_each_id_incl, filter_In in Hin as [_ El].
  unfold eligible in El. rewrite !andb_true_iff in El. tauto.
Qed.

Lemma rank_length l : List.length (rank l) = Nat.min 10 (List.length l).
Proof.
  unfold rank. now rewrite length_firstn, (Permutation_length (sort_perm l)).
Qed.

(** C6.  The ranked list is the first ten entries of the one arrangement
    of the filtered books that is in descending order of rating (0 when
    missing), then of number of ratings (0 when missing), and leaves the
    books that agree on both in the order they had.  Books rated 4.5 by
    100, 4.5 by 50 and 5.0 by 10 come out as 5.0/10, 4.5/100, 4.5/50, in
    whatever order they went in; books that agree on both stay as they
    were; a missing number counts as 0; of eleven books the ten best are
    left. *)
Theorem rank_spec l :
  (exists ranked,
      Permutation ranked l /\ StronglySorted ranks_no_later ranked /\
      keeps_ties l ranked /\ rank l = firstn 10 ranked) /\
  (forall ranked ranked',
      StronglySorted ranks_no_later ranked -> keeps_ties l ranked ->
      StronglySorted ranks_no_later ranked' -> keeps_ties l ranked' ->
      ranked = ranked') /\
  List.length (rank l) = Nat.min 10 (List.length l) /\
  rank [Samples.R1; Samples.R2; Samples.R3] = [Samples.R3; Samples.R1; Samples.R2] /\
  rank [Samples.R2; Samples.R1; Samples.R3] = [Samples.R3; Samples.R1; Samples.R2] /\
  rank [Samples.R2; Samples.R3; Samples.R1] = [Samples.R3; Samples.R1; Samples.R2] /\
  rank [Samples.T1; Samples.T2] = [Samples.T1; Samples.T2] /\
  rank [Samples.T2; Samples.T1] = [Samples.T2; Samples.T1] /\
  rank [Samples.unrated; Samples.no_count; Samples.R2; Samples.rated "Z" 0 0]
  = [Samples.R2; Samples.no_count; Samples.unrated; Samples.rated "Z" 0 0] /\
  rank Samples.eleven = rev (skipn 1 Samples.eleven).
Proof.
  split.
  { exists (sort l). split; [apply sort_perm|]. split; [apply sort_sorted|].
    split; [apply sort_keeps_ties | reflexivity]. }
  split.
  { intros r1 r2 S1 K1 S2 K2.
    now rewrite (sort_unique l r1 S1 K1), (sort_unique l r2 S2 K2). }
  split; [apply rank_length|].
  repeat (split; [vm_compute; reflexivity|]). vm_compute. reflexivity.
Qed.

Lemma rank_spec_witness :
  StronglySorted ranks_no_later [Samples.R3; Samples.R1; Samples.R2] /\
  keeps_ties [Samples.R2; Samples.R1; Samples.R3] [Samples.R3; Samples.R1; Samples.R2] /\
  rank [Samples.R2; Samples.R1; Samples.R3]
  = firstn 10 [Samples.R3; Samples.R1; Samples.R2].
Proof.
  assert (S : StronglySorted ranks_no_later [Samples.R3; Samples.R1; Samples.R2]).
  { repeat first [apply SSorted_cons | apply SSorted_nil | apply Forall_cons
                 | apply Forall_nil].
    - right. split; [reflexivity | vm_compute; discriminate].
    - left. reflexivity.
    - left. reflexivity. }
  assert (K : keeps_ties [Samples.R2; Samples.R1; Samples.R3]
                [Samples.R3; Samples.R1; Samples.R2]).
  { intros b. cbn [filter].
    destruct (tied b Samples.R1) eqn:T1, (tied b Samples.R2) eqn:T2,
      (tied b Samples.R3) eqn:T3; try reflexivity; exfalso;
      first [pose proof (tied_trans3 _ _ _ T1 T2) as C
            | pose proof (tied_trans3 _ _ _ T1 T3) as C
            | pose proof (tied_trans3 _ _ _ T2 T3) as C];
      vm_compute in C; discriminate. }
  split; [exact S|]. split; [exact K|].
  destruct (rank_spec [Samples.R2; Samples.R1; Samples.R3])
    as ((ranked & _ & S' & K' & E) & U & _).
  rewrite E. f_equal. exact (U ranked _ S' K' S K).
Defined.

(** ** Fan-out and commit *)

Lemma promise_all_catch catalog qs :
  promise_all (map (fun q => catch (fetchBooks catalog q) []) qs)
  = Fulfilled (map (results_of catalog) qs).
Proof.
  induction qs as [|q qs IH]; [reflexivity|].
  cbn [map promise_all]. rewrite IH. unfold results_of, catch.
  now destruct (fetchBooks catalog q).
Qed.

Lemma merged_flat toLowerCase catalog ub :
  merged toLowerCase catalog ub
  = Fulfilled (flat_map (results_of catalog) (queries toLowerCase ub)).
Proof.
  unfold merged, searchPromises. rewrite promise_all_catch.
  now rewrite flat_map_concat_map.
Qed.

Lemma results_of_emptied catalog q : results_of (emptied catalog) q = results_of catalog q.
Proof.
  unfold results_of, emptied, fetchBooks. destruct (negb (truthy (Some q))); reflexivity.
Qed.

(** C8.  Whatever function of the language lower-cases a text, a query
    that fails contributes an empty result to the merge and the run goes
    on: the merge is the concatenation, in query order, of the results of
    the queries that succeeded, the run ends by committing its list to the
    cache, and nothing changes if each failure is replaced by an empty
    answer.  When every query fails the merge is empty and the empty
    list is committed. *)
Theorem fan_out_absorbs_failures toLowerCase catalog ub cache :
  merged toLowerCase catalog ub
  = Fulfilled (flat_map (results_of catalog) (queries toLowerCase ub)) /\
  fst (generateRecommendations toLowerCase catalog ub cache) = Committed /\
  generateRecommendations toLowerCase catalog ub cache
  = generateRecommendations toLowerCase (emptied catalog) ub cache /\
  ((forall q, catalog q = Rejected) ->
   merged toLowerCase catalog ub = Fulfilled [] /\
   generateRecommendations toLowerCase catalog ub cache = (Committed, [])).
Proof.
  split; [apply merged_flat|]. split.
  { unfold generateRecommendations. now rewrite merged_flat. }
  split.
  { unfold generateRecommendations. rewrite !merged_flat.
    rewrite (flat_map_ext _ _ (results_of_emptied catalog)). reflexivity. }
  intros Hdown.
  assert (E : flat_map (results_of catalog) (queries toLowerCase ub) = []).
  { induction (queries toLowerCase ub) as [|q qs IH]; [reflexivity|].
    cbn [flat_map]. rewrite IH. unfold results_of, fetchBooks.
    rewrite Hdown. now destruct (negb (truthy (Some q))). }
  unfold generateRecommendations. rewrite merged_flat, E. split; reflexivity.
Qed.

Lemma fan_out_absorbs_failures_witness :
  generateRecommendations Samples.lower_ascii Samples.down Samples.history [Samples.B1]
  = (Committed, []) /\
  generateRecommendations Samples.lower_ascii Samples.authors_only Samples.history [Samples.B1]
  = (Committed, [Samples.Y_covered]).
Proof.
  split.
  - apply (fan_out_absorbs_failures Samples.lower_ascii Samples.down Samples.history [Samples.B1]).
    reflexivity.
  - destruct (fan_out_absorbs_failures Samples.lower_ascii Samples.authors_only
                Samples.history [Samples.B1])
      as (_ & _ & -> & _).
    reflexivity.
Defined.


(** * Further properties of the list manager *)

Lemma source_property_name k : source_property (Some (name_of_key k)) = OwnList k.
Proof. now destruct k. Qed.

(** X1.  A call that returns [false] has changed none of the three lists,
    and neither has a call of [addBookToList] or [removeBookFromList] that
    throws.  A call of [moveBookToList] that throws can have changed them:
    with [constructor] as target, the book has left its source list when
    the exception is raised. *)
Theorem failed_call_changes_nothing :
  (forall book listName ub answer ub',
      addBookToList book listName ub = (answer, ub') ->
      answer <> Returns true -> ub' = ub) /\
  (forall bookId listName ub answer ub',
      removeBookFromList bookId listName ub = (answer, ub') ->
      answer <> Returns true -> ub' = ub) /\
  (forall lsr rc bookId fromListName toListName ub ub',
      moveBookToList lsr rc bookId fromListName toListName ub = (Returns false, ub') ->
      ub' = ub) /\
  moveBookToList [] [] "B1" (Some "wantToRead") "constructor" Samples.wants_B1
  = (Throws, emptyBooks).
Proof.
  split; [|split; [|split; [|reflexivity]]].
  - intros book listName ub answer ub'. rewrite add_cases.
    destruct (key_of_name listName); destruct (_ && _); congruence.
  - intros bookId listName ub answer ub'. rewrite remove_cases.
    destruct (key_of_name listName); destruct (_ && _); congruence.
  - intros lsr rc bookId fromListName toListName ub ub'.
    destruct (truthy (Some bookId)) eqn:Ht;
      [|rewrite move_rejected by auto; congruence].
    pose proof (locate_shrinks lsr rc bookId fromListName ub) as L.
    destruct (property toListName) as [to| |] eqn:Hp;
      [| |rewrite move_rejected by auto; congruence].
    + assert (Hk : key_of_name toListName = Some to).
      { unfold property in Hp. destruct (key_of_name toListName);
          [congruence | destruct (inherited toListName); discriminate]. }
      erewrite move_cases by eassumption.
      destruct (locate lsr rc bookId fromListName ub) as [[[b|] ub1]|].
      * destruct (has_id _ _); discriminate.
      * destruct L as (_ & _ & ->). congruence.
      * discriminate.
    + rewrite move_inherited by assumption.
      destruct (locate lsr rc bookId fromListName ub) as [[[b|] ub1]|].
      * discriminate.
      * destruct L as (_ & _ & ->). congruence.
      * discriminate.
Qed.

Lemma failed_call_changes_nothing_witness :
  snd (addBookToList Samples.B1 "readBooks" Samples.wants_B1) = Samples.wants_B1 /\
  snd (addBookToList Samples.B2 "toString" Samples.wants_B1) = Samples.wants_B1 /\
  snd (removeBookFromList "B2" "wantToRead" Samples.wants_B1) = Samples.wants_B1 /\
  snd (removeBookFromList "B1" "constructor" Samples.wants_B1) = Samples.wants_B1 /\
  snd (moveBookToList [] [] "B1" (Some "readBooks") "wantToRead" Samples.wants_B1)
  = Samples.wants_B1.
Proof.
  destruct failed_call_changes_nothing as (A & R & M & _).
  split; [|split; [|split; [|split]]].
  - apply (A Samples.B1 "readBooks" Samples.wants_B1 (Returns false) _ eq_refl).
    discriminate.
  - apply (A Samples.B2 "toString" Samples.wants_B1 Throws _ eq_refl). discriminate.
  - apply (R "B2" "wantToRead" Samples.wants_B1 (Returns false) _ eq_refl). discriminate.
  - apply (R "B1" "constructor" Samples.wants_B1 Throws _ eq_refl). discriminate.
  - exact (M [] [] "B1" (Some "readBooks") "wantToRead" Samples.wants_B1 _ eq_refl).
Defined.

Lemma others_app i l1 l2 : others i (l1 ++ l2) = others i l1 ++ others i l2.
Proof. apply filter_app. Qed.

Lemma others_skip i b : id b = i -> others i [b] = [].
Proof. intros <-. unfold others. simpl. now rewrite strict_eq_refl. Qed.

Lemma locate_others lsr rc bookId fromListName ub :
  match locate lsr rc bookId fromListName ub with
  | Some (_, ub1) =>
      forall k, others (Some bookId) (get_list k ub1) = others (Some bookId) (get_list k ub)
  | None => True
  end.
Proof.
  destruct (source_property fromListName) as [from| |] eqn:Hs.
  - destruct (locate_from lsr rc bookId fromListName from ub Hs)
      as [(l1 & b & l2 & Hl & Hb & _ & ->)|[_ ->]]; [|reflexivity].
    intros k. destruct (key_eq_dec k from) as [->|Hne].
    + rewrite get_set_same, Hl, !others_app.
      change (b :: l2) with ([b] ++ l2). now rewrite others_app, others_skip.
    + now rewrite get_set_other.
  - now rewrite locate_inherited.
  - destruct (locate_cache lsr rc bookId fromListName ub Hs)
      as [(b & Hb & _ & ->)|(_ & _ & ->)]; reflexivity.
Qed.

Lemma move_effect lsr rc bookId fromListName toListName ub :
  let r := moveBookToList lsr rc bookId fromListName toListName ub in
  (forall k, others (Some bookId) (get_list k (snd r))
             = others (Some bookId) (get_list k ub)) /\
  (fst r = Returns true ->
   exists to, key_of_name toListName = Some to /\
              In (Some bookId) (map id (get_list to (snd r)))).
Proof.
  cbv zeta.
  destruct (truthy (Some bookId)) eqn:Ht;
    [|rewrite move_rejected by auto; split; [reflexivity | discriminate]].
  pose proof (locate_shrinks lsr rc bookId fromListName ub) as L.
  pose proof (locate_others lsr rc bookId fromListName ub) as Ho.
  destruct (property toListName) as [to| |] eqn:Hp;
    [| |rewrite move_rejected by auto; split; [reflexivity | discriminate]].
  - assert (Hk : key_of_name toListName = Some to).
    { unfold property in Hp. destruct (key_of_name toListName);
        [congruence | destruct (inherited toListName); discriminate]. }
    erewrite move_cases by eassumption.
    destruct (locate lsr rc bookId fromListName ub) as [[[b|] ub1]|]; cbn [fst snd];
      [| split; [exact Ho | discriminate] | split; [reflexivity | discriminate]].
    destruct L as (_ & _ & Hb).
    destruct (has_id (Some bookId) (get_list to ub1)) eqn:E; cbn [fst snd].
    + split; [exact Ho|]. intros _. exists to. split; [exact Hk|].
      now apply has_id_In.
    + split.
      * intros k. destruct (key_eq_dec k to) as [->|Hne].
        -- rewrite get_set_same, others_app, others_skip, app_nil_r by assumption.
           apply Ho.
        -- rewrite get_set_other by assumption. apply Ho.
      * intros _. exists to. split; [exact Hk|].
        rewrite get_set_same, map_app, in_app_iff. right. simpl. now left.
  - rewrite move_inherited by assumption.
    destruct (locate lsr rc bookId fromListName ub) as [[[b|] ub1]|]; cbn [fst snd];
      split; try discriminate; try exact Ho; reflexivity.
Qed.

(** X2.  [moveBookToList] never touches the entries of other books: in each of
    the three lists the entries with another id are the same, in the same
    order, after the call as before; and when the call returns [true] the
    target list holds the id. *)
Theorem move_leaves_other_books lsr rc bookId fromListName toListName ub :
  let r := moveBookToList lsr rc bookId fromListName toListName ub in
  (forall k, others (Some bookId) (get_list k (snd r))
             = others (Some bookId) (get_list k ub)) /\
  (fst r = Returns true ->
   exists to, key_of_name toListName = Some to /\
              In (Some bookId) (map id (get_list to (snd r)))).
Proof. exact (move_effect lsr rc bookId fromListName toListName ub). Qed.

Lemma move_leaves_other_books_witness :
  others (Some "B1")
    (get_list ReadBooks
       (snd (moveBookToList [] [] "B1" (Some "currentlyReading") "readBooks"
               Samples.two_lists)))
  = [Samples.B2] /\
  exists to, key_of_name "readBooks" = Some to /\
    In (Some "B1")
      (map id (get_list to
         (snd (moveBookToList [] [] "B1" (Some "currentlyReading") "readBooks"
                 Samples.two_lists)))).
Proof.
  destruct (move_leaves_other_books [] [] "B1" (Some "currentlyReading") "readBooks"
              Samples.two_lists) as [O S].
  split.
  - rewrite (O ReadBooks). reflexivity.
  - apply S. reflexivity.
Defined.

Lemma find_app_id (i : option string) (l1 l2 : list Book) :
  find (fun x => strict_eq (id x) i) (l1 ++ l2)
  = match find (fun x => strict_eq (id x) i) l1 with
    | Some b => Some b
    | None => find (fun x => strict_eq (id x) i) l2
    end.
Proof.
  induction l1 as [|a l1 IH]; [reflexivity|]. simpl.
  now destruct (strict_eq (id a) i).
Qed.

Lemma move_cached lsr rc bookId fromListName toListName to ub :
  bookId <> "" ->
  key_of_name toListName = Some to ->
  source_property fromListName = Undefined ->
  ~ In (Some bookId) (map id (get_list to ub)) ->
  In (Some bookId) (map id (lsr ++ rc)) ->
  exists b,
    find (fun x => strict_eq (id x) (Some bookId)) (lsr ++ rc) = Some b /\
    id b = Some bookId /\
    moveBookToList lsr rc bookId fromListName toListName ub
    = (Returns true, set_list to (get_list to ub ++ [b]) ub).
Proof.
  intros Hne Hk Hs Habs Hin. apply truthy_Some in Hne.
  erewrite move_cases by eassumption. rewrite find_app_id.
  rewrite map_app, in_app_iff in Hin.
  destruct (locate_cache lsr rc bookId fromListName ub Hs)
    as [(b & Hb & _ & Hl)|(N1 & N2 & _)]; [|tauto].
  unfold locate in Hl. rewrite Hs in Hl. injection Hl as Hl.
  exists b. rewrite Hl. apply has_id_false_In in Habs.
  unfold locate. rewrite Hs, Hl, Habs. auto.
Qed.

(** X3.  Filing a book that is in no list through [moveBookToList] without a
    source (no name, the empty name, or a name that is no property of the
    lists): when the id is not empty, the target is one of the lists and
    one of the two caches has the id, the call returns [true], the record
    appended to the target is the first one with that id in the search
    results followed by the recommendations, and nothing else changes. *)
Theorem move_files_cached_book lsr rc bookId fromListName toListName to ub :
  bookId <> "" ->
  key_of_name toListName = Some to ->
  source_property fromListName = Undefined ->
  ~ In (Some bookId) (map id (get_list to ub)) ->
  In (Some bookId) (map id (lsr ++ rc)) ->
  exists b,
    find (fun x => strict_eq (id x) (Some bookId)) (lsr ++ rc) = Some b /\
    id b = Some bookId /\
    moveBookToList lsr rc bookId fromListName toListName ub
    = (Returns true, set_list to (get_list to ub ++ [b]) ub).
Proof. exact (move_cached lsr rc bookId fromListName toListName to ub). Qed.

Lemma move_files_cached_book_witness :
  moveBookToList [Samples.X_bare] [Samples.X_covered] "X" None "readBooks"
    Samples.wants_B1
  = (Returns true, set_list ReadBooks [Samples.X_bare] Samples.wants_B1) /\
  moveBookToList [] [Samples.X_covered] "X" (Some "") "wantToRead" Samples.wants_B1
  = (Returns true, set_list WantToRead [Samples.B1; Samples.X_covered] Samples.wants_B1).
Proof.
  split.
  - destruct (move_files_cached_book [Samples.X_bare] [Samples.X_covered] "X" None
                "readBooks" ReadBooks Samples.wants_B1) as (b & F & _ & M).
    + discriminate.
    + reflexivity.
    + reflexivity.
    + simpl. tauto.
    + left. reflexivity.
    + injection F as <-. exact M.
  - destruct (move_files_cached_book [] [Samples.X_covered] "X" (Some "")
                "wantToRead" WantToRead Samples.wants_B1) as (b & F & _ & M).
    + discriminate.
    + reflexivity.
    + reflexivity.
    + simpl. intros [H|[]]. discriminate.
    + left. reflexivity.
    + injection F as <-. exact M.
Defined.

(** X4.  In every state of the list manager each listed book has an id that is
    not empty, and no list holds two entries with the same id. *)
Theorem listed_books_wellformed ub :
  reachable ub ->
  (forall k b, In b (get_list k ub) -> exists i, id b = Some i /\ i <> "") /\
  (forall k, NoDup (map id (get_list k ub))).
Proof.
  intros R. split.
  - intros k b Hin. pose proof (reachable_ids_truthy ub R k b Hin) as Ht.
    destruct (id b) as [i|]; [|discriminate]. exists i. split; [reflexivity|].
    now apply truthy_Some.
  - intros k. pose proof (reachable_nodup_each ub R k) as N.
    induction (get_list k ub) as [|b l IH]; [constructor|].
    cbn [map]. constructor.
    + specialize (N (id b)). rewrite occurrences_cons, strict_eq_refl in N.
      apply occurrences_zero. lia.
    + apply IH. intros i. specialize (N i). rewrite occurrences_cons in N. lia.
Qed.

Lemma listed_books_wellformed_witness :
  reachable Samples.wants_B1 /\
  NoDup (map id (get_list WantToRead Samples.wants_B1)).
Proof.
  assert (R : reachable Samples.wants_B1)
    by exact (reach_add Samples.B1 "wantToRead" reach_empty).
  split; [exact R|].
  exact (proj2 (listed_books_wellformed Samples.wants_B1 R) WantToRead).
Defined.


(** ** [getBookListStatus] and [getAllUserBookIds] *)

Lemma status_cases i ub :
  getBookListStatus i ub =
  if has_id i (Data.currentlyReading ub) then Some "currentlyReading"
  else if has_id i (Data.wantToRead ub) then Some "wantToRead"
  else if has_id i (Data.readBooks ub) then Some "readBooks"
  else None.
Proof.
  unfold getBookListStatus. cbn [find get_list].
  destruct (has_id i (Data.currentlyReading ub)); [reflexivity|].
  destruct (has_id i (Data.wantToRead ub)); [reflexivity|].
  now destruct (has_id i (Data.readBooks ub)).
Qed.

Lemma owned_cases i ub :
  owned i ub <->
  has_id i (Data.currentlyReading ub) = true \/ has_id i (Data.wantToRead ub) = true
  \/ has_id i (Data.readBooks ub) = true.
Proof.
  unfold owned. rewrite !has_id_In. split.
  - intros [[] H]; simpl in H; tauto.
  - intros [H|[H|H]];
      [exists CurrentlyReading | exists WantToRead | exists ReadBooks]; exact H.
Qed.

Lemma single_one_list i k k' ub :
  single ub -> In i (map id (get_list k ub)) -> In i (map id (get_list k' ub)) -> k = k'.
Proof.
  intros S H H'. apply occurrences_pos in H, H'. specialize (S i). unfold copies in S.
  destruct k, k'; simpl in *; try reflexivity; lia.
Qed.

Lemma single_status i k ub :
  single ub -> In i (map id (get_list k ub)) ->
  getBookListStatus i ub = Some (name_of_key k).
Proof.
  intros S H. rewrite status_cases.
  assert (N : forall k', k' <> k -> has_id i (get_list k' ub) = false).
  { intros k' Hne. apply has_id_false_In. intros H'. apply Hne.
    exact (single_one_list i k' k ub S H' H). }
  apply has_id_In in H.
  destruct k; simpl in H.
  - now rewrite H.
  - pose proof (N CurrentlyReading) as N1. simpl in N1.
    rewrite N1 by discriminate. now rewrite H.
  - pose proof (N CurrentlyReading) as N1. pose proof (N WantToRead) as N2.
    simpl in N1, N2. rewrite N1, N2 by discriminate. now rewrite H.
Qed.

(** X5.  [getBookListStatus] answers nothing exactly for the ids that are in no
    list; a name it answers is the name of a list that holds the id, the
    first of them in the order of the three lists; and when no id is
    entered twice it is the name of the one list that holds the id. *)
Theorem list_status_spec i ub :
  (getBookListStatus i ub = None <-> ~ owned i ub) /\
  (forall n, getBookListStatus i ub = Some n ->
     exists k, n = name_of_key k /\ key_of_name n = Some k /\
               In i (map id (get_list k ub)) /\
               getBookListStatus i ub
               = option_map name_of_key (hd_error (lists_with i ub))) /\
  (forall k, single ub -> In i (map id (get_list k ub)) ->
             getBookListStatus i ub = Some (name_of_key k)).
Proof.
  split; [|split].
  - rewrite owned_cases, status_cases.
    destruct (has_id i (Data.currentlyReading ub)), (has_id i (Data.wantToRead ub)),
      (has_id i (Data.readBooks ub));
      (split;
       [intros E; try discriminate; intros [H|[H|H]]; discriminate
       |intros H; try reflexivity; exfalso; apply H; tauto]).
  - intros n. unfold lists_with, allKeys. rewrite status_cases. cbn [filter get_list].
    destruct (has_id i (Data.currentlyReading ub)) eqn:E1.
    { intros [= <-]. exists CurrentlyReading. repeat split. now apply has_id_In. }
    destruct (has_id i (Data.wantToRead ub)) eqn:E2.
    { intros [= <-]. exists WantToRead. repeat split. now apply has_id_In. }
    destruct (has_id i (Data.readBooks ub)) eqn:E3; [|discriminate].
    intros [= <-]. exists ReadBooks. repeat split. now apply has_id_In.
  - intros k. apply single_status.
Qed.

Lemma list_status_spec_witness :
  getBookListStatus (Some "B2") Samples.two_lists = Some "readBooks" /\
  getBookListStatus (Some "X") Samples.two_lists = None.
Proof.
  destruct (list_status_spec (Some "B2") Samples.two_lists) as (_ & _ & S).
  destruct (list_status_spec (Some "X") Samples.two_lists) as (N & _ & _).
  split.
  - apply (S ReadBooks).
    + exact (add_keeps_single Samples.B2 "readBooks" _
               (add_keeps_single Samples.B1 "currentlyReading" emptyBooks single_empty)).
    + left. reflexivity.
  - apply N. intros [[] H]; simpl in H; intuition discriminate.
Defined.

Lemma set_add_fold_NoDup (l : list (option string)) : forall s,
  NoDup s -> NoDup (fold_left (set_add strict_eq) l s).
Proof.
  induction l as [|y l IH]; intros s N; [exact N|].
  cbn [fold_left]. apply IH. unfold set_add.
  destruct (existsb (strict_eq y) s) eqn:E; [exact N|].
  apply NoDup_app; [exact N | repeat constructor; intros [] |].
  intros x Hx [Exy|[]]. subst x.
  assert (existsb (strict_eq y) s = true); [|congruence].
  apply existsb_exists. exists y. split; [exact Hx | apply strict_eq_refl].
Qed.

(** X6.  [getAllUserBookIds] lists exactly the ids that are in one of the
    three lists, each of them once. *)
Theorem all_ids_spec ub :
  NoDup (getAllUserBookIds ub) /\
  (forall i, In i (getAllUserBookIds ub) <-> owned i ub).
Proof.
  split; [|intros i; apply in_getAllUserBookIds].
  unfold getAllUserBookIds, values. cbn [fold_left]. rewrite !fold_ids.
  repeat apply set_add_fold_NoDup. constructor.
Qed.

Lemma all_ids_spec_witness :
  getAllUserBookIds Samples.two_lists = [Some "B1"; Some "B2"] /\
  owned (Some "B2") Samples.two_lists.
Proof.
  split; [reflexivity|].
  apply (proj2 (all_ids_spec Samples.two_lists) (Some "B2")). right. left. reflexivity.
Defined.

Lemma status_None i ub : getBookListStatus i ub = None <-> ~ owned i ub.
Proof.
  rewrite owned_cases, status_cases.
  destruct (has_id i (Data.currentlyReading ub)), (has_id i (Data.wantToRead ub)),
    (has_id i (Data.readBooks ub));
    (split;
     [intros E; try discriminate; intros [H|[H|H]]; discriminate
     |intros H; try reflexivity; exfalso; apply H; tauto]).
Qed.

Lemma status_Some i n ub :
  getBookListStatus i ub = Some n -> exists k, n = name_of_key k.
Proof.
  rewrite status_cases.
  destruct (has_id i (Data.currentlyReading ub));
    [intros [= <-]; now exists CurrentlyReading|].
  destruct (has_id i (Data.wantToRead ub)); [intros [= <-]; now exists WantToRead|].
  destruct (has_id i (Data.readBooks ub)); [intros [= <-]; now exists ReadBooks|].
  discriminate.
Qed.

(** X7.  When no id is entered twice and the caller names as source the list
    that [getBookListStatus] gives for the book, as the details dialog does,
    [moveBookToList] leaves a state in which no id is entered twice; and if
    it returns [true] the book is entered once, in the target list, which is
    what [getBookListStatus] then answers. *)
Theorem move_from_current_list lsr rc bookId toListName ub :
  single ub ->
  let r := moveBookToList lsr rc bookId (getBookListStatus (Some bookId) ub)
             toListName ub in
  single (snd r) /\
  (fst r = Returns true ->
   copies (Some bookId) (snd r) = 1%nat /\
   getBookListStatus (Some bookId) (snd r) = Some toListName).
Proof.
  intros S. cbv zeta.
  assert (S' : single (snd (moveBookToList lsr rc bookId
                              (getBookListStatus (Some bookId) ub) toListName ub))).
  { apply move_keeps_single; [exact S|].
    destruct (getBookListStatus (Some bookId) ub) as [n|] eqn:E.
    - left. apply status_Some in E as [k ->]. rewrite source_property_name. discriminate.
    - right. now apply status_None. }
  split; [exact S'|]. intros Hok.
  destruct (move_effect lsr rc bookId (getBookListStatus (Some bookId) ub) toListName ub)
    as [_ T].
  destruct (T Hok) as (to & Hk & Hin). split.
  - pose proof (copies_ge (Some bookId) to
      (snd (moveBookToList lsr rc bookId (getBookListStatus (Some bookId) ub)
              toListName ub))) as G.
    apply occurrences_pos in Hin. specialize (S' (Some bookId)). lia.
  - replace (Some toListName) with (Some (name_of_key to))
      by (f_equal; symmetry; now apply key_of_name_inv).
    now apply single_status.
Qed.

Lemma move_from_current_list_witness :
  single Samples.two_lists /\
  moveBookToList [] [] "B1" (getBookListStatus (Some "B1") Samples.two_lists)
    "readBooks" Samples.two_lists
  = (Returns true, {| Data.currentlyReading := []; Data.wantToRead := [];
              Data.readBooks := [Samples.B2; Samples.B1] |}) /\
  getBookListStatus (Some "B1")
    (snd (moveBookToList [] [] "B1" (getBookListStatus (Some "B1") Samples.two_lists)
            "readBooks" Samples.two_lists))
  = Some "readBooks".
Proof.
  assert (S : single Samples.two_lists)
    by exact (add_keeps_single Samples.B2 "readBooks" _
                (add_keeps_single Samples.B1 "currentlyReading" emptyBooks single_empty)).
  split; [exact S|]. split; [reflexivity|].
  exact (proj2 (proj2 (move_from_current_list [] [] "B1" "readBooks"
                         Samples.two_lists S) eq_refl)).
Defined.

Lemma not_true_if (c : bool) (ub ub' : UserBooks) :
  (if c then Throws else Returns false, ub) <> (Returns true, ub').
Proof. destruct c; discriminate. Qed.

Lemma set_set k l l' ub : set_list k l (set_list k l' ub) = set_list k l ub.
Proof. now destruct k. Qed.

(** X8.  Removing a book that has just been added gives back the lists as they
    were before it was added. *)
Theorem add_then_remove book i listName ub ub1 :
  id book = Some i ->
  addBookToList book listName ub = (Returns true, ub1) ->
  removeBookFromList i listName ub1 = (Returns true, ub).
Proof.
  intros Hi. rewrite add_cases, remove_cases.
  destruct (key_of_name listName) as [k|]; [|intros H; now apply not_true_if in H].
  destruct (truthy (id book)) eqn:Ht; cbn [andb]; [|discriminate].
  destruct (existsb _ _) eqn:E; cbn [negb]; [discriminate|].
  intros [= <-]. rewrite get_set_same, <- Hi, Ht, has_id_app.
  replace (has_id (id book) [book]) with true
    by (unfold has_id; simpl; now rewrite strict_eq_refl).
  rewrite orb_true_r. cbn [andb]. f_equal.
  rewrite set_set, filter_app. cbn [filter]. rewrite strict_eq_refl. cbn [negb].
  rewrite app_nil_r, purge_absent, set_get_same; [reflexivity|].
  apply not_owned_anywhere in E. intros Hin. apply E. now exists k.
Qed.

Lemma add_then_remove_witness :
  removeBookFromList "B2" "wantToRead"
    (snd (addBookToList Samples.B2 "wantToRead" Samples.wants_B1))
  = (Returns true, Samples.wants_B1).
Proof.
  exact (add_then_remove Samples.B2 "B2" "wantToRead" Samples.wants_B1 _
           eq_refl eq_refl).
Defined.

(** X9.  When no id is entered twice, a book that [removeBookFromList] has
    removed is in none of the lists any more: [getBookListStatus] answers
    nothing for it and [getAllUserBookIds] does not list it. *)
Theorem remove_disowns bookId listName ub ub' :
  single ub ->
  removeBookFromList bookId listName ub = (Returns true, ub') ->
  single ub' /\
  ~ owned (Some bookId) ub' /\
  getBookListStatus (Some bookId) ub' = None /\
  ~ In (Some bookId) (getAllUserBookIds ub').
Proof.
  intros S Hr.
  assert (S' : single ub').
  { pose proof (remove_keeps_single bookId listName ub S) as K.
    now rewrite Hr in K. }
  assert (N : ~ owned (Some bookId) ub').
  { apply copies_zero. rewrite remove_cases in Hr.
    destruct (key_of_name listName) as [k|]; [|now apply not_true_if in Hr].
    destruct (truthy (Some bookId)); cbn [andb] in Hr; [|discriminate].
    destruct (has_id _ _) eqn:E; [|discriminate]. injection Hr as <-.
    pose proof (copies_set (Some bookId) k
      (filter (fun b => negb (strict_eq (id b) (Some bookId))) (get_list k ub)) ub) as C.
    rewrite occurrences_purge, strict_eq_refl in C.
    apply has_id_In, occurrences_pos in E. specialize (S (Some bookId)). lia. }
  split; [exact S'|]. split; [exact N|]. split.
  - now apply status_None.
  - now rewrite in_getAllUserBookIds.
Qed.

Lemma remove_disowns_witness :
  ~ owned (Some "B1") (snd (removeBookFromList "B1" "currentlyReading" Samples.two_lists)).
Proof.
  assert (S : single Samples.two_lists)
    by exact (add_keeps_single Samples.B2 "readBooks" _
                (add_keeps_single Samples.B1 "currentlyReading" emptyBooks single_empty)).
  exact (proj1 (proj2 (remove_disowns "B1" "currentlyReading" Samples.two_lists _
                         S eq_refl))).
Defined.


(** ** [getBookById] *)

Lemma find_in_lists_all (same : Book -> bool) ub :
  find_in_lists same [CurrentlyReading; WantToRead; ReadBooks] ub
  = find same (Data.currentlyReading ub ++ Data.wantToRead ub ++ Data.readBooks ub).
Proof.
  cbn [find_in_lists get_list].
  assert (F : forall l1 l2, find same (l1 ++ l2)
              = match find same l1 with Some b => Some b | None => find same l2 end).
  { induction l1 as [|a l1 IH]; intros l2; [reflexivity|]. simpl.
    now destruct (same a). }
  rewrite !F. now destruct (find same (Data.readBooks ub)).
Qed.

(** X10.  [getBookById] returns nothing for the empty id; for another id it
    returns the first record with that id in the three lists, the search
    results and the recommendations, taken in this order.  So the record it
    returns has the id asked for, a listed record is preferred to a cached
    one, and nothing is returned exactly when the id is neither listed nor
    cached. *)
Theorem getBookById_spec lsr rc bookId ub :
  getBookById lsr rc bookId ub
  = (if bookId =? "" then None
     else find (fun b => strict_eq (id b) (Some bookId))
            (Data.currentlyReading ub ++ Data.wantToRead ub ++ Data.readBooks ub
             ++ lsr ++ rc)) /\
  (forall b, getBookById lsr rc bookId ub = Some b -> id b = Some bookId) /\
  (bookId <> "" -> owned (Some bookId) ub ->
   exists b k, getBookById lsr rc bookId ub = Some b /\ In b (get_list k ub)) /\
  (bookId <> "" ->
   (getBookById lsr rc bookId ub = None <->
    ~ owned (Some bookId) ub /\ ~ In (Some bookId) (map id lsr)
    /\ ~ In (Some bookId) (map id rc))).
Proof.
  assert (E : getBookById lsr rc bookId ub
              = (if bookId =? "" then None
                 else find (fun b => strict_eq (id b) (Some bookId))
                        (Data.currentlyReading ub ++ Data.wantToRead ub
                         ++ Data.readBooks ub ++ lsr ++ rc))).
  { unfold getBookById. cbn [truthy]. destruct (bookId =? ""); cbn [negb]; [reflexivity|].
    rewrite find_in_lists_all, !find_app_id.
    destruct (find _ (Data.currentlyReading ub)); [reflexivity|].
    destruct (find _ (Data.wantToRead ub)); [reflexivity|].
    now destruct (find _ (Data.readBooks ub)). }
  split; [exact E|]. split; [|split].
  - intros b. rewrite E. destruct (bookId =? ""); [discriminate|].
    intros H. now apply find_id_Some in H.
  - intros Hne Ho. rewrite E. apply String.eqb_neq in Hne. rewrite Hne.
    rewrite !app_assoc, find_app_id, find_app_id.
    destruct (find _ ((Data.currentlyReading ub ++ Data.wantToRead ub)
                      ++ Data.readBooks ub)) as [b|] eqn:F.
    + apply find_id_Some in F as [_ F]. rewrite !in_app_iff in F.
      exists b. destruct F as [[F|F]|F];
        [exists CurrentlyReading | exists WantToRead | exists ReadBooks]; auto.
    + exfalso. apply find_id_None in F. apply F.
      rewrite !map_app, !in_app_iff. destruct Ho as [[] Ho]; simpl in Ho; tauto.
  - intros Hne. rewrite E. apply String.eqb_neq in Hne. rewrite Hne.
    rewrite find_id_None, !map_app, !in_app_iff. unfold owned. split.
    + intros H. repeat split.
      * intros [[] Ho]; simpl in Ho; tauto.
      * tauto.
      * tauto.
    + intros (H1 & H2 & H3) [H|[H|[H|[H|H]]]]; try tauto; apply H1;
        [exists CurrentlyReading | exists WantToRead | exists ReadBooks]; exact H.
Qed.

Lemma getBookById_spec_witness :
  getBookById [Samples.B1_covered] [] "B1" Samples.wants_B1 = Some Samples.B1 /\
  getBookById [] [] "X" Samples.wants_B1 = None.
Proof.
  destruct (getBookById_spec [Samples.B1_covered] [] "B1" Samples.wants_B1)
    as (E & _ & _ & _).
  destruct (getBookById_spec [] [] "X" Samples.wants_B1) as (_ & _ & _ & N).
  split.
  - rewrite E. reflexivity.
  - apply N; [discriminate|]. repeat split.
    + intros [[] H]; simpl in H; intuition discriminate.
    + intros [].
    + intros [].
Defined.

(** * Further properties of the recommendation engine *)

Lemma word_char_cases c :
  is_word_char c = true -> is_keyword_char c || is_upper_char c = true.
Proof. destruct c as [[] [] [] [] [] [] [] []]; vm_compute; auto. Qed.

Lemma lower_word_char c :
  is_word_char c = true -> negb (is_upper_char c) = true -> is_keyword_char c = true.
Proof. destruct c as [[] [] [] [] [] [] [] []]; vm_compute; auto. Qed.

Lemma string_forall_snoc p s c :
  string_forall p (s ++ String c EmptyString)%string = string_forall p s && p c.
Proof.
  induction s as [|a s IH]; simpl.
  - now rewrite andb_true_r.
  - now rewrite IH, andb_assoc.
Qed.

(** The pieces that [split] cuts out of a text are made of the word
    characters of that text. *)
Lemma split_pieces (p q : ascii -> bool) :
  (forall c, is_word_char c = true -> q c = true -> p c = true) ->
  forall s cur in_sep,
    string_forall q s = true ->
    string_forall p cur = true ->
    Forall (fun w => string_forall p w = true) (split_from cur in_sep s).
Proof.
  intros Hpq. induction s as [|c s IH]; intros cur in_sep Hs Hc; cbn [split_from].
  - now constructor.
  - cbn [string_forall] in Hs. apply andb_true_iff in Hs as [Hq Hs].
    destruct (is_word_char c) eqn:W.
    + apply IH; [exact Hs|]. rewrite string_forall_snoc, Hc. now apply Hpq.
    + destruct in_sep; [now apply IH|]. constructor; [exact Hc | now apply IH].
Qed.

Lemma string_forall_true s : string_forall (fun _ => true) s = true.
Proof. induction s; simpl; auto. Qed.

Lemma includes_In l w : includes l w = true <-> In w l.
Proof.
  unfold includes. rewrite existsb_exists. split.
  - intros (x & Hx & E). apply String.eqb_eq in E. now subst.
  - intros H. exists w. split; [exact H | apply String.eqb_refl].
Qed.

Lemma keywords_in_ok toLowerCase text w :
  In w (keywords_in toLowerCase text) ->
  (3 < String.length w)%nat /\
  string_forall (fun c => is_keyword_char c || is_upper_char c) w = true /\
  ~ In w stopWords /\
  (leaves_no_capital toLowerCase -> string_forall is_keyword_char w = true).
Proof.
  unfold keywords_in. destruct text as [t|]; [|intros []].
  destruct (t =? ""); [intros []|].
  rewrite filter_In, andb_true_iff, negb_true_iff, Nat.ltb_lt. intros (Hin & Hl & Hs).
  split; [exact Hl|]. split; [|split].
  - pose proof (split_pieces (fun c => is_keyword_char c || is_upper_char c)
                  (fun _ => true) (fun c W _ => word_char_cases c W)
                  (toLowerCase t) EmptyString false
                  (string_forall_true _) eq_refl) as F.
    rewrite Forall_forall in F. now apply F.
  - rewrite <- includes_In. congruence.
  - intros L.
    pose proof (split_pieces is_keyword_char (fun c => negb (is_upper_char c))
                  lower_word_char (toLowerCase t) EmptyString false (L t) eq_refl) as F.
    rewrite Forall_forall in F. now apply F.
Qed.

Lemma distinct_In l x : In x (distinct l) <-> In x l.
Proof.
  induction l as [|y l IH]; simpl; [tauto|].
  rewrite filter_In, IH, negb_true_iff. split.
  - tauto.
  - intros [H|H]; [tauto|].
    destruct (String.eqb_spec x y) as [->|Hne]; [tauto|]. right. tauto.
Qed.

Lemma NoDup_filter_str (p : string -> bool) l : NoDup l -> NoDup (filter p l).
Proof.
  induction 1 as [|x l Hx N IH]; simpl; [constructor|].
  destruct (p x); [|exact IH]. constructor; [|exact IH].
  rewrite filter_In. tauto.
Qed.

Lemma distinct_NoDup l : NoDup (distinct l).
Proof.
  induction l as [|y l IH]; simpl; constructor.
  - rewrite filter_In, negb_true_iff, String.eqb_refl. intros [_ H]. discriminate.
  - now apply NoDup_filter_str.
Qed.

Lemma keywords_ok toLowerCase rb w :
  In w (readKeywords (extractSignals toLowerCase rb)) ->
  (3 < String.length w)%nat /\
  string_forall (fun c => is_keyword_char c || is_upper_char c) w = true /\
  ~ In w stopWords /\
  (leaves_no_capital toLowerCase -> string_forall is_keyword_char w = true).
Proof.
  destruct (extractSignals_distinct toLowerCase rb) as (_ & _ & ->).
  rewrite distinct_In, in_flat_map. intros (b & _ & Hw).
  unfold keywords_of in Hw. destruct (volumeInfo b) as [info|]; [|destruct Hw].
  apply in_app_or in Hw as [Hw|Hw]; now apply keywords_in_ok in Hw.
Qed.

Lemma lower_ascii_no_capital : leaves_no_capital Samples.lower_ascii.
Proof.
  intros t. induction t as [|c t IH]; [reflexivity|].
  cbn [Samples.lower_ascii string_forall]. rewrite IH, andb_true_r.
  destruct c as [[] [] [] [] [] [] [] []]; vm_compute; reflexivity.
Qed.

(** X11.  Whatever function of the language lower-cases a text, the
    preference signals are sets: no genre, author or keyword is held twice.
    Every keyword has more than three characters, all of them ASCII
    letters, digits or underscores, and is not a stop word; and as
    lower-casing leaves no capital ASCII letter in a text, no keyword has
    one: its characters are lower-case letters, digits or underscores. *)
Theorem signals_wellformed toLowerCase rb :
  NoDup (readGenres (extractSignals toLowerCase rb)) /\
  NoDup (readAuthors (extractSignals toLowerCase rb)) /\
  NoDup (readKeywords (extractSignals toLowerCase rb)) /\
  (forall w, In w (readKeywords (extractSignals toLowerCase rb)) ->
     (3 < String.length w)%nat /\
     string_forall (fun c => is_keyword_char c || is_upper_char c) w = true /\
     ~ In w stopWords) /\
  (leaves_no_capital toLowerCase ->
   forall w, In w (readKeywords (extractSignals toLowerCase rb)) ->
     string_forall is_keyword_char w = true).
Proof.
  destruct (extractSignals_distinct toLowerCase rb) as (G & A & K).
  split; [rewrite G; apply distinct_NoDup|].
  split; [rewrite A; apply distinct_NoDup|].
  split; [rewrite K; apply distinct_NoDup|].
  split.
  - intros w Hw. apply keywords_ok in Hw. tauto.
  - intros L w Hw. apply keywords_ok in Hw. tauto.
Qed.

Lemma signals_wellformed_witness :
  leaves_no_capital Samples.lower_ascii /\
  readKeywords (extractSignals Samples.lower_ascii (Data.readBooks Samples.history))
  = ["dragons"; "dancing"; "wolves"; "forever"] /\
  string_forall is_keyword_char "dragons" = true /\
  readKeywords (extractSignals (fun t => t) (Data.readBooks Samples.history))
  = ["Dragons"; "dancing"; "wolves"; "forever"] /\
  (3 < String.length "Dragons")%nat.
Proof.
  split; [exact lower_ascii_no_capital|]. split; [reflexivity|].
  destruct (signals_wellformed Samples.lower_ascii (Data.readBooks Samples.history))
    as (_ & _ & _ & _ & W).
  split; [apply (W lower_ascii_no_capital "dragons"); left; reflexivity|].
  split; [reflexivity|].
  destruct (signals_wellformed (fun t => t) (Data.readBooks Samples.history))
    as (_ & _ & _ & V & _).
  apply (V "Dragons"). left. reflexivity.
Defined.


Lemma In_firstn_In {A} (x : A) n : forall l, In x (firstn n l) -> In x l.
Proof.
  induction n as [|n IH]; intros [|y l]; simpl; try tauto.
  intros [H|H]; [tauto | right; now apply IH].
Qed.

Lemma concat_nonempty w ws : w <> "" -> String.concat " " (w :: ws) <> "".
Proof.
  intros Hw. destruct w as [|c w]; [congruence|].
  destruct ws; simpl; discriminate.
Qed.

(** X12.  Whatever function of the language lower-cases a text, a run
    issues at least one query and at most six, none of them empty: the
    guard of [fetchBooks] against an empty query never fires, and the
    outcome of each query is the catalog's. *)
Theorem queries_bounds toLowerCase catalog ub :
  (1 <= List.length (queries toLowerCase ub) <= 6)%nat /\
  (forall q, In q (queries toLowerCase ub) -> q <> "" /\ fetchBooks catalog q = catalog q).
Proof.
  assert (K : forall w,
             In w (firstn 3 (readKeywords (extractSignals toLowerCase (Data.readBooks ub))))
             -> w <> "").
  { intros w Hw. apply In_firstn_In, keywords_ok in Hw as [Hl _].
    intros ->. simpl in Hl. lia. }
  assert (F : forall q, q <> "" -> q <> "" /\ fetchBooks catalog q = catalog q).
  { intros q Hq. split; [exact Hq|]. unfold fetchBooks.
    apply truthy_Some in Hq. now rewrite Hq. }
  unfold queries, buildQueries.
  set (s := extractSignals toLowerCase (Data.readBooks ub)) in *.
  destruct (readGenres s) as [|g1 [|g2 [|g3 gs]]];
    destruct (readAuthors s) as [|a1 [|a2 au]];
    destruct (readKeywords s) as [|k1 ks]; cbn -[String.concat join].
  all: split; [lia|].
  all: intros q Hq; apply F.
  all: repeat (destruct Hq as [<-|Hq]; [try discriminate|]); try destruct Hq.
  all: unfold join; apply concat_nonempty; apply K; destruct ks as [|k2 [|k3 ks]];
    left; reflexivity.
Qed.

Lemma queries_bounds_witness :
  List.length (queries Samples.lower_ascii Samples.history) = 5%nat /\
  fetchBooks Samples.authors_only "inauthor:A1" = Fulfilled [Samples.Y_covered].
Proof.
  split; [reflexivity|].
  destruct (queries_bounds Samples.lower_ascii Samples.authors_only Samples.history)
    as [_ Q].
  destruct (Q "inauthor:A1") as [_ ->]; [|reflexivity].
  right. right. left. reflexivity.
Defined.

Lemma sorted_app_inv (l1 l2 : list Book) :
  StronglySorted ranks_no_later (l1 ++ l2) ->
  StronglySorted ranks_no_later l1 /\
  (forall a b, In a l1 -> In b l2 -> ranks_no_later a b).
Proof.
  induction l1 as [|x l1 IH]; cbn [app]; intros S.
  - split; [constructor | intros a b []].
  - inversion S as [|? ? S' F]; subst. destruct (IH S') as [S1 R]. split.
    + constructor; [exact S1|]. apply Forall_forall. intros y Hy.
      rewrite Forall_forall in F. apply F. apply in_or_app. now left.
    + intros a b [<-|Ha] Hb; [|now apply R].
      rewrite Forall_forall in F. apply F. apply in_or_app. now right.
Qed.

Lemma NoDup_firstn {A} n : forall l : list A, NoDup l -> NoDup (firstn n l).
Proof.
  induction n as [|n IH]; intros [|x l] N; simpl; try constructor.
  - inversion N; subst. intros H. now apply In_firstn_In in H.
  - inversion N; subst. now apply IH.
Qed.

(** X13.  Whatever function of the language lower-cases a text, what a run
    commits to the recommendation cache: at most ten books,
    ranked, with pairwise different ids; each of them was returned by one
    of the queries, has an id and a thumbnail and is in none of the
    reading lists; and no book that passed the filter and was left out
    outranks a book that was kept. *)
Theorem committed_recommendations toLowerCase catalog ub cache :
  let gathered := flat_map (results_of catalog) (queries toLowerCase ub) in
  let final := snd (generateRecommendations toLowerCase catalog ub cache) in
  (List.length final <= 10)%nat /\
  NoDup (map id final) /\
  StronglySorted ranks_no_later final /\
  (forall b, In b final ->
     In b gathered /\ truthy (id b) = true /\ has_thumbnail b = true /\
     ~ owned (id b) ub) /\
  (forall a b,
     In a final -> In b (filterBooks (getAllUserBookIds ub) gathered) -> ~ In b final ->
     ranks_no_later a b).
Proof.
  cbv zeta. unfold generateRecommendations. rewrite merged_flat.
  cbn [snd]. unfold saveRecommendationsCache, rank.
  set (gathered := flat_map (results_of catalog) (queries toLowerCase ub)).
  set (kept := filterBooks (getAllUserBookIds ub) gathered).
  pose proof (sort_sorted kept) as S. pose proof (sort_perm kept) as P.
  rewrite <- (firstn_skipn 10 (sort kept)) in S. apply sorted_app_inv in S as [S1 S2].
  split; [apply firstn_le_length|]. split.
  { rewrite <- firstn_map. apply NoDup_firstn.
    apply (Permutation_NoDup (Permutation_map id (Permutation_sym P))).
    unfold kept. rewrite filterBooks_first. apply first_of_each_id_NoDup. }
  split; [exact S1|]. split.
  - intros b Hb. apply In_firstn_In in Hb. apply (Permutation_in _ P) in Hb.
    unfold kept in Hb. rewrite filterBooks_first in Hb.
    apply first_of_each_id_incl, filter_In in Hb as [Hin El].
    unfold eligible in El. rewrite !andb_true_iff, negb_true_iff in El.
    destruct El as [[[Ht _] Ho] Hc]. repeat split; auto.
    rewrite <- in_getAllUserBookIds. intros Hown.
    assert (existsb (strict_eq (id b)) (getAllUserBookIds ub) = true); [|congruence].
    apply existsb_exists. exists (id b). split; [exact Hown | apply strict_eq_refl].
  - intros a b Ha Hb Hn. apply S2; [exact Ha|].
    apply (Permutation_in _ (Permutation_sym P)) in Hb.
    rewrite <- (firstn_skipn 10 (sort kept)) in Hb.
    apply in_app_or in Hb as [Hb|Hb]; tauto.
Qed.

Lemma committed_recommendations_witness :
  snd (generateRecommendations Samples.lower_ascii Samples.rated_hits
         Samples.history [Samples.B1])
  = [Samples.C3; Samples.C1; Samples.C2] /\
  StronglySorted ranks_no_later [Samples.C3; Samples.C1; Samples.C2] /\
  NoDup (map id [Samples.C3; Samples.C1; Samples.C2]) /\
  snd (generateRecommendations Samples.lower_ascii Samples.authors_only
         Samples.history [])
  = [Samples.Y_covered] /\
  ~ owned (id Samples.Y_covered) Samples.history.
Proof.
  destruct (committed_recommendations Samples.lower_ascii Samples.rated_hits
              Samples.history [Samples.B1]) as (_ & N & S & _ & _).
  destruct (committed_recommendations Samples.lower_ascii Samples.authors_only
              Samples.history []) as (_ & _ & _ & E & _).
  split; [reflexivity|]. split; [exact S|]. split; [exact N|].
  split; [reflexivity|].
  apply (E Samples.Y_covered). left. reflexivity.
Defined.

(** * Properties of the pages and of the handlers *)

Import Ui App.

(** ** Cards *)

Lemma replace_first_eq pat rep s :
  replace_first pat rep s =
  if String.prefix pat s then (rep ++ drop (String.length pat) s)%string
  else match s with
       | EmptyString => EmptyString
       | String c s' => String c (replace_first pat rep s')
       end.
Proof. now destruct s. Qed.

Lemma secure_keeps_out s : forall q,
  In q ["http://"; "ttp://"; "tp://"; "p://"; "://"; "//"; "/"] ->
  String.prefix q s = false ->
  String.prefix q (replace_first "http://" "https://" s) = false.
Proof.
  induction s as [|c s IH]; intros q Hq Hp.
  - rewrite replace_first_eq. cbn [String.prefix].
    simpl in Hq. intuition (subst; reflexivity).
  - rewrite replace_first_eq.
    destruct (String.prefix "http://" (String c s)) eqn:E.
    + simpl in Hq. intuition (subst; try congruence; reflexivity).
    + assert (Step : forall a q',
                 (q' = EmptyString \/
                  In q' ["http://"; "ttp://"; "tp://"; "p://"; "://"; "//"; "/"]) ->
                 String.prefix (String a q') (String c s) = false ->
                 String.prefix (String a q')
                   (String c (replace_first "http://" "https://" s)) = false).
      { intros a q' Hq' H. cbn [String.prefix] in *.
        destruct (ascii_dec a c); [|reflexivity].
        destruct Hq' as [->|Hq']; [now rewrite prefix_nil in H | now apply IH]. }
      simpl in Hq.
      destruct Hq as [<-|[<-|[<-|[<-|[<-|[<-|[<-|[]]]]]]]]; apply Step; auto;
        right; simpl; tauto.
Qed.

Lemma secure_not_http s :
  String.prefix "http://" (replace_first "http://" "https://" s) = false.
Proof.
  destruct (String.prefix "http://" s) eqn:E.
  - rewrite replace_first_eq, E. reflexivity.
  - apply secure_keeps_out; [now left | exact E].
Qed.

Lemma secure_nonempty s : s <> "" -> replace_first "http://" "https://" s <> "".
Proof.
  intros Hs. rewrite replace_first_eq.
  destruct (String.prefix "http://" s); [discriminate|].
  destruct s; [congruence | discriminate].
Qed.

Lemma cover_is_https volumeInfo size u :
  getOpenLibraryCover volumeInfo size = Some u ->
  u <> "" /\ String.prefix "http://" u = false.
Proof.
  unfold getOpenLibraryCover.
  destruct volumeInfo as [info|]; [|discriminate].
  destruct (industryIdentifiers info) as [ids|]; [|discriminate].
  destruct (if truthy (isbn13 _) then _ else None); [intros [= <-]; now split|].
  destruct (if truthy (isbn10 _) then _ else None); [intros [= <-]; now split|].
  destruct (if truthy (oclc _) then _ else None); [intros [= <-]; now split|].
  discriminate.
Qed.

(** X14.  The cover of a card is never empty and never a plain [http://]
    address: a thumbnail of the catalog served over HTTP is shown over
    HTTPS, and the two fallbacks are HTTPS addresses.  The card carries
    the id of the book and a title that is not empty; and no card can be
    made of a record without a descriptive block. *)
Theorem card_cover_is_secure book inUserList listName :
  (forall card,
      createBookCard book inUserList listName = Some card ->
      card_thumbnail card <> "" /\
      String.prefix "http://" (card_thumbnail card) = false /\
      card_title card <> "" /\
      card_id card = id book) /\
  (createBookCard book inUserList listName = None <-> volumeInfo book = None).
Proof.
  unfold createBookCard. destruct (volumeInfo book) as [info|];
    [|split; [discriminate | tauto]].
  split; [|split; discriminate].
  pose proof (cover_is_https (Some info) (Some "M")) as HC.
  destruct (getOpenLibraryCover (Some info) (Some "M")) as [u|].
  all: set (secure := match match imageLinks info with Some _ => _ | None => _ end with
                      | Some g => _ | None => None end).
  all: assert (Hs : forall t, secure = Some t -> String.prefix "http://" t = false)
    by (subst secure; intros t;
        destruct (match imageLinks info with Some _ => _ | None => _ end) as [g|];
        [destruct (truthy (Some g)); [intros [= <-]; apply secure_not_http | discriminate]
        |discriminate]).
  all: clearbody secure.
  all: intros card [= <-]; cbn [card_thumbnail card_title card_id].
  all: assert (Ht : match or_else (title info) (Some "No Title") with
                    | Some t => t
                    | None => "No Title"
                    end <> "")
    by (unfold or_else; destruct (truthy (title info)) eqn:T; [|discriminate];
        destruct (title info) as [t|]; [now apply truthy_Some | discriminate]).
  all: split; [|split; [|split; [exact Ht | reflexivity]]].
  - unfold or_else. destruct (truthy secure) eqn:T1.
    + rewrite T1. destruct secure as [t|]; [now apply truthy_Some | discriminate].
    + destruct (HC u eq_refl) as [Hu _]. pose proof Hu as Hu'.
      apply truthy_Some in Hu'. now rewrite Hu'.
  - unfold or_else. destruct (truthy secure) eqn:T1.
    + rewrite T1. destruct secure as [t|]; [now apply Hs | discriminate].
    + destruct (HC u eq_refl) as [Hu Hp]. apply truthy_Some in Hu. now rewrite Hu.
  - unfold or_else. destruct (truthy secure) eqn:T1.
    + rewrite T1. destruct secure as [t|]; [now apply truthy_Some | discriminate].
    + cbn. discriminate.
  - unfold or_else. destruct (truthy secure) eqn:T1.
    + rewrite T1. destruct secure as [t|]; [now apply Hs | discriminate].
    + reflexivity.
Qed.

Lemma card_cover_is_secure_witness :
  option_map card_thumbnail (createBookCard Samples.Z_http false None)
  = Some "https://books.example/z.jpg" /\
  String.prefix "http://" "https://books.example/z.jpg" = false.
Proof.
  split; [reflexivity|].
  destruct (card_cover_is_secure Samples.Z_http false None) as [C _].
  exact (proj1 (proj2 (C _ eq_refl))).
Defined.

(** ** The search region *)

Lemma filter_unowned_given ids books :
  filter_unowned (Some ids) books
  = Some (filter (fun b => truthy (id b) && negb (existsb (strict_eq (id b)) ids)) books).
Proof.
  induction books as [|b books IH]; [reflexivity|].
  cbn [filter_unowned filter]. rewrite IH. unfold is_unowned.
  now destruct (truthy (id b)); cbn [andb]; [destruct (negb _)|].
Qed.

Lemma cards_of_spec inUserList listName books :
  match cards_of inUserList listName books with
  | Some cards => map card_id cards = map id books
  | None => exists b, In b books /\ volumeInfo b = None
  end.
Proof.
  induction books as [|b books IH]; [reflexivity|]. cbn [cards_of].
  assert (C : match createBookCard b inUserList listName with
              | Some card => card_id card = id b
              | None => volumeInfo b = None
              end).
  { unfold createBookCard. now destruct (volumeInfo b). }
  destruct (createBookCard b inUserList listName) as [card|].
  - destruct (cards_of inUserList listName books) as [cards|].
    + cbn [map]. f_equal; [exact C | exact IH].
    + destruct IH as (x & Hx & Hv). exists x. split; [now right | exact Hv].
  - exists b. split; [now left | exact C].
Qed.

Lemma cards_of_None inUserList listName books :
  cards_of inUserList listName books = None <->
  exists b, In b books /\ volumeInfo b = None.
Proof.
  split.
  - intros H. pose proof (cards_of_spec inUserList listName books) as C.
    now rewrite H in C.
  - intros (b & Hb & Hv). induction books as [|x books IH]; [destruct Hb|].
    cbn [cards_of]. destruct Hb as [->|Hb].
    + unfold createBookCard. now rewrite Hv.
    + destruct (createBookCard x inUserList listName); [|reflexivity].
      now rewrite (IH Hb).
Qed.

Lemma unowned_books_In ub books b :
  In b (unowned_books ub books) <->
  In b books /\ truthy (id b) = true /\ ~ owned (id b) ub.
Proof.
  unfold unowned_books. rewrite filter_In, andb_true_iff, negb_true_iff.
  rewrite <- in_getAllUserBookIds.
  assert (E : existsb (strict_eq (id b)) (getAllUserBookIds ub) = false
              <-> ~ In (id b) (getAllUserBookIds ub)).
  { rewrite <- not_true_iff_false, existsb_exists. split.
    - intros H Hin. apply H. exists (id b). split; [exact Hin | apply strict_eq_refl].
    - intros H (x & Hx & Ex). apply strict_eq_iff in Ex. congruence. }
  rewrite E. tauto.
Qed.

Lemma search_display_cases books ub :
  match displaySearchResults books (Some (getAllUserBookIds ub)) with
  | Some (Cards cards) => map card_id cards = map id (unowned_books ub books)
  | _ => True
  end.
Proof.
  unfold displaySearchResults. rewrite filter_unowned_given.
  fold (unowned_books ub books).
  destruct (unowned_books ub books) as [|b shown] eqn:E; [exact I|].
  cbn [List.length Nat.eqb].
  pose proof (cards_of_spec false None (b :: shown)) as C.
  now destruct (cards_of false None (b :: shown)) as [cards|].
Qed.

(** X15.  What the search region shows for the ids of the owned books: a card
    for each book of the results that has an id and is in none of the
    lists, in the order of the results, and nothing else; without such a
    book, a message that tells an empty result from a result of owned
    books; and the call throws exactly when one of the books to show has no
    descriptive block. *)
Theorem search_display_spec books ub :
  (forall b, In b (unowned_books ub books) <->
             In b books /\ truthy (id b) = true /\ ~ owned (id b) ub) /\
  (displaySearchResults books (Some (getAllUserBookIds ub)) = None <->
   exists b, In b (unowned_books ub books) /\ volumeInfo b = None) /\
  match displaySearchResults books (Some (getAllUserBookIds ub)) with
  | Some (Cards cards) =>
      unowned_books ub books <> [] /\
      map card_id cards = map id (unowned_books ub books)
  | Some (Notice message) =>
      unowned_books ub books = [] /\
      message = match books with
                | [] => "No books found. Try a different search term."
                | _ :: _ => "All found books are already in your lists!"
                end
  | None => exists b, In b (unowned_books ub books) /\ volumeInfo b = None
  end.
Proof.
  split; [intros b; apply unowned_books_In|].
  unfold displaySearchResults. rewrite filter_unowned_given.
  fold (unowned_books ub books).
  destruct (unowned_books ub books) as [|b shown] eqn:E.
  - cbn. split; [|split; [reflexivity | now destruct books]].
    split; [discriminate | intros (x & [] & _)].
  - cbn [List.length Nat.eqb].
    pose proof (cards_of_spec false None (b :: shown)) as C.
    pose proof (cards_of_None false None (b :: shown)) as N.
    destruct (cards_of false None (b :: shown)) as [cards|]; cbn [option_map].
    + split; [|split; [discriminate | exact C]].
      split; [discriminate|]. intros H. apply N in H. discriminate.
    + split; [|exact C]. split; [intros _; exact C | reflexivity].
Qed.

Lemma search_display_spec_witness :
  option_map (fun r => match r with Cards cards => map card_id cards | Notice _ => [] end)
    (displaySearchResults [Samples.B1_covered; Samples.Z_http]
       (Some (getAllUserBookIds Samples.wants_B1)))
  = Some [Some "Z"] /\
  ~ owned (id Samples.Z_http) Samples.wants_B1 /\
  displaySearchResults [Samples.Z_http; {| id := Some "V"; volumeInfo := None |}]
    (Some (getAllUserBookIds Samples.wants_B1)) = None /\
  displaySearchResults [Samples.B1_covered; {| id := Some "B1"; volumeInfo := None |}]
    (Some (getAllUserBookIds Samples.wants_B1))
  = Some (Notice "All found books are already in your lists!").
Proof.
  split; [reflexivity|].
  destruct (search_display_spec [Samples.B1_covered; Samples.Z_http] Samples.wants_B1)
    as (M & _ & _).
  split; [apply (M Samples.Z_http); left; reflexivity|].
  destruct (search_display_spec
              [Samples.Z_http; {| id := Some "V"; volumeInfo := None |}] Samples.wants_B1)
    as (_ & T & _).
  split.
  - apply T. exists {| id := Some "V"; volumeInfo := None |}.
    split; [right; left; reflexivity | reflexivity].
  - reflexivity.
Defined.

(** ** The add buttons of a card *)

Lemma with_books_same st : with_books st (App.userBooks st) = st.
Proof. now destruct st. Qed.

(** X16.  A click on any of the three add buttons of a card adds nothing: the
    name the button hands over is not the name of a list, so whatever the
    book and the lists, the lists stay as they are and the only effect is
    the alert that the book is already in a list. *)
Theorem card_add_buttons_add_nothing action book st :
  In action addActions ->
  key_of_name (list_of_action action) = None /\
  clickAddButton action book st
  = (st, [Alert "This book is already in one of your lists!"]).
Proof.
  intros Hin.
  assert (K : key_of_name (list_of_action action) = None
              /\ inherited (list_of_action action) = false
              /\ truthy (Some action) && startsWith action "add-" = true
              /\ truthy (Some (list_of_action action)) = true).
  { destruct Hin as [<-|[<-|[<-|[]]]]; repeat split. }
  destruct K as (K & H & G & T). split; [exact K|].
  unfold clickAddButton, handleAddToList. rewrite G, T. cbn [negb].
  rewrite add_cases, K, H, andb_false_r. cbn [negb andb]. now rewrite with_books_same.
Qed.

Lemma card_add_buttons_add_nothing_witness :
  In "add-read" addActions /\
  list_of_action "add-read" = "read" /\
  fst (clickAddButton "add-read" Samples.Z_http Samples.session) = Samples.session.
Proof.
  assert (I : In "add-read" addActions) by (right; right; left; reflexivity).
  split; [exact I|]. split; [reflexivity|].
  now rewrite (proj2 (card_add_buttons_add_nothing "add-read" Samples.Z_http
                        Samples.session I)).
Defined.

(** ** The handlers *)

Lemma redraw_regenerations st next :
  (regenerations next <= 1)%nat ->
  (regenerations (redraw st next) <= regenerations next)%nat /\
  (has_thrown next = false ->
   has_thrown (redraw st next) = false ->
   regenerations (redraw st next) = regenerations next).
Proof.
  intros _. unfold redraw.
  destruct (updateAllUserListsUI (App.userBooks st)); [|split; [cbn; lia | discriminate]].
  destruct (displaySearchResults _ _); [|split; [cbn; lia | discriminate]].
  split; reflexivity.
Qed.

Lemma handleAdd_books book listName st :
  App.userBooks (fst (handleAddToList book listName st))
  = snd (addBookToList book listName (App.userBooks st)).
Proof.
  unfold handleAddToList. destruct (truthy (Some listName)) eqn:T; cbn [negb].
  - now destruct (addBookToList book listName (App.userBooks st)) as [[[]|] ub].
  - cbn [fst]. rewrite add_cases.
    destruct listName; [reflexivity | discriminate].
Qed.

Lemma handleMove_books bookId fromListName toListName st :
  App.userBooks (fst (handleMoveToList bookId fromListName toListName st))
  = snd (moveBookToList (App.lastSearchResults st) (App.recommendationsCache st)
           bookId fromListName toListName (App.userBooks st)).
Proof.
  unfold handleMoveToList. now destruct (moveBookToList _ _ _ _ _ _) as [[[]|] ub].
Qed.

Lemma handleRemove_books bookId listName st :
  App.userBooks (fst (handleRemoveFromList bookId listName st))
  = snd (removeBookFromList bookId listName (App.userBooks st)).
Proof.
  unfold handleRemoveFromList. now destruct (removeBookFromList _ _ _) as [[[]|] ub].
Qed.

(** X17.  A handler calls [generateRecommendations] at most once, and only after
    a change that succeeded and involves [readBooks]: an addition to it, a
    removal from it, a move into it or out of it.  It does call it then,
    unless redrawing the page has thrown.  In particular a move between
    the two other lists never regenerates. *)
Theorem regeneration_trigger st :
  (forall book listName,
      let effects := snd (handleAddToList book listName st) in
      (regenerations effects <= 1)%nat /\
      (regenerations effects = 1%nat ->
       fst (addBookToList book listName (App.userBooks st)) = Returns true
       /\ listName = "readBooks") /\
      (fst (addBookToList book listName (App.userBooks st)) = Returns true ->
       listName = "readBooks" -> has_thrown effects = false ->
       regenerations effects = 1%nat)) /\
  (forall bookId listName,
      let effects := snd (handleRemoveFromList bookId listName st) in
      (regenerations effects <= 1)%nat /\
      (regenerations effects = 1%nat ->
       fst (removeBookFromList bookId listName (App.userBooks st)) = Returns true
       /\ listName = "readBooks") /\
      (fst (removeBookFromList bookId listName (App.userBooks st)) = Returns true ->
       listName = "readBooks" -> has_thrown effects = false ->
       regenerations effects = 1%nat)) /\
  (forall bookId fromListName toListName,
      let moved := fst (moveBookToList (App.lastSearchResults st)
                          (App.recommendationsCache st) bookId fromListName toListName
                          (App.userBooks st)) in
      let effects := snd (handleMoveToList bookId fromListName toListName st) in
      (regenerations effects <= 1)%nat /\
      (regenerations effects = 1%nat ->
       moved = Returns true /\ (toListName = "readBooks" \/ fromListName = Some "readBooks")) /\
      (moved = Returns true ->
       toListName = "readBooks" \/ fromListName = Some "readBooks" ->
       has_thrown effects = false -> regenerations effects = 1%nat)).
Proof.
  assert (R : forall st' (c : bool),
             let effects := redraw st' (if c then [Regenerate] else []) in
             (regenerations effects <= 1)%nat /\
             (regenerations effects = 1%nat -> c = true) /\
             (c = true -> has_thrown effects = false -> regenerations effects = 1%nat)).
  { intros st' c. cbv zeta.
    destruct (redraw_regenerations st' (if c then [Regenerate] else [])) as [L E];
      [destruct c; cbn; lia|].
    destruct c; cbn in L, E |- *.
    - repeat split; [lia | auto].
    - repeat split; [lia | lia | discriminate]. }
  split; [|split].
  - intros book listName. cbv zeta. unfold handleAddToList.
    destruct (truthy (Some listName)) eqn:T; cbn [negb].
    + destruct (addBookToList book listName (App.userBooks st)) as [[[]|] ub];
        cbn [negb fst snd].
      * destruct (R (with_books st ub) (listName =? "readBooks")) as (R1 & R2 & R3).
        split; [exact R1|]. split.
        -- intros H. split; [reflexivity|]. now apply String.eqb_eq, R2.
        -- intros _ H. apply R3. now apply String.eqb_eq.
      * cbn. repeat split; try lia; discriminate.
      * cbn. repeat split; try lia; discriminate.
    + cbn. repeat split; try lia; try discriminate.
      intros _ ->. discriminate.
  - intros bookId listName. cbv zeta. unfold handleRemoveFromList.
    destruct (removeBookFromList bookId listName (App.userBooks st)) as [[[]|] ub];
      cbn [negb fst snd].
    + destruct (R (with_books st ub) (listName =? "readBooks")) as (R1 & R2 & R3).
      split; [exact R1|]. split.
      * intros H. split; [reflexivity|]. now apply String.eqb_eq, R2.
      * intros _ H. apply R3. now apply String.eqb_eq.
    + cbn. repeat split; try lia; discriminate.
    + cbn. repeat split; try lia; discriminate.
  - intros bookId fromListName toListName. cbv zeta. unfold handleMoveToList.
    destruct (moveBookToList _ _ _ _ _ _) as [[[]|] ub]; cbn [negb fst snd].
    + destruct (R (with_books st ub)
                  ((toListName =? "readBooks")
                   || strict_eq fromListName (Some "readBooks"))) as (R1 & R2 & R3).
      split; [exact R1|]. split.
      * intros H. split; [reflexivity|]. apply R2 in H.
        apply orb_true_iff in H as [H|H]; [left; now apply String.eqb_eq|].
        right. now apply strict_eq_iff.
      * intros _ H. apply R3. apply orb_true_iff.
        destruct H as [H|H]; [left; now apply String.eqb_eq|].
        right. now apply strict_eq_iff.
    + cbn. repeat split; try lia; discriminate.
    + cbn. repeat split; try lia; discriminate.
Qed.

Lemma regeneration_trigger_witness :
  regenerations
    (snd (handleMoveToList "B1" (Some "wantToRead") "readBooks" Samples.session)) = 1%nat /\
  regenerations
    (snd (handleMoveToList "B1" (Some "wantToRead") "currentlyReading" Samples.session))
  = 0%nat.
Proof.
  destruct (regeneration_trigger Samples.session) as (_ & _ & M). split.
  - apply (M "B1" (Some "wantToRead") "readBooks"); [reflexivity | now left | reflexivity].
  - destruct (M "B1" (Some "wantToRead") "currentlyReading") as (L & O & _).
    destruct (regenerations _) as [|[|n]] eqn:E; [reflexivity | | lia].
    destruct (O eq_refl) as [_ [H|H]]; discriminate.
Defined.

(** ** The details dialog *)

Lemma status_truthy i n ub : getBookListStatus i ub = Some n -> truthy (Some n) = true.
Proof. intros H. apply status_Some in H as [k ->]. now destruct k. Qed.

(** X18.  The buttons of the details dialog keep every id in at most one list:
    when no id is entered twice and the dialog is built, as
    [handleViewDetails] does, for the list [getBookListStatus] gives, a
    click on any of its buttons leaves lists in which no id is entered
    twice. *)
Theorem dialog_buttons_keep_single book bookId st a :
  id book = Some bookId ->
  single (App.userBooks st) ->
  In a (modalActions book (getBookListStatus (Some bookId) (App.userBooks st))) ->
  single (App.userBooks (fst (clickModalButton a st))).
Proof.
  intros Hid S Hin. unfold modalActions in Hin. rewrite Hid in Hin.
  destruct (getBookListStatus (Some bookId) (App.userBooks st)) as [current|] eqn:E.
  - rewrite (status_truthy _ _ _ E) in Hin.
    apply in_app_or in Hin as [Hin|[<-|[]]].
    + apply in_map_iff in Hin as (name & <- & _). cbn [clickModalButton].
      rewrite handleMove_books. apply move_keeps_single; [exact S|]. left.
      apply status_Some in E as [k ->]. rewrite source_property_name. discriminate.
    + cbn [clickModalButton]. rewrite handleRemove_books.
      now apply remove_keeps_single.
  - apply in_map_iff in Hin as (name & <- & _). cbn [clickModalButton].
    rewrite handleMove_books. apply move_keeps_single; [exact S|]. right.
    now apply status_None.
Qed.

Lemma dialog_buttons_keep_single_witness :
  modalActions Samples.B1 (getBookListStatus (Some "B1") Samples.wants_B1)
  = [MoveTo (Some "B1") (Some "wantToRead") "currentlyReading";
     MoveTo (Some "B1") (Some "wantToRead") "readBooks";
     RemoveFrom (Some "B1") "wantToRead"] /\
  single (App.userBooks
            (fst (clickModalButton (MoveTo (Some "B1") (Some "wantToRead") "readBooks")
                    Samples.session))).
Proof.
  split; [reflexivity|].
  apply (dialog_buttons_keep_single Samples.B1 "B1" Samples.session).
  - reflexivity.
  - exact (add_keeps_single Samples.B1 "wantToRead" emptyBooks single_empty).
  - right. left. reflexivity.
Defined.

(** ** Searching, then filing *)

(** X19.  A search never touches the reading lists or the recommendations.  An
    empty query or a failed request leaves the previous search results in
    place, with a message in the search region; an answer of the catalog
    replaces them wholesale, even when showing them throws.  The cards
    shown are those of the answered books that have an id and are in none
    of the lists. *)
Theorem search_submit_spec catalog query st :
  let r := handleSearchSubmit catalog query st in
  App.userBooks (fst r) = App.userBooks st /\
  App.recommendationsCache (fst r) = App.recommendationsCache st /\
  (query = "" \/ catalog query = Rejected ->
   fst r = st /\ exists message, snd r = Notice message) /\
  (forall books,
      query <> "" -> catalog query = Fulfilled books ->
      App.lastSearchResults (fst r) = books /\
      (forall cards, snd r = Cards cards ->
                     map card_id cards = map id (unowned_books (App.userBooks st) books))).
Proof.
  cbv zeta. unfold handleSearchSubmit, fetchBooks.
  destruct (truthy (Some query)) eqn:T; cbn [negb].
  - apply truthy_Some in T.
    destruct (catalog query) as [books|] eqn:C.
    + pose proof (search_display_cases books (App.userBooks st)) as D.
      destruct (displaySearchResults books _) as [[cards|m]|]; cbn [fst snd].
      all: split; [reflexivity|]; split; [reflexivity|]; split;
        [intros [H|H]; [congruence | discriminate]|].
      all: intros books' _ [= <-]; split; [reflexivity|]; intros cards' H;
        try discriminate.
      injection H as <-. exact D.
    + cbn [fst snd]. split; [reflexivity|]. split; [reflexivity|]. split.
      * intros _. split; [reflexivity | eauto].
      * intros books _ H. discriminate.
  - cbn [fst snd]. split; [reflexivity|]. split; [reflexivity|]. split.
    + intros _. split; [reflexivity | eauto].
    + intros books Hq. exfalso. apply Hq.
      destruct query; [reflexivity | discriminate].
Qed.

Lemma search_submit_spec_witness :
  App.lastSearchResults (fst (handleSearchSubmit Samples.two_hits "zebra" Samples.session))
  = [Samples.Z_http; Samples.B1_covered] /\
  fst (handleSearchSubmit Samples.down "zebra" Samples.session) = Samples.session.
Proof.
  destruct (search_submit_spec Samples.two_hits "zebra" Samples.session)
    as (_ & _ & _ & A).
  destruct (search_submit_spec Samples.down "zebra" Samples.session)
    as (_ & _ & F & _).
  split.
  - apply (A [Samples.Z_http; Samples.B1_covered]); [discriminate | reflexivity].
  - apply F. right. reflexivity.
Defined.

(** X20.  After a search that the catalog answered, a found book that has an id
    and is in none of the lists can be filed from the details dialog: the
    handler called without a source list appends to the target list the
    first found record with that id, leaves the other lists as they are
    and raises no alert. *)
Theorem found_book_can_be_filed catalog query st books b i toListName to :
  query <> "" ->
  catalog query = Fulfilled books ->
  In b books -> id b = Some i -> i <> "" ->
  ~ owned (Some i) (App.userBooks st) ->
  key_of_name toListName = Some to ->
  let st1 := fst (handleSearchSubmit catalog query st) in
  let r := handleMoveToList i None toListName st1 in
  exists b',
    find (fun x => strict_eq (id x) (Some i)) books = Some b' /\
    App.userBooks (fst r)
    = set_list to (get_list to (App.userBooks st) ++ [b']) (App.userBooks st) /\
    forall message, ~ In (Alert message) (snd r).
Proof.
  intros Hq Hc Hb Hi Hne Ho Hk. cbv zeta.
  set (st1 := fst (handleSearchSubmit catalog query st)).
  assert (E1 : App.userBooks st1 = App.userBooks st /\ App.lastSearchResults st1 = books).
  { subst st1. unfold handleSearchSubmit, fetchBooks.
    apply truthy_Some in Hq. rewrite Hq, Hc. cbn [negb].
    now destruct (displaySearchResults books _). }
  destruct E1 as [E1 E2].
  destruct (move_cached books (App.recommendationsCache st1) i None toListName to
              (App.userBooks st)) as (b' & F & _ & M); auto.
  { intros Hin. apply Ho. now exists to. }
  { rewrite map_app, in_app_iff. left. rewrite <- Hi. now apply in_map. }
  rewrite find_app_id in F.
  assert (F' : find (fun x => strict_eq (id x) (Some i)) books = Some b').
  { destruct (find _ books) as [x|] eqn:Fx; [exact F|].
    exfalso. apply find_id_None in Fx. apply Fx. rewrite <- Hi. now apply in_map. }
  exists b'. split; [exact F'|].
  unfold handleMoveToList. rewrite E1, E2, M. cbn [negb fst snd]. split; [reflexivity|].
  intros message. unfold redraw.
  destruct (updateAllUserListsUI _); [|intros [H|[]]; discriminate].
  destruct (displaySearchResults _ _); [|intros [H|[H|[]]]; discriminate].
  destruct ((toListName =? "readBooks") || strict_eq None (Some "readBooks"));
    intros H; cbn in H; intuition discriminate.
Qed.

Lemma found_book_can_be_filed_witness :
  App.userBooks
    (fst (handleMoveToList "Z" None "readBooks"
            (fst (handleSearchSubmit Samples.two_hits "zebra" Samples.session))))
  = set_list ReadBooks [Samples.Z_http] Samples.wants_B1.
Proof.
  destruct (found_book_can_be_filed Samples.two_hits "zebra" Samples.session
              [Samples.Z_http; Samples.B1_covered] Samples.Z_http "Z" "readBooks" ReadBooks)
    as (b' & F & U & _).
  - discriminate.
  - reflexivity.
  - left. reflexivity.
  - reflexivity.
  - discriminate.
  - intros [[] H]; simpl in H; intuition discriminate.
  - reflexivity.
  - injection F as <-. exact U.
Defined.

(** ** Showing fresh recommendations *)

Lemma ranked_have_ids ids l b : In b (rank (filterBooks ids l)) -> truthy (id b) = true.
Proof.
  unfold rank. intros H. apply In_firstn_In in H.
  apply (Permutation_in _ (sort_perm _)) in H. rewrite filterBooks_first in H.
  apply first_of_each_id_incl, filter_In in H as [_ El].
  unfold eligible in El. rewrite !andb_true_iff in El. tauto.
Qed.

(** X21.  Whatever function of the language lower-cases a text, the list a
    run commits is the one of [generateRecommendations], but
    its cards are never shown by the run: [displayRecommendations] is
    called without the owned ids and throws on the first book, so a run
    that found recommendations ends with the failure message, and a run
    that found none ends with the message that nothing suitable was
    found. *)
Theorem fresh_recommendations_are_not_shown toLowerCase catalog ub cache :
  let r := generateAndShow toLowerCase catalog ub cache in
  fst r = snd (generateRecommendations toLowerCase catalog ub cache) /\
  (fst r = [] ->
   snd r = Notice "No suitable recommendations found. Try reading more books to improve suggestions!") /\
  (fst r <> [] ->
   snd r = Notice "Failed to generate recommendations. Please try again later.") /\
  (forall cards, snd r <> Cards cards).
Proof.
  cbv zeta. unfold generateAndShow, generateRecommendations. rewrite merged_flat.
  unfold saveRecommendationsCache.
  set (final := rank (filterBooks (getAllUserBookIds ub)
                        (flat_map (results_of catalog) (queries toLowerCase ub)))).
  assert (T : forall b, In b final -> truthy (id b) = true)
    by (intros b; apply ranked_have_ids).
  clearbody final. destruct final as [|b final].
  - cbn. repeat split; congruence.
  - unfold displayRecommendations. cbn [filter_unowned]. unfold is_unowned.
    rewrite (T b) by now left. cbn [fst snd].
    repeat split; congruence.
Qed.

Lemma fresh_recommendations_are_not_shown_witness :
  generateAndShow Samples.lower_ascii Samples.authors_only Samples.history []
  = ([Samples.Y_covered],
     Notice "Failed to generate recommendations. Please try again later.").
Proof.
  destruct (fresh_recommendations_are_not_shown Samples.lower_ascii Samples.authors_only
              Samples.history [])
    as (_ & _ & F & _).
  assert (E : fst (generateAndShow Samples.lower_ascii Samples.authors_only Samples.history [])
              = [Samples.Y_covered]) by reflexivity.
  rewrite (surjective_pairing (generateAndShow _ _ _ _)), E, F; [reflexivity|].
  rewrite E. discriminate.
Defined.
